(** * Personal assistant record managers (main.py): a shallow embedding

    The program keeps four independent collections (notes, tasks, contacts,
    finance records).  Each manager class loads its whole collection from a
    JSON file when it is constructed, mutates the in-memory list and rewrites
    the file.  This development embeds the four record classes and the four
    manager classes and states the properties of the specification over them.

    Conventions of the embedding.
    - A Python [str] is a Rocq [string] (its UTF-8 bytes); byte-wise
      lexicographic order on UTF-8 agrees with Python's code-point order.
      Case folding, decimal digits and white space beyond ASCII need Unicode
      tables: [py_lower], [strptime], [py_float] and [validate_phone] answer
      [OutsideModel] on a string with a non-ASCII byte.
    - Record ids are integers ([Z]).  A finance amount is a float of integer
      value, kept as that integer: [py_float] converts only strings whose
      float is an integer of magnitude at most 2^53, and properties of sums
      are stated for amounts on which float addition is exact
      ([float_exact]).
    - The standard library modules [json], [csv], [os.path] and [datetime] are
      not part of main.py.  A backing file is modelled by what [json.load]
      makes of its text, a CSV file by the rows [csv.DictReader] yields, the
      clock by the string [current_timestamp] returns, [strptime] by a parser
      for the one format the program uses.
    - A method is a function from the manager object to the manager object
      after the call, together with the returned value or the raised
      exception.  Writes to the backing file and printed lines are appended to
      the manager's [trace]. *)

From Stdlib Require Import ZArith List String Ascii Bool Lia Sorted.
Import ListNotations.

Set Warnings "-register-all".

Local Open Scope string_scope.
Local Open Scope Z_scope.
Local Open Scope list_scope.

(** ** Python values, exceptions and results *)

(** A decoded JSON document.  Objects keep their keys in insertion order, as
    Python dicts do. *)
Inductive json : Type :=
| JNull
| JBool (b : bool)
| JNum (n : Z)
| JStr (s : string)
| JArr (items : list json)
| JObj (fields : list (string * json)).

(** The exceptions the embedded methods can raise.  [OutsideModel] is not a
    Python exception: it marks an input whose Python type has no counterpart
    in the typed records below (a string where an id is expected, a decimal
    fraction as an amount), or a string on which the answer of the library
    depends on Unicode tables. *)
Inductive exn : Type :=
| JSONDecodeError
| KeyError (key : string)
| TypeError
| ValueError
| FileNotFoundError
| NameError
| OutsideModel.

Inductive res (A : Type) : Type :=
| Ok (a : A)
| Raise (e : exn).
Arguments Ok {A} a.
Arguments Raise {A} e.

Definition bind {A B : Type} (r : res A) (k : A -> res B) : res B :=
  match r with
  | Ok a => k a
  | Raise e => Raise e
  end.

Notation "x <- r ;; k" := (bind r (fun x => k))
  (at level 61, r at next level, right associativity).

Fixpoint mapM {A B : Type} (f : A -> res B) (l : list A) : res (list B) :=
  match l with
  | [] => Ok []
  | a :: l' => b <- f a ;; bs <- mapM f l' ;; Ok (b :: bs)
  end.

(** The text of a backing file, seen through [json.load]: either it decodes to
    a document or decoding raises [JSONDecodeError]. *)
Inductive text : Type :=
| JsonText (doc : json)
| Unparseable.

Definition json_load (t : text) : res json :=
  match t with
  | JsonText doc => Ok doc
  | Unparseable => Raise JSONDecodeError
  end.

(** [json.dump(value, file)] on a freshly truncated file. *)
Definition json_dump (doc : json) : text := JsonText doc.

(** A row yielded by [csv.DictReader]: column name to cell.  The reader
    gives every row of a file the columns of the header line; a line with
    fewer cells than the header, which it pads with [None], is not
    represented. *)
Definition csv_row : Type := list (string * string).

(** Python truthiness of a string and of an optional string ([None] and the
    empty string are falsy). *)
Definition truthy (s : string) : bool := negb (s =? "")%string.

Definition truthy_opt (o : option string) : bool :=
  match o with
  | Some s => truthy s
  | None => false
  end.

(** [d[key]] on a dict: [KeyError] when the key is missing. *)
Fixpoint lookup {V : Type} (key : string) (d : list (string * V)) : option V :=
  match d with
  | [] => None
  | (k, v) :: d' => if (k =? key)%string then Some v else lookup key d'
  end.

Definition getitem {V : Type} (d : list (string * V)) (key : string) : res V :=
  match lookup key d with
  | Some v => Ok v
  | None => Raise (KeyError key)
  end.

(** [data[key]] where [data] is an element of the decoded array: subscripting
    anything but a dict with a string raises [TypeError]. *)
Definition subscript (data : json) (key : string) : res json :=
  match data with
  | JObj fields => getitem fields key
  | _ => Raise TypeError
  end.

(** [data.get(key)]: [None] when the key is missing.  Only dicts have [get];
    the callers reach it after a successful [data["id"]], so [data] is a
    dict there. *)
Definition dict_get (data : json) (key : string) : res json :=
  match data with
  | JObj fields =>
      match lookup key fields with
      | Some v => Ok v
      | None => Ok JNull
      end
  | _ => Raise TypeError
  end.

(** Typed views of decoded values. *)
Definition as_int (v : json) : res Z :=
  match v with JNum n => Ok n | _ => Raise OutsideModel end.

Definition as_str (v : json) : res string :=
  match v with JStr s => Ok s | _ => Raise OutsideModel end.

Definition as_bool (v : json) : res bool :=
  match v with JBool b => Ok b | _ => Raise OutsideModel end.

Definition as_opt_str (v : json) : res (option string) :=
  match v with
  | JNull => Ok None
  | JStr s => Ok (Some s)
  | _ => Raise OutsideModel
  end.

Definition of_opt_str (o : option string) : json :=
  match o with
  | Some s => JStr s
  | None => JNull
  end.

(** [for x in data] in the list comprehension of the loaders: a list yields
    its elements; an empty dict or empty string yields nothing; a non-empty
    dict or string yields strings, on which [from_dict] raises [TypeError];
    other values are not iterable. *)
Definition iterate (data : json) : res (list json) :=
  match data with
  | JArr items => Ok items
  | JObj [] => Ok []
  | JStr s => if truthy s then Raise TypeError else Ok []
  | _ => Raise TypeError
  end.

(** [max(ids, default=0)]. *)
Definition max_default (ids : list Z) : Z :=
  match ids with
  | [] => 0
  | i :: rest => fold_left Z.max rest i
  end.

(** ** Built-in string operations *)

Definition is_digit (c : ascii) : bool :=
  (Ascii.leb "0" c && Ascii.leb c "9")%char.

Definition digit_val (c : ascii) : Z := Z.of_N (N_of_ascii c) - 48.

Fixpoint digits_from (acc : Z) (s : string) : option Z :=
  match s with
  | EmptyString => Some acc
  | String c s' =>
      if is_digit c then digits_from (10 * acc + digit_val c) s' else None
  end.

(** A non-empty run of ASCII digits, read in base ten. *)
Definition parse_num (s : string) : option Z :=
  match s with
  | EmptyString => None
  | _ => digits_from 0 s
  end.

(** An optional sign followed by ASCII digits. *)
Definition parse_signed (s : string) : option Z :=
  match s with
  | String "-" s' => option_map Z.opp (parse_num s')
  | String "+" s' => parse_num s'
  | _ => parse_num s
  end.

(** Characters that [int] and [float] treat specially beyond sign and ASCII
    digits: white space, the underscore, and any non-ASCII byte. *)
Definition lenient_char (c : ascii) : bool :=
  let n := N_of_ascii c in
  (N.leb 128 n || N.eqb n 95 || N.eqb n 32 || (N.leb 9 n && N.leb n 13)
   || (N.leb 28 n && N.leb n 31))%bool.

Fixpoint has_lenient_char (s : string) : bool :=
  match s with
  | EmptyString => false
  | String c s' => (lenient_char c || has_lenient_char s')%bool
  end.

(** [int(s)].  A string of plain ASCII characters converts exactly when it is
    an optionally signed digit run; otherwise [ValueError].  Strings with
    white space, underscores or non-ASCII digits are left outside the
    embedding. *)
Definition py_int (s : string) : res Z :=
  match parse_signed s with
  | Some n => Ok n
  | None => if has_lenient_char s then Raise OutsideModel else Raise ValueError
  end.

(** Folding of the ASCII letters A to Z. *)
Definition lower_char (c : ascii) : ascii :=
  let n := N_of_ascii c in
  if (N.leb 65 n && N.leb n 90)%bool then ascii_of_N (n + 32) else c.

Fixpoint lower (s : string) : string :=
  match s with
  | EmptyString => EmptyString
  | String c s' => String (lower_char c) (lower s')
  end.

(** Every character of [s] satisfies [p]. *)
Fixpoint all_chars (p : ascii -> bool) (s : string) : bool :=
  match s with
  | EmptyString => true
  | String c s' => (p c && all_chars p s')%bool
  end.

Definition is_ascii (c : ascii) : bool := N.ltb (N_of_ascii c) 128.

(** [s.lower()].  On ASCII text it folds the letters A to Z; what it does to
    other letters takes Unicode tables, so a string with a non-ASCII byte is
    left outside. *)
Definition py_lower (s : string) : res string :=
  if all_chars is_ascii s then Ok (lower s) else Raise OutsideModel.

(** [q in s] on strings. *)
Fixpoint str_in (q s : string) : bool :=
  if prefix q s then true
  else match s with
       | EmptyString => false
       | String _ s' => str_in q s'
       end.

(** White space as [str.split()], [str.strip()] and [float] see it, within
    ASCII. *)
Definition is_space (c : ascii) : bool :=
  let n := N_of_ascii c in
  (N.eqb n 32 || (N.leb 9 n && N.leb n 13) || (N.leb 28 n && N.leb n 31))%bool.

(** ** Regular expressions *)

(** The fragment of [re] syntax the program's patterns use.  A character
    class is its membership test. *)
Inductive re : Type :=
| Void
| Eps
| Cls (p : ascii -> bool)
| Seq (a b : re)
| Alt (a b : re)
| Star (a : re).

Definition opt (r : re) : re := Alt r Eps.
Definition plus (r : re) : re := Seq r (Star r).
Definition lit (c : ascii) : re := Cls (Ascii.eqb c).

Fixpoint nullable (r : re) : bool :=
  match r with
  | Void => false
  | Eps => true
  | Cls _ => false
  | Seq a b => nullable a && nullable b
  | Alt a b => nullable a || nullable b
  | Star _ => true
  end.

(** What is left of [r] to match after reading [c]. *)
Fixpoint derive (c : ascii) (r : re) : re :=
  match r with
  | Void => Void
  | Eps => Void
  | Cls p => if p c then Eps else Void
  | Seq a b =>
      if nullable a then Alt (Seq (derive c a) b) (derive c b)
      else Seq (derive c a) b
  | Alt a b => Alt (derive c a) (derive c b)
  | Star a => Seq (derive c a) (Star a)
  end.

(** The whole of [s] matches [r]. *)
Fixpoint matches (r : re) (s : string) : bool :=
  match s with
  | EmptyString => nullable r
  | String c s' => matches (derive c r) s'
  end.

(** ** [float(s)] *)

(** Digits with single underscores between them. *)
Definition digit_part : re :=
  Seq (Cls is_digit) (Star (Seq (opt (lit "_")) (Cls is_digit))).

Definition is_sign (c : ascii) : bool := ((c =? "+") || (c =? "-"))%char.

Definition exponent : re :=
  Seq (Cls (fun c => (lower_char c =? "e")%char))
      (Seq (opt (Cls is_sign)) digit_part).

(** The letters of [w], each in either case. *)
Fixpoint caseless (w : string) : re :=
  match w with
  | EmptyString => Eps
  | String c w' => Seq (Cls (fun x => (lower_char x =? c)%char)) (caseless w')
  end.

(** The ASCII strings [float] converts: white space around an optional sign
    and either [inf], [infinity] or [nan] in any letter case, or a decimal
    number with at least one digit before or after the point and an
    optional exponent. *)
Definition float_literal : re :=
  Seq (Star (Cls is_space))
      (Seq (opt (Cls is_sign))
           (Seq (Alt (Alt (caseless "infinity") (caseless "inf"))
                     (Alt (caseless "nan")
                          (Seq (Alt (Seq digit_part
                                         (opt (Seq (lit ".") (opt digit_part))))
                                    (Seq (lit ".") digit_part))
                               (opt exponent))))
                (Star (Cls is_space)))).

(** Text before and after the first ["."]; no point, no text after. *)
Fixpoint split_point (s : string) : string * string :=
  match s with
  | EmptyString => (EmptyString, EmptyString)
  | String c s' =>
      if (c =? ".")%char then (EmptyString, s')
      else let (a, b) := split_point s' in (String c a, b)
  end.

(** 2^53: every integer up to it in magnitude is a float. *)
Definition float_integer_bound : Z := 9007199254740992.

(** What becomes of a string that is not the plain literal of an integer
    the embedding keeps.  With a non-ASCII byte it is left outside.  An
    ASCII float literal stands for a float the embedding does not keep (a
    fraction, an infinity, a value [float] has to round, minus zero, or an
    integer spelt with white space, underscores or an exponent), which is
    outside as well.  Any other ASCII string makes [float] raise
    [ValueError]. *)
Definition float_unkept (s : string) : exn :=
  if negb (all_chars is_ascii s) then OutsideModel
  else if matches float_literal s then OutsideModel
       else ValueError.

(** [float(s)].  The embedding keeps a float of integer value as that
    integer.  A plain literal, sign and digits with at most a point and
    zeros after them, converts exactly when its magnitude is at most 2^53
    (and it is not minus zero). *)
Definition py_float (s : string) : res Z :=
  let (whole, zeros) := split_point s in
  match parse_signed whole with
  | Some n =>
      if (all_chars (Ascii.eqb "0") zeros
          && (Z.abs n <=? float_integer_bound)
          && negb ((n =? 0) && prefix "-" s))%bool
      then Ok n
      else Raise (float_unkept s)
  | None => Raise (float_unkept s)
  end.

(** ** [datetime.strptime(s, "%d-%m-%Y")] *)

Record date : Type := mk_date { year : Z; month : Z; day : Z }.

(** Text before and after the first ["-"]. *)
Fixpoint split_dash (s : string) : option (string * string) :=
  match s with
  | EmptyString => None
  | String c s' =>
      if (c =? "-")%char then Some (EmptyString, s')
      else match split_dash s' with
           | Some (a, b) => Some (String c a, b)
           | None => None
           end
  end.

(** The [%d] directive: [3[0-1]|[1-2]\d|0[1-9]|[1-9]| [1-9]]. *)
Definition parse_day (s : string) : option Z :=
  match s with
  | String " " (String c EmptyString) =>
      if (is_digit c && negb (c =? "0")%char)%bool then Some (digit_val c) else None
  | _ =>
      match parse_num s with
      | Some n =>
          if ((Nat.leb (String.length s) 2) && (1 <=? n) && (n <=? 31))%bool
          then Some n else None
      | None => None
      end
  end.

(** The [%m] directive: [1[0-2]|0[1-9]|[1-9]]. *)
Definition parse_month (s : string) : option Z :=
  match parse_num s with
  | Some n =>
      if ((Nat.leb (String.length s) 2) && (1 <=? n) && (n <=? 12))%bool
      then Some n else None
  | None => None
  end.

(** The [%Y] directive: exactly four digits. *)
Definition parse_year (s : string) : option Z :=
  if Nat.eqb (String.length s) 4 then parse_num s else None.

Definition is_leap (y : Z) : bool :=
  (((y mod 4 =? 0) && negb (y mod 100 =? 0)) || (y mod 400 =? 0))%bool.

Definition days_in_month (y m : Z) : Z :=
  if m =? 2 then (if is_leap y then 29 else 28)
  else if ((m =? 4) || (m =? 6) || (m =? 9) || (m =? 11))%bool then 30
  else 31.

(** The format [%d-%m-%Y] on ASCII text.  The directives also match decimal
    digits beyond ASCII, which takes Unicode tables: a string with a
    non-ASCII byte is left outside. *)
Definition strptime (s : string) : res date :=
  if negb (all_chars is_ascii s) then Raise OutsideModel
  else
    match split_dash s with
    | Some (ds, rest) =>
        match split_dash rest with
        | Some (ms, ys) =>
            match parse_day ds, parse_month ms, parse_year ys with
            | Some d, Some m, Some y =>
                if ((1 <=? y) && (d <=? days_in_month y m))%bool
                then Ok (mk_date y m d)
                else Raise ValueError
            | _, _, _ => Raise ValueError
            end
        | None => Raise ValueError
        end
    | None => Raise ValueError
    end.

(** Chronological order of two dates ([datetime.__le__]). *)
Definition date_key (d : date) : Z := (year d * 100 + month d) * 100 + day d.

Definition date_leb (a b : date) : bool := date_key a <=? date_key b.

(** The argument of the delete methods: the string ['ALL'] or an id. *)
Inductive target : Type :=
| ALL
| ById (i : Z).

(** Lines the methods print, and the observable effects of a method. *)
Inductive message : Type :=
| MsgJsonError
| MsgDeleted (i : Z)
| MsgNotFound (i : Z)
| MsgRow (row : csv_row)
| MsgRecords (rows : list json)
| MsgReport (income costs balance : Z) (path : string)
| MsgNoRecords.

Inductive event : Type :=
| Saved (t : text)
| WroteCsv (path : string) (rows : list json)
| Printed (m : message).

(** Number of rewrites of the backing file recorded in a trace. *)
Fixpoint saves (tr : list event) : nat :=
  match tr with
  | [] => O
  | Saved _ :: tr' => S (saves tr')
  | _ :: tr' => saves tr'
  end.

(** ** class Note *)
Module Note.

Record t : Type := mk {
  id : Z;
  title : string;
  content : string;
  timestamp : string
}.

(** [__init__]: [self.timestamp = timestamp or self.current_timestamp()]. *)
Definition init (now : string) (note_id : Z) (title content : string)
    (timestamp : option string) : t :=
  mk note_id title content
     (if truthy_opt timestamp
      then match timestamp with Some s => s | None => now end
      else now).

Definition update (now : string) (new_title new_content : option string)
    (self : t) : t :=
  mk (id self)
     (match new_title with
      | Some s => if truthy s then s else title self
      | None => title self
      end)
     (match new_content with
      | Some s => if truthy s then s else content self
      | None => content self
      end)
     now.

Definition to_dict (self : t) : json :=
  JObj [("id", JNum (id self)); ("title", JStr (title self));
        ("content", JStr (content self)); ("timestamp", JStr (timestamp self))].

Definition from_dict (now : string) (data : json) : res t :=
  i <- subscript data "id" ;;
  ti <- subscript data "title" ;;
  c <- subscript data "content" ;;
  ts <- subscript data "timestamp" ;;
  i' <- as_int i ;;
  ti' <- as_str ti ;;
  c' <- as_str c ;;
  ts' <- as_opt_str ts ;;
  Ok (init now i' ti' c' ts').

(** Every note the constructor or [update] produces has a non-empty
    timestamp, provided the clock string is non-empty (it is a formatted
    date). *)
Definition stamped (n : t) : Prop := timestamp n <> "".

End Note.

(** ** class NoteManager *)
Module NoteManager.

Record t : Type := mk {
  storage_file : option text;   (* content of the file at [self.storage_file] *)
  notes : list Note.t;
  trace : list event
}.

Definition emit (e : event) (self : t) : t :=
  mk (storage_file self) (notes self) (trace self ++ [e]).

Definition set_notes (l : list Note.t) (self : t) : t :=
  mk (storage_file self) l (trace self).

(** [load_notes]: the list it returns and what it prints.  Only
    [JSONDecodeError] is caught. *)
Definition load_notes (now : string) (file : option text)
    : res (list Note.t) * list event :=
  match file with
  | Some t =>
      match json_load t with
      | Ok data => (items <- iterate data ;; mapM (Note.from_dict now) items, [])
      | Raise JSONDecodeError => (Ok [], [Printed MsgJsonError])
      | Raise e => (Raise e, [])
      end
  | None => (Ok [], [])
  end.

(** [__init__]. *)
Definition init (now : string) (file : option text) : res t :=
  let (r, out) := load_notes now file in
  l <- r ;; Ok (mk file l out).

Definition save_notes (self : t) : t :=
  let t := json_dump (JArr (map Note.to_dict (notes self))) in
  mk (Some t) (notes self) (trace self ++ [Saved t]).

Definition create_note (now : string) (title content : string) (self : t)
    : Note.t * t :=
  let note_id := max_default (map Note.id (notes self)) + 1 in
  let note := Note.init now note_id title content None in
  (note, save_notes (set_notes (notes self ++ [note]) self)).

Definition list_notes (self : t) : list Note.t := notes self.

Definition view_note_details (note_id : Z) (self : t) : option Note.t :=
  find (fun note => Note.id note =? note_id) (notes self).

(** [note.update(...)] mutates the object [view_note_details] returned, which
    is the first element of the list with that id. *)
Fixpoint update_first {A : Type} (p : A -> bool) (f : A -> A) (l : list A)
    : list A :=
  match l with
  | [] => []
  | a :: l' => if p a then f a :: l' else a :: update_first p f l'
  end.

Definition edit_note (now : string) (note_id : Z)
    (title content : option string) (self : t) : option Note.t * t :=
  match view_note_details note_id self with
  | Some note =>
      let self' :=
        set_notes (update_first (fun n => Note.id n =? note_id)
                                (Note.update now title content) (notes self))
                  self in
      (Some (Note.update now title content note), save_notes self')
  | None => (None, self)
  end.

Definition delete_note (note_id : target) (self : t) : t :=
  match note_id with
  | ALL => save_notes (set_notes [] self)
  | ById i =>
      if existsb (fun n => Note.id n =? i) (notes self)
      then emit (Printed (MsgDeleted i))
             (save_notes
                (set_notes
                   (filter (fun note => negb (Note.id note =? i)) (notes self))
                   self))
      else emit (Printed (MsgNotFound i)) self
  end.

(** The three cells the import reads from a row, in the order the constructor
    call evaluates them. *)
Definition cells (row : csv_row) : res (string * string * string) :=
  ti <- getitem row "title" ;;
  c <- getitem row "content" ;;
  ts <- getitem row "timestamp" ;;
  Ok (ti, c, ts).

(** The body of the [for row in reader] loop, run over the rows: it returns
    the list after the loop (or at the point a [KeyError] left it) and the
    last row bound to [row]. *)
Fixpoint import_rows (now : string) (rows : list csv_row) (last : option csv_row)
    (l : list Note.t) : res (option csv_row) * list Note.t :=
  match rows with
  | [] => (Ok last, l)
  | row :: rest =>
      let note_id := max_default (map Note.id l) + 1 in
      match cells row with
      | Ok (ti, c, ts) =>
          import_rows now rest (Some row)
            (l ++ [Note.init now note_id ti c (Some ts)])
      | Raise e => (Raise e, l)
      end
  end.

(** [import_from_csv]: [csv] is the content of the file at the given path,
    [None] when there is no such file.  [print(row)] after the loop raises
    [NameError] when the reader yielded no row. *)
Definition import_from_csv (now : string) (csv : option (list csv_row))
    (self : t) : res unit * t :=
  match csv with
  | None => (Raise FileNotFoundError, self)
  | Some rows =>
      match import_rows now rows None (notes self) with
      | (Ok (Some row), l) =>
          (Ok tt, save_notes (emit (Printed (MsgRow row)) (set_notes l self)))
      | (Ok None, l) => (Raise NameError, set_notes l self)
      | (Raise e, l) => (Raise e, set_notes l self)
      end
  end.

(** [export_to_csv]: a header and one row per note, written with
    [csv.DictWriter] to the given path.  [onto_storage] tells whether that
    path names the manager's own backing file: opening it for writing then
    replaces the JSON text by CSV text, which begins with the header line and
    does not decode as JSON. *)
Definition export_to_csv (csv_file : string) (onto_storage : bool) (self : t)
    : t :=
  mk (if onto_storage then Some Unparseable else storage_file self)
     (notes self)
     (trace self ++ [WroteCsv csv_file (map Note.to_dict (notes self))]).

End NoteManager.

(** ** class Task *)
Module Task.

Record t : Type := mk {
  id : Z;
  title : string;
  description : string;
  done : bool;
  priority : string;
  due_date : option string
}.

Definition mark_done (self : t) : t :=
  mk (id self) (title self) (description self) true (priority self)
     (due_date self).

Definition update (new_title new_description new_priority new_due : option string)
    (self : t) : t :=
  mk (id self)
     (match new_title with
      | Some s => if truthy s then s else title self
      | None => title self
      end)
     (match new_description with
      | Some s => if truthy s then s else description self
      | None => description self
      end)
     (done self)
     (match new_priority with
      | Some s => if truthy s then s else priority self
      | None => priority self
      end)
     (match new_due with
      | Some s => if truthy s then Some s else due_date self
      | None => due_date self
      end).

Definition to_dict (self : t) : json :=
  JObj [("id", JNum (id self)); ("title", JStr (title self));
        ("description", JStr (description self)); ("done", JBool (done self));
        ("priority", JStr (priority self));
        ("due_date", of_opt_str (due_date self))].

Definition from_dict (data : json) : res t :=
  i <- subscript data "id" ;;
  ti <- subscript data "title" ;;
  de <- subscript data "description" ;;
  dn <- subscript data "done" ;;
  pr <- subscript data "priority" ;;
  du <- subscript data "due_date" ;;
  i' <- as_int i ;;
  ti' <- as_str ti ;;
  de' <- as_str de ;;
  dn' <- as_bool dn ;;
  pr' <- as_str pr ;;
  du' <- as_opt_str du ;;
  Ok (mk i' ti' de' dn' pr' du').

End Task.

(** ** class TaskManager *)
Module TaskManager.

Record t : Type := mk {
  storage_file : option text;
  tasks : list Task.t;
  trace : list event
}.

Definition emit (e : event) (self : t) : t :=
  mk (storage_file self) (tasks self) (trace self ++ [e]).

Definition set_tasks (l : list Task.t) (self : t) : t :=
  mk (storage_file self) l (trace self).

Definition load_tasks (file : option text) : res (list Task.t) * list event :=
  match file with
  | Some t =>
      match json_load t with
      | Ok data => (items <- iterate data ;; mapM Task.from_dict items, [])
      | Raise JSONDecodeError => (Ok [], [Printed MsgJsonError])
      | Raise e => (Raise e, [])
      end
  | None => (Ok [], [])
  end.

Definition init (file : option text) : res t :=
  let (r, out) := load_tasks file in
  l <- r ;; Ok (mk file l out).

Definition save_tasks (self : t) : t :=
  let t := json_dump (JArr (map Task.to_dict (tasks self))) in
  mk (Some t) (tasks self) (trace self ++ [Saved t]).

(** [add_task]; [priority] defaults to the medium level at the call site. *)
Definition add_task (title description priority : string)
    (due_date : option string) (self : t) : Task.t * t :=
  let task_id := max_default (map Task.id (tasks self)) + 1 in
  let task := Task.mk task_id title description false priority due_date in
  (task, save_tasks (set_tasks (tasks self ++ [task]) self)).

(** [task.due_date and task.due_date <= filter_due_date]. *)
Definition due_by (filter_due_date : string) (task : Task.t) : bool :=
  match Task.due_date task with
  | Some d => (truthy d && String.leb d filter_due_date)%bool
  | None => false
  end.

Definition list_tasks (filter_status : option bool)
    (filter_priority : option (list string)) (filter_due_date : option string)
    (self : t) : list Task.t :=
  let filtered_tasks := tasks self in
  let filtered_tasks :=
    match filter_status with
    | Some b =>
        if b
        then filter (fun task => Bool.eqb (Task.done task) b) filtered_tasks
        else filtered_tasks
    | None => filtered_tasks
    end in
  let filtered_tasks :=
    match filter_priority with
    | Some ps =>
        if negb (Nat.eqb (List.length ps) 0)
        then filter (fun task => existsb (String.eqb (Task.priority task)) ps)
                    filtered_tasks
        else filtered_tasks
    | None => filtered_tasks
    end in
  match filter_due_date with
  | Some d =>
      if truthy d then filter (due_by d) filtered_tasks else filtered_tasks
  | None => filtered_tasks
  end.

Definition view_task_details (task_id : Z) (self : t) : option Task.t :=
  find (fun task => Task.id task =? task_id) (tasks self).

Definition mark_task_done (task_id : Z) (self : t) : option Task.t * t :=
  match view_task_details task_id self with
  | Some task =>
      (Some (Task.mark_done task),
       save_tasks
         (set_tasks
            (NoteManager.update_first (fun x => Task.id x =? task_id)
                                      Task.mark_done (tasks self))
            self))
  | None => (None, self)
  end.

Definition edit_task (task_id : Z)
    (title description priority due_date : option string) (self : t)
    : option Task.t * t :=
  match view_task_details task_id self with
  | Some task =>
      (Some (Task.update title description priority due_date task),
       save_tasks
         (set_tasks
            (NoteManager.update_first (fun x => Task.id x =? task_id)
               (Task.update title description priority due_date) (tasks self))
            self))
  | None => (None, self)
  end.

Definition delete_task (task_id : target) (self : t) : t :=
  match task_id with
  | ALL => save_tasks (set_tasks [] self)
  | ById i =>
      save_tasks
        (set_tasks (filter (fun task => negb (Task.id task =? i)) (tasks self))
                   self)
  end.

Definition of_row (row : csv_row) : res Task.t :=
  i <- getitem row "id" ;;
  i' <- py_int i ;;
  ti <- getitem row "title" ;;
  de <- getitem row "description" ;;
  dn <- getitem row "done" ;;
  pr <- getitem row "priority" ;;
  du <- getitem row "due_date" ;;
  Ok (Task.mk i' ti de (lower dn =? "true")%string pr (Some du)).

Fixpoint import_rows (rows : list csv_row) (l : list Task.t)
    : res unit * list Task.t :=
  match rows with
  | [] => (Ok tt, l)
  | row :: rest =>
      match of_row row with
      | Ok task =>
          import_rows rest
            (if existsb (fun x => Task.id x =? Task.id task) l
             then l else l ++ [task])
      | Raise e => (Raise e, l)
      end
  end.

Definition import_from_csv (csv : option (list csv_row)) (self : t)
    : res unit * t :=
  match csv with
  | None => (Raise FileNotFoundError, self)
  | Some rows =>
      match import_rows rows (tasks self) with
      | (Ok _, l) => (Ok tt, save_tasks (set_tasks l self))
      | (Raise e, l) => (Raise e, set_tasks l self)
      end
  end.

(** [export_to_csv]; [onto_storage] as for the notes. *)
Definition export_to_csv (csv_file : string) (onto_storage : bool) (self : t)
    : t :=
  mk (if onto_storage then Some Unparseable else storage_file self)
     (tasks self)
     (trace self ++ [WroteCsv csv_file (map Task.to_dict (tasks self))]).

End TaskManager.

(** ** class Contact *)
Module Contact.

Record t : Type := mk {
  id : Z;
  name : string;
  phone : option string;
  email : option string
}.

Definition update (new_name new_phone new_email : option string) (self : t)
    : t :=
  mk (id self)
     (match new_name with
      | Some s => if truthy s then s else name self
      | None => name self
      end)
     (match new_phone with
      | Some s => if truthy s then Some s else phone self
      | None => phone self
      end)
     (match new_email with
      | Some s => if truthy s then Some s else email self
      | None => email self
      end).

Definition to_dict (self : t) : json :=
  JObj [("id", JNum (id self)); ("name", JStr (name self));
        ("phone", of_opt_str (phone self)); ("email", of_opt_str (email self))].

Definition from_dict (data : json) : res t :=
  i <- subscript data "id" ;;
  na <- subscript data "name" ;;
  ph <- dict_get data "phone" ;;
  em <- dict_get data "email" ;;
  i' <- as_int i ;;
  na' <- as_str na ;;
  ph' <- as_opt_str ph ;;
  em' <- as_opt_str em ;;
  Ok (mk i' na' ph' em').

End Contact.

(** ** class ContactManager *)
Module ContactManager.

Record t : Type := mk {
  storage_file : option text;
  contacts : list Contact.t;
  trace : list event
}.

Definition set_contacts (l : list Contact.t) (self : t) : t :=
  mk (storage_file self) l (trace self).

Definition load_contacts (file : option text)
    : res (list Contact.t) * list event :=
  match file with
  | Some t =>
      match json_load t with
      | Ok data => (items <- iterate data ;; mapM Contact.from_dict items, [])
      | Raise JSONDecodeError => (Ok [], [Printed MsgJsonError])
      | Raise e => (Raise e, [])
      end
  | None => (Ok [], [])
  end.

Definition init (file : option text) : res t :=
  let (r, out) := load_contacts file in
  l <- r ;; Ok (mk file l out).

Definition save_contacts (self : t) : t :=
  let t := json_dump (JArr (map Contact.to_dict (contacts self))) in
  mk (Some t) (contacts self) (trace self ++ [Saved t]).

Definition add_contact (name : string) (phone email : option string)
    (self : t) : Contact.t * t :=
  let contact_id := max_default (map Contact.id (contacts self)) + 1 in
  let contact := Contact.mk contact_id name phone email in
  (contact, save_contacts (set_contacts (contacts self ++ [contact]) self)).

(** [x or ""] for an optional string. *)
Definition or_empty (o : option string) : string :=
  match o with
  | Some s => s
  | None => ""
  end.

(** The comprehension of [search_contacts], the query being lower-cased
    already: the name of each contact is lower-cased, its phone is not. *)
Fixpoint matching (query : string) (l : list Contact.t)
    : res (list Contact.t) :=
  match l with
  | [] => Ok []
  | contact :: rest =>
      name <- py_lower (Contact.name contact) ;;
      tl <- matching query rest ;;
      Ok (if (str_in query (or_empty (Some name))
              || str_in query (or_empty (Contact.phone contact)))%bool
          then contact :: tl else tl)
  end.

Definition search_contacts (query : string) (self : t)
    : res (list Contact.t) :=
  query <- py_lower query ;;
  matching query (contacts self).

Definition get_contact_by_id (contact_id : Z) (self : t) : option Contact.t :=
  find (fun contact => Contact.id contact =? contact_id) (contacts self).

Definition edit_contact (contact_id : Z) (name phone email : option string)
    (self : t) : option Contact.t * t :=
  match get_contact_by_id contact_id self with
  | Some contact =>
      (Some (Contact.update name phone email contact),
       save_contacts
         (set_contacts
            (NoteManager.update_first (fun x => Contact.id x =? contact_id)
               (Contact.update name phone email) (contacts self))
            self))
  | None => (None, self)
  end.

Definition delete_contact (contact_id : target) (self : t) : t :=
  match contact_id with
  | ALL => save_contacts (set_contacts [] self)
  | ById i =>
      save_contacts
        (set_contacts
           (filter (fun contact => negb (Contact.id contact =? i))
                   (contacts self))
           self)
  end.

Definition of_row (row : csv_row) : res Contact.t :=
  i <- getitem row "id" ;;
  i' <- py_int i ;;
  na <- getitem row "name" ;;
  Ok (Contact.mk i' na (lookup "phone" row) (lookup "email" row)).

Fixpoint import_rows (rows : list csv_row) (l : list Contact.t)
    : res unit * list Contact.t :=
  match rows with
  | [] => (Ok tt, l)
  | row :: rest =>
      match of_row row with
      | Ok contact =>
          import_rows rest
            (if existsb (fun c => Contact.id c =? Contact.id contact) l
             then l else l ++ [contact])
      | Raise e => (Raise e, l)
      end
  end.

(** [import_from_csv]: the whole body sits under [if os.path.exists(csv_file)]. *)
Definition import_from_csv (csv : option (list csv_row)) (self : t)
    : res unit * t :=
  match csv with
  | None => (Ok tt, self)
  | Some rows =>
      match import_rows rows (contacts self) with
      | (Ok _, l) => (Ok tt, save_contacts (set_contacts l self))
      | (Raise e, l) => (Raise e, set_contacts l self)
      end
  end.

(** [export_to_csv]; [onto_storage] as for the notes. *)
Definition export_to_csv (csv_file : string) (onto_storage : bool) (self : t)
    : t :=
  mk (if onto_storage then Some Unparseable else storage_file self)
     (contacts self)
     (trace self
      ++ [WroteCsv csv_file (map Contact.to_dict (contacts self))]).

End ContactManager.

(** ** class FinanceRecord *)
Module FinanceRecord.

Record t : Type := mk {
  id : Z;
  amount : Z;
  category : string;
  date : string;
  description : string
}.

Definition to_dict (self : t) : json :=
  JObj [("id", JNum (id self)); ("amount", JNum (amount self));
        ("category", JStr (category self)); ("date", JStr (date self));
        ("description", JStr (description self))].

Definition from_dict (data : json) : res t :=
  i <- subscript data "id" ;;
  am <- subscript data "amount" ;;
  ca <- subscript data "category" ;;
  da <- subscript data "date" ;;
  de <- subscript data "description" ;;
  i' <- as_int i ;;
  am' <- as_int am ;;
  ca' <- as_str ca ;;
  da' <- as_str da ;;
  de' <- as_str de ;;
  Ok (mk i' am' ca' da' de').

End FinanceRecord.

(** ** class FinanceManager *)
Module FinanceManager.

Record t : Type := mk {
  file_path : option text;   (* content of the file at [self.file_path] *)
  records : list FinanceRecord.t;
  trace : list event
}.

Definition emit (e : event) (self : t) : t :=
  mk (file_path self) (records self) (trace self ++ [e]).

Definition set_records (l : list FinanceRecord.t) (self : t) : t :=
  mk (file_path self) l (trace self).

(** [load_records] has no [try]: whatever [json.load] raises propagates. *)
Definition load_records (file : option text)
    : res (list FinanceRecord.t) * list event :=
  match file with
  | Some t =>
      (data <- json_load t ;;
       items <- iterate data ;;
       mapM FinanceRecord.from_dict items, [])
  | None => (Ok [], [])
  end.

Definition init (file : option text) : res t :=
  let (r, out) := load_records file in
  l <- r ;; Ok (mk file l out).

Definition save_records (self : t) : t :=
  let t := json_dump (JArr (map FinanceRecord.to_dict (records self))) in
  mk (Some t) (records self) (trace self ++ [Saved t]).

Definition add_record (amount : Z) (category date description : string)
    (self : t) : t :=
  let record_id := max_default (map FinanceRecord.id (records self)) + 1 in
  let new_record :=
    FinanceRecord.mk record_id amount category date description in
  save_records (set_records (records self ++ [new_record]) self).

(** [sum] of the amounts, added from the left starting at 0. *)
Definition calculate_balance (self : t) : Z :=
  fold_left Z.add (map FinanceRecord.amount (records self)) 0.

Definition get_record_by_id (record_id : Z) (self : t)
    : option FinanceRecord.t :=
  find (fun record => FinanceRecord.id record =? record_id) (records self).

(** The comprehension of [generate_report]: the records whose parsed date
    lies between the bounds; the first unparseable date raises. *)
Fixpoint in_range (start end_ : date) (l : list FinanceRecord.t)
    : res (list FinanceRecord.t) :=
  match l with
  | [] => Ok []
  | record :: rest =>
      d <- strptime (FinanceRecord.date record) ;;
      tl <- in_range start end_ rest ;;
      Ok (if (date_leb start d && date_leb d end_)%bool
          then record :: tl else tl)
  end.

(** [sum] of a list of amounts.  The embedding adds the integer values; the
    program adds floats, with the same result as long as the additions are
    exact ([float_exact] below). *)
Definition sum (l : list Z) : Z := fold_right Z.add 0 l.

(** The figures of a report, in the order the program prints them: the line
    labelled total income shows [profit + costs], the line labelled total
    expenses [costs], the balance line [profit]. *)
Record report : Type := mk_report {
  rows : list FinanceRecord.t;
  income : Z;
  costs : Z;
  balance : Z;
  path : string
}.

Definition figures (start_date end_date : string)
    (current_records : list FinanceRecord.t) : report :=
  let file_path := ("report_" ++ start_date ++ "_" ++ end_date ++ ".csv")%string in
  let costs :=
    sum (map FinanceRecord.amount
             (filter (fun i => FinanceRecord.amount i <? 0) current_records)) in
  let profit := sum (map FinanceRecord.amount current_records) in
  mk_report current_records (profit + costs) costs profit file_path.

Definition generate_report (start_date end_date : string) (self : t)
    : res (option report) * t :=
  match
    (start <- strptime start_date ;;
     end_ <- strptime end_date ;;
     in_range start end_ (records self))
  with
  | Raise e => (Raise e, self)
  | Ok [] => (Ok None, emit (Printed MsgNoRecords) self)
  | Ok current_records =>
      let r := figures start_date end_date current_records in
      let dicts := map FinanceRecord.to_dict current_records in
      (Ok (Some r),
       emit (Printed (MsgReport (income r) (costs r) (balance r) (path r)))
         (emit (WroteCsv (path r) dicts)
            (emit (Printed (MsgRecords dicts)) self)))
  end.

Definition row_record (row : csv_row) : res (Z * string * string * string) :=
  am <- getitem row "amount" ;;
  am' <- py_float am ;;
  ca <- getitem row "category" ;;
  da <- getitem row "date" ;;
  de <- getitem row "description" ;;
  Ok (am', ca, da, de).

Fixpoint import_rows (rows : list csv_row) (self : t) : res unit * t :=
  match rows with
  | [] => (Ok tt, self)
  | row :: rest =>
      match row_record row with
      | Ok (am, ca, da, de) => import_rows rest (add_record am ca da de self)
      | Raise e => (Raise e, self)
      end
  end.

Definition import_from_csv (csv : option (list csv_row)) (self : t)
    : res unit * t :=
  match csv with
  | None => (Raise FileNotFoundError, self)
  | Some rows => import_rows rows self
  end.

Definition delete_record (record_id : target) (self : t) : t :=
  match record_id with
  | ALL => save_records (set_records [] self)
  | ById i =>
      save_records
        (set_records
           (filter (fun task => negb (FinanceRecord.id task =? i))
                   (records self))
           self)
  end.

(** The comprehension of [list_records]:
    [record.category.lower() in category]. *)
Fixpoint in_categories (category : list string) (l : list FinanceRecord.t)
    : res (list FinanceRecord.t) :=
  match l with
  | [] => Ok []
  | record :: rest =>
      c <- py_lower (FinanceRecord.category record) ;;
      tl <- in_categories category rest ;;
      Ok (if existsb (String.eqb c) category then record :: tl else tl)
  end.

(** [list_records], the filter being the list of words the menu passes. *)
Definition list_records (category : option (list string)) (self : t)
    : res (list FinanceRecord.t) :=
  match category with
  | Some cats =>
      if negb (Nat.eqb (List.length cats) 0)
      then in_categories cats (records self)
      else Ok (records self)
  | None => Ok (records self)
  end.

(** [export_to_csv]; [onto_storage] tells whether the path given names the
    manager's own backing file, which the export then overwrites with CSV
    text. *)
Definition export_to_csv (csv_path : string) (onto_storage : bool) (self : t)
    : t :=
  mk (if onto_storage then Some Unparseable else file_path self)
     (records self)
     (trace self
      ++ [WroteCsv csv_path (map FinanceRecord.to_dict (records self))]).

End FinanceManager.

(** ** Sessions: sequences of add and delete calls on one manager *)
Section Session.

Context {M P : Type}.

(** [add p m]: the id the add method assigns and the manager after it. *)
Variable add : P -> M -> Z * M.
Variable del : target -> M -> M.
Variable ids : M -> list Z.

Inductive op : Type :=
| Add (p : P)
| Delete (t : target).

(** The ids assigned by the adds of a session, in call order. *)
Fixpoint assigned (ops : list op) (m : M) : list Z :=
  match ops with
  | [] => []
  | Add p :: rest => fst (add p m) :: assigned rest (snd (add p m))
  | Delete t :: rest => assigned rest (del t m)
  end.

(** No delete of the session lowers the highest id held: it removes neither
    the record carrying it nor, with ['ALL'], a collection that has one. *)
Fixpoint keeps_top (ops : list op) (m : M) : bool :=
  match ops with
  | [] => true
  | Add p :: rest => keeps_top rest (snd (add p m))
  | Delete t :: rest =>
      (max_default (ids (del t m)) =? max_default (ids m))
      && keeps_top rest (del t m)
  end.

End Session.

Arguments Add {P} p.
Arguments Delete {P} t.

(** The add methods as session steps. *)
Definition note_add (p : string * string * string) (m : NoteManager.t)
    : Z * NoteManager.t :=
  let '(now, title, content) := p in
  let (note, m') := NoteManager.create_note now title content m in
  (Note.id note, m').

Definition task_add (p : string * string * string * option string)
    (m : TaskManager.t) : Z * TaskManager.t :=
  let '(title, description, priority, due_date) := p in
  let (task, m') := TaskManager.add_task title description priority due_date m in
  (Task.id task, m').

Definition contact_add (p : string * option string * option string)
    (m : ContactManager.t) : Z * ContactManager.t :=
  let '(name, phone, email) := p in
  let (contact, m') := ContactManager.add_contact name phone email m in
  (Contact.id contact, m').

(** [add_record] returns nothing; the id it assigns is its [record_id]. *)
Definition finance_add (p : Z * string * string * string)
    (m : FinanceManager.t) : Z * FinanceManager.t :=
  let '(amount, category, date, description) := p in
  (max_default (map FinanceRecord.id (FinanceManager.records m)) + 1,
   FinanceManager.add_record amount category date description m).

Definition note_ids (m : NoteManager.t) : list Z :=
  map Note.id (NoteManager.notes m).
Definition task_ids (m : TaskManager.t) : list Z :=
  map Task.id (TaskManager.tasks m).
Definition contact_ids (m : ContactManager.t) : list Z :=
  map Contact.id (ContactManager.contacts m).
Definition finance_ids (m : FinanceManager.t) : list Z :=
  map FinanceRecord.id (FinanceManager.records m).

(** ** The specification's reading of the filters and of the search *)

(** A task satisfies every supplied filter: exact match on the done flag,
    membership of the priority, due date set and not after the bound. *)
Definition meets_filters (status : option bool)
    (priorities : option (list string)) (due_before : option string)
    (task : Task.t) : bool :=
  (match status with
   | Some b => Bool.eqb (Task.done task) b
   | None => true
   end)
  && (match priorities with
      | Some ps => existsb (String.eqb (Task.priority task)) ps
      | None => true
      end)
  && (match due_before with
      | Some d => TaskManager.due_by d task
      | None => true
      end).

Definition list_tasks_spec (status : option bool)
    (priorities : option (list string)) (due_before : option string)
    (l : list Task.t) : list Task.t :=
  filter (meets_filters status priorities due_before) l.

(** [q] is a case-insensitive substring of [s]. *)
Definition ci_substring (q s : string) : bool := str_in (lower q) (lower s).

Definition search_spec (query : string) (l : list Contact.t) : list Contact.t :=
  filter (fun c =>
            (ci_substring query (Contact.name c)
             || ci_substring query (ContactManager.or_empty (Contact.phone c)))%bool)
         l.

(** The notes a CSV import appends when the first free id is [k]: one per
    row, numbered upwards from [k]. *)
Fixpoint minted (now : string) (k : Z) (rows : list (string * string * string))
    : list Note.t :=
  match rows with
  | [] => []
  | (ti, c, ts) :: rest =>
      Note.init now k ti c (Some ts) :: minted now (k + 1) rest
  end.

(** The notes the cells of rows make, written out field by field: one per
    row, numbered upwards from [k], title and content as read, the timestamp
    as read unless it is empty, when the time of the import stands in. *)
Fixpoint row_notes (now : string) (k : Z) (rows : list (string * string * string))
    : list Note.t :=
  match rows with
  | [] => []
  | (ti, c, ts) :: rest =>
      Note.mk k ti c (if truthy ts then ts else now)
      :: row_notes now (k + 1) rest
  end.

(** The row has the title, content and timestamp cells [p]. *)
Definition note_columns (row : csv_row) (p : string * string * string) : Prop :=
  lookup "title" row = Some (fst (fst p))
  /\ lookup "content" row = Some (snd (fst p))
  /\ lookup "timestamp" row = Some (snd p).

(** The contact has the fields of the row: the id its id cell spells, the
    name cell, and the phone and email cells where the row has them. *)
Definition contact_columns (row : csv_row) (c : Contact.t) : Prop :=
  (exists i, lookup "id" row = Some i /\ py_int i = Ok (Contact.id c))
  /\ lookup "name" row = Some (Contact.name c)
  /\ Contact.phone c = lookup "phone" row
  /\ Contact.email c = lookup "email" row.

(** The elements of [xs] whose id is neither in [seen] nor carried by an
    earlier element of [xs]: for each new id the first element carrying it,
    in the order of [xs]. *)
Fixpoint first_new {A : Type} (rid : A -> Z) (seen : list Z) (xs : list A)
    : list A :=
  match xs with
  | [] => []
  | x :: rest =>
      if existsb (Z.eqb (rid x)) seen then first_new rid seen rest
      else x :: first_new rid (rid x :: seen) rest
  end.

(** Every row has exactly the columns of the header, as have the rows the
    reader yields for the lines of one file that are as wide as its
    header. *)
Definition same_columns (header : list string) (rows : list csv_row) : Prop :=
  Forall (fun row => map fst row = header) rows.

(** The first of the columns the note import reads, in the order it reads
    them, that the header lacks. *)
Definition missing_column (header : list string) : option string :=
  find (fun k => negb (existsb (String.eqb k) header))
       ["title"; "content"; "timestamp"].

(** What a delete call leaves of a collection. *)
Definition remaining {A : Type} (rid : A -> Z) (t : target) (l : list A)
    : list A :=
  match t with
  | ALL => []
  | ById i => filter (fun x => negb (rid x =? i)) l
  end.

(** ** Sample data *)

Definition sample_note : Note.t := Note.mk 1 "Shopping" "milk" "04-03-2024 09:30:00".
Definition sample_task : Task.t :=
  Task.mk 1 "Pay rent" "" true "High" (Some "01-03-2024").
Definition sample_contact : Contact.t := Contact.mk 1 "Bob" None (Some "bob@example.org").
Definition sample_record : FinanceRecord.t :=
  FinanceRecord.mk 1 (-400) "Food" "15-01-2024" "groceries".

(** The finance records of the report scenario. *)
Definition scenario : list FinanceRecord.t :=
  [FinanceRecord.mk 1 1000 "Salary" "01-01-2024" "";
   FinanceRecord.mk 2 (-400) "Food" "15-01-2024" "";
   FinanceRecord.mk 3 200 "Gift" "01-02-2024" ""].

(** A filter counts as supplied to [list_tasks] when it is truthy: the status
    [True], a non-empty priority collection, a non-empty date string. *)
Definition supplied_truthy (status : option bool)
    (priorities : option (list string)) (due_before : option string) : Prop :=
  status <> Some false /\ priorities <> Some [] /\ due_before <> Some "".

(** The delete call finds something to remove: it is ['ALL'], or a record of
    the collection carries the id. *)
Definition hits {A : Type} (rid : A -> Z) (t : target) (l : list A) : Prop :=
  match t with
  | ALL => True
  | ById i => exists x, In x l /\ rid x = i
  end.

(** Session steps used in the examples. *)
Definition a_note : string * string * string :=
  ("05-03-2024 10:00:00", "Shopping", "milk").
Definition a_task : string * string * string * option string :=
  ("Pay rent", "", "High", Some "01-03-2024").
Definition a_contact : string * option string * option string :=
  ("Bob", None, None).
Definition a_record : Z * string * string * string :=
  (1000, "Salary", "01-01-2024", "").

(** A contact whose stored phone has upper-case letters, and one whose phone
    has none. *)
Definition lettered_contact : Contact.t :=
  Contact.mk 2 "Taxi" (Some "8-800-CALL") None.
Definition plain_contact : Contact.t :=
  Contact.mk 3 "Anna" (Some "+7 912 345-67-89") None.

(** CSV files used in the examples. *)
Definition contact_rows : list csv_row :=
  [[("id", "1"); ("name", "Robert"); ("phone", ""); ("email", "")];
   [("id", "4"); ("name", "Dana"); ("phone", "123-45-67"); ("email", "")];
   [("id", "4"); ("name", "Dan"); ("phone", ""); ("email", "")]].

Definition note_rows : list csv_row :=
  [[("id", "1"); ("title", "Shopping"); ("content", "milk");
    ("timestamp", "04-03-2024 09:30:00")];
   [("id", "2"); ("title", "Call"); ("content", "");
    ("timestamp", "04-03-2024 09:31:00")]].

(** ** Invariants *)

(** The backing file holds the serialisation of the in-memory collection. *)
Definition note_synced (m : NoteManager.t) : Prop :=
  NoteManager.storage_file m
  = Some (json_dump (JArr (map Note.to_dict (NoteManager.notes m)))).

Definition task_synced (m : TaskManager.t) : Prop :=
  TaskManager.storage_file m
  = Some (json_dump (JArr (map Task.to_dict (TaskManager.tasks m)))).

Definition contact_synced (m : ContactManager.t) : Prop :=
  ContactManager.storage_file m
  = Some (json_dump (JArr (map Contact.to_dict (ContactManager.contacts m)))).

Definition finance_synced (m : FinanceManager.t) : Prop :=
  FinanceManager.file_path m
  = Some (json_dump
            (JArr (map FinanceRecord.to_dict (FinanceManager.records m)))).

(** The loop shared by the task and contact imports: convert the row, append
    the record unless a record with its id is already there, stop at the
    first row that does not convert. *)
Fixpoint merge_rows {A : Type} (rid : A -> Z) (of_row : csv_row -> res A)
    (rows : list csv_row) (l : list A) : res unit * list A :=
  match rows with
  | [] => (Ok tt, l)
  | row :: rest =>
      match of_row row with
      | Ok x =>
          merge_rows rid of_row rest
            (if existsb (fun y => rid y =? rid x) l then l else l ++ [x])
      | Raise e => (Raise e, l)
      end
  end.

(** ** Filters as [list_tasks] heeds them *)

(** A falsy filter value is the same as no filter. *)
Definition heeded_status (status : option bool) : option bool :=
  match status with
  | Some true => Some true
  | _ => None
  end.

Definition heeded_priorities (priorities : option (list string))
    : option (list string) :=
  match priorities with
  | Some (p :: ps) => Some (p :: ps)
  | _ => None
  end.

Definition heeded_due (due_before : option string) : option string :=
  match due_before with
  | Some d => if truthy d then Some d else None
  | None => None
  end.

(** ** Finance figures *)

(** Sum of the amounts that are not expenses. *)
Definition gains (l : list FinanceRecord.t) : Z :=
  FinanceManager.sum
    (map FinanceRecord.amount
         (filter (fun i => negb (FinanceRecord.amount i <? 0)) l)).


(** The records a finance import books when the first free id is [k]. *)
Fixpoint booked (k : Z) (rows : list (Z * string * string * string))
    : list FinanceRecord.t :=
  match rows with
  | [] => []
  | (am, ca, da, de) :: rest =>
      FinanceRecord.mk k am ca da de :: booked (k + 1) rest
  end.

(** More sample data. *)
Definition task_rows : list csv_row :=
  [[("id", "1"); ("title", "Rent"); ("description", ""); ("done", "False");
    ("priority", "High"); ("due_date", "")];
   [("id", "2"); ("title", "Buy milk"); ("description", ""); ("done", "True");
    ("priority", "Low"); ("due_date", "15-03-2024")]].

(** The finance file as the program exports it, amounts printed as floats. *)
Definition exported_finance_rows : list csv_row :=
  [[("id", "7"); ("amount", "1000.0"); ("category", "Salary");
    ("date", "01-01-2024"); ("description", "")];
   [("id", "8"); ("amount", "-400.0"); ("category", "Food");
    ("date", "15-01-2024"); ("description", "")]].

(** A note file whose header has no timestamp column. *)
Definition untimed_note_rows : list csv_row :=
  [[("title", "Shopping"); ("content", "milk")];
   [("title", "Call"); ("content", "")]].

(** Amounts on which the float arithmetic of the program is exact: integers
    whose magnitudes add up to at most 2^52, so that every sum the program
    forms of them, and the sum of two such sums, is an integer of magnitude
    at most 2^53. *)
Definition float_exact (amounts : list Z) : Prop :=
  FinanceManager.sum (map Z.abs amounts) <= 4503599627370496.

Definition april_task : Task.t :=
  Task.mk 2 "Buy milk" "" false "Low" (Some "05-04-2024").

(** ** Reading back an exported CSV file *)

(** [str(n)] for an integer: decimal digits, most significant first, with a
    minus sign for negative numbers.  [fuel] bounds the number of digits. *)
Fixpoint digits_of (fuel : nat) (n : Z) (acc : string) : string :=
  match fuel with
  | O => acc
  | S f =>
      let acc' := String (ascii_of_N (Z.to_N (48 + n mod 10))) acc in
      if n <? 10 then acc' else digits_of f (n / 10) acc'
  end.

Definition py_str_int (n : Z) : string :=
  if n <? 0
  then String "-" (digits_of (S (Z.to_nat (Z.log2 (- n)))) (- n) "")
  else digits_of (S (Z.to_nat (Z.log2 n))) n "".

(** Universal newlines, as applied by [open(path, 'r')]: a carriage return,
    with or without a following line feed, is read as a line feed. *)
Fixpoint universal_newlines (s : string) : string :=
  match s with
  | EmptyString => EmptyString
  | String "013" (String "010" s') => String "010" (universal_newlines s')
  | String "013" s' => String "010" (universal_newlines s')
  | String c s' => String c (universal_newlines s')
  end.

(** The reader's default field size limit. *)
Definition field_size_limit : N := 131072.

(** Text the [csv] module takes through a file unharmed: no longer than the
    field size limit, above which the reader raises, and free of NUL. *)
Definition csv_safe (s : string) : bool :=
  (N.leb (N.of_nat (String.length s)) field_size_limit
   && all_chars (fun c => negb (c =? "000")%char) s)%bool.

(** The cell [csv.DictReader] yields for a value [csv.DictWriter] wrote.
    [None] is written as the empty string, a [bool] and an [int] through
    [str] (the numbers of the note, task and contact exports are ids).  The
    quoting of the writer is undone by the reader, the text of the cell then
    being subject to universal newlines.  Text that is not [csv_safe] is
    left outside. *)
Definition cell (v : json) : res string :=
  match v with
  | JNull => Ok ""
  | JBool true => Ok "True"
  | JBool false => Ok "False"
  | JNum n => Ok (py_str_int n)
  | JStr s => if csv_safe s then Ok (universal_newlines s) else Raise OutsideModel
  | JArr _ | JObj _ => Raise OutsideModel
  end.

Fixpoint cells_of (fields : list (string * json)) : res csv_row :=
  match fields with
  | [] => Ok []
  | (k, v) :: rest => c <- cell v ;; cs <- cells_of rest ;; Ok ((k, c) :: cs)
  end.

(** The rows read back from a file to which the dicts were exported; the
    field names of every export are the keys of [to_dict], in order. *)
Definition read_back (dicts : list json) : res (list csv_row) :=
  mapM (fun d => match d with
                 | JObj fields => cells_of fields
                 | _ => Raise OutsideModel
                 end) dicts.

(** A task, a contact and the cells of a note after export and re-import:
    text goes through universal newlines and an absent optional field comes
    back as the empty string. *)
Definition task_reread (x : Task.t) : Task.t :=
  Task.mk (Task.id x) (universal_newlines (Task.title x))
    (universal_newlines (Task.description x)) (Task.done x)
    (universal_newlines (Task.priority x))
    (Some (universal_newlines (ContactManager.or_empty (Task.due_date x)))).

Definition contact_reread (c : Contact.t) : Contact.t :=
  Contact.mk (Contact.id c) (universal_newlines (Contact.name c))
    (Some (universal_newlines (ContactManager.or_empty (Contact.phone c))))
    (Some (universal_newlines (ContactManager.or_empty (Contact.email c)))).

Definition note_reread (n : Note.t) : string * string * string :=
  (universal_newlines (Note.title n), universal_newlines (Note.content n),
   universal_newlines (Note.timestamp n)).

(** Text fields the [csv] module takes through a file unharmed. *)
Definition task_csv_safe (x : Task.t) : bool :=
  (csv_safe (Task.title x) && csv_safe (Task.description x)
   && csv_safe (Task.priority x)
   && csv_safe (ContactManager.or_empty (Task.due_date x)))%bool.

Definition contact_csv_safe (c : Contact.t) : bool :=
  (csv_safe (Contact.name c)
   && csv_safe (ContactManager.or_empty (Contact.phone c))
   && csv_safe (ContactManager.or_empty (Contact.email c)))%bool.

Definition note_csv_safe (n : Note.t) : bool :=
  (csv_safe (Note.title n) && csv_safe (Note.content n)
   && csv_safe (Note.timestamp n))%bool.

(** ** The calculator's guard *)

Definition is_operator (c : ascii) : bool :=
  ((c =? "+") || (c =? "-") || (c =? "/") || (c =? "*"))%char.

(** [for operator in '+-/*': x = x.replace(operator, ' ')]. *)
Fixpoint blank_operators (x : string) : string :=
  match x with
  | EmptyString => EmptyString
  | String c x' =>
      String (if is_operator c then " "%char else c) (blank_operators x')
  end.

(** [[len(i) for i in x.split()]]: the lengths of the maximal runs of
    characters that are not white space; [cur] is the length of the run
    being read. *)
Fixpoint word_lengths (cur : nat) (x : string) : list nat :=
  match x with
  | EmptyString => if Nat.eqb cur 0 then [] else [cur]
  | String c x' =>
      if is_space c
      then (if Nat.eqb cur 0 then word_lengths 0 x'
            else cur :: word_lengths 0 x')
      else word_lengths (S cur) x'
  end.

(** The three messages of [check_values]; it returns [True] with each. *)
Inductive refusal : Type :=
| PowerOperator
| NumberTooLong
| TooManyNumbers.

(** [check_values]: [Ok (Some r)] is [True] after printing the message of
    [r], [Ok None] is [False]; [max] of an empty list raises [ValueError].
    Lengths are counted in characters, so a string with non-ASCII bytes is
    left outside the embedding once the ["**"] test has passed. *)
Definition check_values (x : string) : res (option refusal) :=
  if str_in "**" x then Ok (Some PowerOperator)
  else if negb (all_chars is_ascii x) then Raise OutsideModel
  else
    let len_of_numbers := word_lengths 0 (blank_operators x) in
    match len_of_numbers with
    | [] => Raise ValueError
    | _ :: _ =>
        if Nat.ltb 9 (list_max len_of_numbers) then Ok (Some NumberTooLong)
        else if Nat.ltb 5 (List.length len_of_numbers)
             then Ok (Some TooManyNumbers)
             else Ok None
    end.

(** One round of the loop of [calculator] on the line read, up to the call
    of [eval], which is not embedded. *)
Inductive calc_step : Type :=
| Leave
| UnknownSymbol
| Refused (r : refusal)
| Evaluate (s : string).

Definition calculator_step (s : string) : res calc_step :=
  if negb (truthy s) then Ok Leave
  else if negb (all_chars (fun i => (is_digit i || is_operator i)%bool) s)
       then Ok UnknownSymbol
       else match check_values s with
            | Ok (Some r) => Ok (Refused r)
            | Ok None => Ok (Evaluate s)
            | Raise e => Raise e
            end.

(** [n] minus signs in a row, and as many spaces. *)
Fixpoint dashes (n : nat) : string :=
  match n with
  | O => EmptyString
  | S k => String "-" (dashes k)
  end.

(** ** Regular expressions of the validators *)

(** The strings of a pattern. *)
Inductive lang : re -> string -> Prop :=
| LEps : lang Eps EmptyString
| LCls (p : ascii -> bool) (c : ascii) :
    p c = true -> lang (Cls p) (String c EmptyString)
| LSeq (a b : re) (s t : string) :
    lang a s -> lang b t -> lang (Seq a b) (s ++ t)%string
| LAltL (a b : re) (s : string) : lang a s -> lang (Alt a b) s
| LAltR (a b : re) (s : string) : lang b s -> lang (Alt a b) s
| LStarNil (a : re) : lang (Star a) EmptyString
| LStarApp (a : re) (s t : string) :
    lang a s -> lang (Star a) t -> lang (Star a) (s ++ t)%string.

(** [s] without its final line feed, when it ends in one. *)
Fixpoint chomp (s : string) : option string :=
  match s with
  | EmptyString => None
  | String c EmptyString => if (c =? "010")%char then Some EmptyString else None
  | String c s' => option_map (String c) (chomp s')
  end.

(** [bool(re.match('^' + r + '$', s))]: the pattern must cover the string,
    or all of it but a final line feed, before which [$] also matches. *)
Definition re_match (r : re) (s : string) : bool :=
  (matches r s
   || match chomp s with
      | Some w => matches r w
      | None => false
      end)%bool.

Definition is_letter (c : ascii) : bool :=
  let n := N_of_ascii c in
  ((N.leb 65 n && N.leb n 90) || (N.leb 97 n && N.leb n 122))%bool.

(** [[a-zA-Z0-9._%+-]], [[a-zA-Z0-9.-]] and [[\s-]]. *)
Definition email_local_char (c : ascii) : bool :=
  (is_letter c || is_digit c || (c =? ".")%char || (c =? "_")%char
   || (c =? "%")%char || (c =? "+")%char || (c =? "-")%char)%bool.

Definition email_domain_char (c : ascii) : bool :=
  (is_letter c || is_digit c || (c =? ".")%char || (c =? "-")%char)%bool.

Definition separator (c : ascii) : bool := (is_space c || (c =? "-")%char)%bool.

(** [^[a-zA-Z0-9._%+-]+@[a-zA-Z0-9.-]+\.[a-zA-Z]{2,}$] *)
Definition email_regex : re :=
  Seq (plus (Cls email_local_char))
      (Seq (lit "@")
           (Seq (plus (Cls email_domain_char))
                (Seq (lit ".")
                     (Seq (Cls is_letter) (plus (Cls is_letter)))))).

Definition validate_email (email : string) : bool := re_match email_regex email.

Definition digits2 : re := Seq (Cls is_digit) (Cls is_digit).
Definition digits3 : re := Seq (Cls is_digit) digits2.

(** [^(\+7|8)?[\s-]?(\(?\d{3}\)?[\s-]?)?\d{3}[\s-]?\d{2}[\s-]?\d{2}$] *)
Definition phone_regex : re :=
  Seq (opt (Alt (Seq (lit "+") (lit "7")) (lit "8")))
      (Seq (opt (Cls separator))
           (Seq (opt (Seq (opt (lit "("))
                          (Seq digits3
                               (Seq (opt (lit ")")) (opt (Cls separator))))))
                (Seq digits3
                     (Seq (opt (Cls separator))
                          (Seq digits2
                               (Seq (opt (Cls separator)) digits2)))))).

(** [validate_phone].  [\d] and [\s] also match digits and spaces beyond
    ASCII, which the byte strings of the embedding cannot tell apart: a
    phone with a non-ASCII byte is left outside. *)
Definition validate_phone (phone : string) : res bool :=
  if all_chars is_ascii phone then Ok (re_match phone_regex phone)
  else Raise OutsideModel.

Fixpoint count_chars (p : ascii -> bool) (s : string) : nat :=
  match s with
  | EmptyString => O
  | String c s' => ((if p c then 1 else 0) + count_chars p s')%nat
  end.

(** The characters a phone number may consist of. *)
Definition phone_char (c : ascii) : bool :=
  (is_digit c || separator c || (c =? "+")%char || (c =? "(")%char
   || (c =? ")")%char)%bool.

(** The strings [email_regex] covers: a non-empty local part, ["@"], a
    non-empty domain part, ["."], at least two letters. *)
Definition email_shape (s : string) : Prop :=
  exists loc dom tld,
    s = (loc ++ "@" ++ dom ++ "." ++ tld)%string
    /\ loc <> EmptyString /\ all_chars email_local_char loc = true
    /\ dom <> EmptyString /\ all_chars email_domain_char dom = true
    /\ (2 <= String.length tld)%nat /\ all_chars is_letter tld = true.

(** Every character, for deciding facts about a character class. *)
Definition all_ascii : list ascii := map ascii_of_nat (seq 0 256).

(** Every class of the pattern lies within [q]. *)
Fixpoint classes_within (q : ascii -> bool) (r : re) : bool :=
  match r with
  | Void | Eps => true
  | Cls p => forallb (fun c => implb (p c) (q c)) all_ascii
  | Seq a b | Alt a b => (classes_within q a && classes_within q b)%bool
  | Star a => classes_within q a
  end.

Fixpoint star_free (r : re) : bool :=
  match r with
  | Void | Eps | Cls _ => true
  | Seq a b | Alt a b => (star_free a && star_free b)%bool
  | Star _ => false
  end.

(** The numbers of digits a string of a pattern without [*] can have. *)
Fixpoint digit_counts (r : re) : list nat :=
  match r with
  | Void => []
  | Eps => [O]
  | Cls p =>
      (if existsb (fun c => (p c && negb (is_digit c))%bool) all_ascii
       then [O] else [])
      ++ (if existsb (fun c => (p c && is_digit c)%bool) all_ascii
          then [1%nat] else [])
  | Seq a b =>
      nodup Nat.eq_dec
        (flat_map (fun i => map (Nat.add i) (digit_counts b)) (digit_counts a))
  | Alt a b => nodup Nat.eq_dec (digit_counts a ++ digit_counts b)
  | Star _ => []
  end.

(** ** [list_tasks] as the task menu calls it *)

(** [task.due_date and task.due_date <= filter_due_date] over the tasks, the
    filter being a [datetime]: a task without due date is left out, and the
    first task with one raises [TypeError], a [str] not being comparable
    with a [datetime]. *)
Fixpoint due_by_datetime (l : list Task.t) : res (list Task.t) :=
  match l with
  | [] => Ok []
  | task :: rest =>
      if truthy_opt (Task.due_date task) then Raise TypeError
      else due_by_datetime rest
  end.

(** [list_tasks] at the argument types of [task_app]: the status is the
    string read from the keyboard (["0"], ["1"] or empty), the priorities a
    list of words, the date the [datetime] parsed from the input, [None]
    standing for the empty input.  A [bool] never equals a [str], so
    [task.done == filter_status] is [False] for every task. *)
Definition list_tasks_from_menu (filter_priority : list string)
    (filter_status : string) (filter_due_date : option date)
    (self : TaskManager.t) : res (list Task.t) :=
  let filtered_tasks := TaskManager.tasks self in
  let filtered_tasks :=
    if truthy filter_status
    then filter (fun task => false) filtered_tasks
    else filtered_tasks in
  let filtered_tasks :=
    if negb (Nat.eqb (List.length filter_priority) 0)
    then filter (fun task =>
                   existsb (String.eqb (Task.priority task)) filter_priority)
                filtered_tasks
    else filtered_tasks in
  match filter_due_date with
  | Some _ => due_by_datetime filtered_tasks
  | None => Ok filtered_tasks
  end.

(** * Properties *)

(** ** Generic facts *)

Lemma fold_max_ge (l : list Z) (a : Z) : a <= fold_left Z.max l a.
Proof.
  revert a; induction l as [|x l IH]; intros a; simpl; [lia|].
  specialize (IH (Z.max a x)); lia.
Qed.

Lemma fold_max_in (l : list Z) (a x : Z) : In x l -> x <= fold_left Z.max l a.
Proof.
  revert a; induction l as [|y l IH]; intros a [].
  - subst; simpl. pose proof (fold_max_ge l (Z.max a x)); lia.
  - simpl; auto.
Qed.

Lemma max_default_ge (l : list Z) (x : Z) : In x l -> x <= max_default l.
Proof.
  destruct l as [|a l]; intros []; simpl.
  - subst; apply fold_max_ge.
  - now apply fold_max_in.
Qed.

Lemma fold_max_snoc (l : list Z) (a x : Z) :
  fold_left Z.max (l ++ [x]) a = Z.max (fold_left Z.max l a) x.
Proof. now rewrite fold_left_app. Qed.

(** Appending the next id raises the maximum to it. *)
Lemma max_default_next (l : list Z) :
  max_default (l ++ [max_default l + 1]) = max_default l + 1.
Proof.
  destruct l as [|a l]; simpl; [reflexivity|].
  rewrite fold_max_snoc; lia.
Qed.

Lemma saves_app (tr tr' : list event) : saves (tr ++ tr') = (saves tr + saves tr')%nat.
Proof.
  induction tr as [|e tr IH]; simpl; [reflexivity|].
  destruct e; simpl; now rewrite IH.
Qed.

Lemma filter_absent {A : Type} (rid : A -> Z) (i : Z) (l : list A) :
  (forall x, In x l -> rid x <> i) ->
  filter (fun x => negb (rid x =? i)) l = l.
Proof.
  induction l as [|a l IH]; intros H; simpl; [reflexivity|].
  destruct (Z.eqb_spec (rid a) i) as [E|E]; simpl.
  - exfalso; apply (H a); simpl; auto.
  - f_equal; apply IH; intros x Hx; apply H; simpl; auto.
Qed.

Lemma truthy_true (s : string) : s <> "" -> truthy s = true.
Proof.
  intros H; unfold truthy. destruct (String.eqb_spec s ""); [contradiction|reflexivity].
Qed.

(** ** Serialisation round trips *)

Lemma mapM_map_id {A : Type} (enc : A -> json) (dec : json -> res A)
    (good : A -> Prop) (l : list A) :
  (forall a, good a -> dec (enc a) = Ok a) ->
  Forall good l ->
  mapM dec (map enc l) = Ok l.
Proof.
  intros Hrt Hall; induction Hall as [|a l Ha _ IH]; simpl; [reflexivity|].
  now rewrite (Hrt a Ha), IH.
Qed.

Lemma note_from_to_dict (now : string) (n : Note.t) :
  Note.stamped n -> Note.from_dict now (Note.to_dict n) = Ok n.
Proof.
  destruct n as [i ti c ts]; unfold Note.stamped; simpl; intros Hts.
  cbn; unfold Note.init, truthy_opt, truthy.
  destruct (String.eqb_spec ts ""); [contradiction|reflexivity].
Qed.

Lemma task_from_to_dict (x : Task.t) : Task.from_dict (Task.to_dict x) = Ok x.
Proof. destruct x as [i ti de dn pr [du|]]; reflexivity. Qed.

Lemma contact_from_to_dict (x : Contact.t) :
  Contact.from_dict (Contact.to_dict x) = Ok x.
Proof. destruct x as [i na [ph|] [em|]]; reflexivity. Qed.

Lemma finance_from_to_dict (x : FinanceRecord.t) :
  FinanceRecord.from_dict (FinanceRecord.to_dict x) = Ok x.
Proof. destruct x; reflexivity. Qed.

Lemma Forall_trivial {A : Type} (l : list A) : Forall (fun _ => True) l.
Proof. induction l; constructor; auto. Qed.

(** The constructor and [update] establish the timestamp invariant that the
    round trip of notes relies on. *)
Lemma note_init_stamped (now : string) (i : Z) (ti c : string)
    (ts : option string) :
  now <> "" -> Note.stamped (Note.init now i ti c ts).
Proof.
  intros Hnow; unfold Note.stamped, Note.init; simpl.
  destruct ts as [s|]; simpl; [|exact Hnow].
  unfold truthy; destruct (String.eqb_spec s ""); simpl; auto.
Qed.

Lemma note_update_stamped (now : string) (ti c : option string) (n : Note.t) :
  now <> "" -> Note.stamped (Note.update now ti c n).
Proof. intros Hnow; exact Hnow. Qed.

(** C1. Saving a collection and constructing a fresh manager over the same
    backing file gives back the saved list: same length, same order, every
    field equal, for notes, tasks, contacts and finance records.  Notes are
    taken as the program builds them, with a non-empty timestamp. *)
Theorem save_then_load_roundtrip
    (now : string) (nm : NoteManager.t) (tm : TaskManager.t)
    (cm : ContactManager.t) (fm : FinanceManager.t)
    (Hstamped : Forall Note.stamped (NoteManager.notes nm)) :
  (exists nm',
      NoteManager.init now (NoteManager.storage_file (NoteManager.save_notes nm))
      = Ok nm'
      /\ NoteManager.notes nm' = NoteManager.notes nm)
  /\ (exists tm',
        TaskManager.init (TaskManager.storage_file (TaskManager.save_tasks tm))
        = Ok tm'
        /\ TaskManager.tasks tm' = TaskManager.tasks tm)
  /\ (exists cm',
        ContactManager.init
          (ContactManager.storage_file (ContactManager.save_contacts cm))
        = Ok cm'
        /\ ContactManager.contacts cm' = ContactManager.contacts cm)
  /\ (exists fm',
        FinanceManager.init
          (FinanceManager.file_path (FinanceManager.save_records fm))
        = Ok fm'
        /\ FinanceManager.records fm' = FinanceManager.records fm).
Proof.
  repeat split.
  - unfold NoteManager.init; simpl.
    rewrite (mapM_map_id Note.to_dict (Note.from_dict now) Note.stamped)
      by (auto using note_from_to_dict).
    simpl; eexists; split; reflexivity.
  - unfold TaskManager.init; simpl.
    rewrite (mapM_map_id Task.to_dict Task.from_dict (fun _ => True))
      by (auto using task_from_to_dict, Forall_trivial).
    simpl; eexists; split; reflexivity.
  - unfold ContactManager.init; simpl.
    rewrite (mapM_map_id Contact.to_dict Contact.from_dict (fun _ => True))
      by (auto using contact_from_to_dict, Forall_trivial).
    simpl; eexists; split; reflexivity.
  - unfold FinanceManager.init; simpl.
    rewrite (mapM_map_id FinanceRecord.to_dict FinanceRecord.from_dict
               (fun _ => True))
      by (auto using finance_from_to_dict, Forall_trivial).
    simpl; eexists; split; reflexivity.
Qed.

Lemma save_then_load_roundtrip_witness :
  Forall Note.stamped [sample_note]
  /\ exists nm',
       NoteManager.init "05-03-2024 10:00:00"
         (NoteManager.storage_file
            (NoteManager.save_notes (NoteManager.mk None [sample_note] [])))
       = Ok nm'
       /\ NoteManager.notes nm' = [sample_note].
Proof.
  assert (H : Forall Note.stamped [sample_note])
    by (repeat constructor; discriminate).
  split; [exact H|].
  exact (proj1 (save_then_load_roundtrip "05-03-2024 10:00:00"
                  (NoteManager.mk None [sample_note] [])
                  (TaskManager.mk None [sample_task] [])
                  (ContactManager.mk None [sample_contact] [])
                  (FinanceManager.mk None [sample_record] []) H)).
Defined.

(** ** Task filtering *)

Lemma filter_filter {A : Type} (p q : A -> bool) (l : list A) :
  filter q (filter p l) = filter (fun x => p x && q x) l.
Proof.
  induction l as [|a l IH]; simpl; [reflexivity|].
  destruct (p a); simpl; [destruct (q a)|]; now rewrite IH.
Qed.

Lemma filter_all {A : Type} (l : list A) : filter (fun _ => true) l = l.
Proof. induction l as [|a l IH]; simpl; [reflexivity|now rewrite IH]. Qed.

(** With truthy filters [list_tasks] returns exactly the tasks that satisfy
    all of them, in the order of the collection; with none it returns the
    whole collection. *)
Lemma list_tasks_meets_filters (status : option bool)
    (priorities : option (list string)) (due_before : option string)
    (m : TaskManager.t) :
  supplied_truthy status priorities due_before ->
  TaskManager.list_tasks status priorities due_before m
  = list_tasks_spec status priorities due_before (TaskManager.tasks m).
Proof.
  intros (Hs & Hp & Hd).
  unfold TaskManager.list_tasks, list_tasks_spec.
  assert (E : forall l,
             (match due_before with
              | Some d => if truthy d then filter (TaskManager.due_by d) l else l
              | None => l
              end)
             = filter (fun task => match due_before with
                                   | Some d => TaskManager.due_by d task
                                   | None => true
                                   end) l).
  { intros l; destruct due_before as [d|]; [|now rewrite filter_all].
    destruct d as [|c d]; [congruence|reflexivity]. }
  rewrite E; clear E.
  assert (E : forall l,
             (match priorities with
              | Some ps =>
                  if negb (Nat.eqb (List.length ps) 0)
                  then filter (fun task =>
                                 existsb (String.eqb (Task.priority task)) ps) l
                  else l
              | None => l
              end)
             = filter (fun task => match priorities with
                                   | Some ps =>
                                       existsb (String.eqb (Task.priority task)) ps
                                   | None => true
                                   end) l).
  { intros l; destruct priorities as [ps|]; [|now rewrite filter_all].
    destruct ps as [|p ps]; [congruence|reflexivity]. }
  rewrite E; clear E.
  assert (E : forall l,
             (match status with
              | Some b =>
                  if b then filter (fun task => Bool.eqb (Task.done task) b) l
                  else l
              | None => l
              end)
             = filter (fun task => match status with
                                   | Some b => Bool.eqb (Task.done task) b
                                   | None => true
                                   end) l).
  { intros l; destruct status as [[|]|]; [reflexivity|congruence|].
    now rewrite filter_all. }
  rewrite E; clear E.
  rewrite !filter_filter. apply filter_ext; intros task.
  unfold meets_filters; now rewrite andb_assoc.
Qed.

(** No filter at all gives the full list in its current order. *)
Lemma list_tasks_no_filter (m : TaskManager.t) :
  TaskManager.list_tasks None None None m = TaskManager.tasks m.
Proof. reflexivity. Qed.

(** C2. [list_tasks] does not return exactly the tasks matching the supplied
    status: asked for the tasks whose done flag is [False], the guard
    [if filter_status:] skips the filter and the completed task comes back,
    where an exact match on the flag selects nothing. *)
Theorem list_tasks_status_false_skipped :
  TaskManager.list_tasks (Some false) None None
    (TaskManager.mk None [sample_task] [])
  = [sample_task]
  /\ list_tasks_spec (Some false) None None [sample_task] = [].
Proof. split; reflexivity. Qed.

(** ** Finance report *)

(** C3. On the three records of the scenario the January report selects the
    first two, with expenses -400 and balance 600; the line labelled total
    income shows [profit + costs] = 200, not 1000. *)
Theorem generate_report_scenario (file : option text) (tr : list event) :
  fst (FinanceManager.generate_report "01-01-2024" "31-01-2024"
         (FinanceManager.mk file scenario tr))
  = Ok (Some (FinanceManager.mk_report
                [FinanceRecord.mk 1 1000 "Salary" "01-01-2024" "";
                 FinanceRecord.mk 2 (-400) "Food" "15-01-2024" ""]
                200 (-400) 600 "report_01-01-2024_31-01-2024.csv")).
Proof. reflexivity. Qed.

(** ** Loading a corrupt backing file *)

(** C5. Over a backing file that is not valid JSON the note, task and contact
    managers start with an empty collection after printing the diagnostic;
    [FinanceManager.load_records] has no handler and raises
    [JSONDecodeError], so no finance manager is constructed. *)
Theorem load_unparseable_file (now : string) :
  NoteManager.init now (Some Unparseable)
  = Ok (NoteManager.mk (Some Unparseable) [] [Printed MsgJsonError])
  /\ TaskManager.init (Some Unparseable)
     = Ok (TaskManager.mk (Some Unparseable) [] [Printed MsgJsonError])
  /\ ContactManager.init (Some Unparseable)
     = Ok (ContactManager.mk (Some Unparseable) [] [Printed MsgJsonError])
  /\ FinanceManager.load_records (Some Unparseable) = (Raise JSONDecodeError, [])
  /\ FinanceManager.init (Some Unparseable) = Raise JSONDecodeError.
Proof. repeat split. Qed.

(** ** Import from a missing path *)

(** C10. With no file at the given path [ContactManager.import_from_csv]
    returns normally and leaves the manager as it was: same contacts, same
    backing file, nothing written or printed.  The note, task and finance
    imports open the path unconditionally and raise [FileNotFoundError]. *)
Theorem import_missing_path (now : string) (cm : ContactManager.t)
    (nm : NoteManager.t) (tm : TaskManager.t) (fm : FinanceManager.t) :
  ContactManager.import_from_csv None cm = (Ok tt, cm)
  /\ NoteManager.import_from_csv now None nm = (Raise FileNotFoundError, nm)
  /\ TaskManager.import_from_csv None tm = (Raise FileNotFoundError, tm)
  /\ FinanceManager.import_from_csv None fm = (Raise FileNotFoundError, fm).
Proof. repeat split. Qed.

(** ** Id assignment over a session *)
Section SessionFacts.

Context {M P : Type}.
Variable add : P -> M -> Z * M.
Variable del : target -> M -> M.
Variable ids : M -> list Z.

Hypothesis add_next : forall p m, fst (add p m) = max_default (ids m) + 1.
Hypothesis add_ids : forall p m, ids (snd (add p m)) = ids m ++ [fst (add p m)].

Lemma add_raises_top (p : P) (m : M) :
  max_default (ids (snd (add p m))) = fst (add p m).
Proof. now rewrite add_ids, add_next, max_default_next. Qed.

Lemma add_above_held (p : P) (m : M) :
  Forall (fun i => i < fst (add p m)) (ids m).
Proof.
  apply Forall_forall; intros i Hi.
  rewrite add_next. apply max_default_ge in Hi. lia.
Qed.

Lemma assigned_above_top (ops : list (@op P)) :
  forall m, keeps_top add del ids ops m = true ->
            Forall (fun i => max_default (ids m) < i) (assigned add del ops m).
Proof.
  induction ops as [|[p|t] ops IH]; intros m Hk; simpl in *.
  - constructor.
  - constructor; [rewrite add_next; lia|].
    specialize (IH _ Hk). rewrite add_raises_top, add_next in IH.
    eapply Forall_impl; [|exact IH]. simpl; intros; lia.
  - apply andb_prop in Hk as [Htop Hk]. apply Z.eqb_eq in Htop.
    rewrite <- Htop. now apply IH.
Qed.

Lemma assigned_increasing (ops : list (@op P)) :
  forall m, keeps_top add del ids ops m = true ->
            StronglySorted Z.lt (assigned add del ops m).
Proof.
  induction ops as [|[p|t] ops IH]; intros m Hk; simpl in *.
  - constructor.
  - constructor; [now apply IH|].
    pose proof (assigned_above_top ops _ Hk) as H.
    now rewrite add_raises_top in H.
  - apply andb_prop in Hk as [_ Hk]. now apply IH.
Qed.

End SessionFacts.

Lemma note_add_next p m : fst (note_add p m) = max_default (note_ids m) + 1.
Proof. destruct p as [[now ti] c]; reflexivity. Qed.

Lemma note_add_ids p m : note_ids (snd (note_add p m)) = note_ids m ++ [fst (note_add p m)].
Proof. destruct p as [[now ti] c]; unfold note_ids; simpl. now rewrite map_app. Qed.

Lemma task_add_next p m : fst (task_add p m) = max_default (task_ids m) + 1.
Proof. destruct p as [[[ti de] pr] du]; reflexivity. Qed.

Lemma task_add_ids p m : task_ids (snd (task_add p m)) = task_ids m ++ [fst (task_add p m)].
Proof. destruct p as [[[ti de] pr] du]; unfold task_ids; simpl. now rewrite map_app. Qed.

Lemma contact_add_next p m : fst (contact_add p m) = max_default (contact_ids m) + 1.
Proof. destruct p as [[na ph] em]; reflexivity. Qed.

Lemma contact_add_ids p m :
  contact_ids (snd (contact_add p m)) = contact_ids m ++ [fst (contact_add p m)].
Proof. destruct p as [[na ph] em]; unfold contact_ids; simpl. now rewrite map_app. Qed.

Lemma finance_add_next p m : fst (finance_add p m) = max_default (finance_ids m) + 1.
Proof. destruct p as [[[am ca] da] de]; reflexivity. Qed.

Lemma finance_add_ids p m :
  finance_ids (snd (finance_add p m)) = finance_ids m ++ [fst (finance_add p m)].
Proof. destruct p as [[[am ca] da] de]; unfold finance_ids; simpl. now rewrite map_app. Qed.

(** C4, as the code has it.  The id an add assigns is greater than every id
    the collection holds at that moment.  Over a session in which no delete
    lowers the highest id held, each assigned id is greater than every id
    assigned before it, so none repeats.  This holds for the four managers. *)
Theorem assigned_ids_increase_while_top_kept
    (nops : list op) (nm : NoteManager.t)
    (tops : list op) (tm : TaskManager.t)
    (cops : list op) (cm : ContactManager.t)
    (fops : list op) (fm : FinanceManager.t)
    (Hn : keeps_top note_add NoteManager.delete_note note_ids nops nm = true)
    (Ht : keeps_top task_add TaskManager.delete_task task_ids tops tm = true)
    (Hc : keeps_top contact_add ContactManager.delete_contact contact_ids cops cm
          = true)
    (Hf : keeps_top finance_add FinanceManager.delete_record finance_ids fops fm
          = true) :
  (StronglySorted Z.lt (assigned note_add NoteManager.delete_note nops nm)
   /\ StronglySorted Z.lt (assigned task_add TaskManager.delete_task tops tm)
   /\ StronglySorted Z.lt
        (assigned contact_add ContactManager.delete_contact cops cm)
   /\ StronglySorted Z.lt
        (assigned finance_add FinanceManager.delete_record fops fm))
  /\ (forall p, Forall (fun i => i < fst (note_add p nm)) (note_ids nm))
  /\ (forall p, Forall (fun i => i < fst (task_add p tm)) (task_ids tm))
  /\ (forall p, Forall (fun i => i < fst (contact_add p cm)) (contact_ids cm))
  /\ (forall p, Forall (fun i => i < fst (finance_add p fm)) (finance_ids fm)).
Proof.
  repeat split.
  - exact (assigned_increasing _ _ _ note_add_next note_add_ids _ _ Hn).
  - exact (assigned_increasing _ _ _ task_add_next task_add_ids _ _ Ht).
  - exact (assigned_increasing _ _ _ contact_add_next contact_add_ids _ _ Hc).
  - exact (assigned_increasing _ _ _ finance_add_next finance_add_ids _ _ Hf).
  - intros p; exact (add_above_held _ _ note_add_next p nm).
  - intros p; exact (add_above_held _ _ task_add_next p tm).
  - intros p; exact (add_above_held _ _ contact_add_next p cm).
  - intros p; exact (add_above_held _ _ finance_add_next p fm).
Qed.

Lemma assigned_ids_increase_witness :
  keeps_top note_add NoteManager.delete_note note_ids
    [Add a_note; Add a_note; Delete (ById 1); Add a_note]
    (NoteManager.mk None [] []) = true
  /\ StronglySorted Z.lt
       (assigned note_add NoteManager.delete_note
          [Add a_note; Add a_note; Delete (ById 1); Add a_note]
          (NoteManager.mk None [] [])).
Proof.
  split; [reflexivity|].
  exact (proj1 (proj1 (assigned_ids_increase_while_top_kept
                  [Add a_note; Add a_note; Delete (ById 1); Add a_note]
                  (NoteManager.mk None [] [])
                  [Add a_task; Delete (ById 5); Add a_task]
                  (TaskManager.mk None [] [])
                  [Add a_contact; Add a_contact]
                  (ContactManager.mk None [] [])
                  [Add a_record; Add a_record; Delete (ById 1)]
                  (FinanceManager.mk None [] [])
                  eq_refl eq_refl eq_refl eq_refl))).
Defined.

(** C4 as stated fails: add, delete the note just added, add again assigns
    the id 1 twice. *)
Lemma assigned_id_repeats_after_delete :
  assigned note_add NoteManager.delete_note
    [Add a_note; Delete (ById 1); Add a_note] (NoteManager.mk None [] [])
  = [1; 1]
  /\ ~ StronglySorted Z.lt
         (assigned note_add NoteManager.delete_note
            [Add a_note; Delete (ById 1); Add a_note]
            (NoteManager.mk None [] []))
  /\ ~ NoDup
         (assigned note_add NoteManager.delete_note
            [Add a_note; Delete (ById 1); Add a_note]
            (NoteManager.mk None [] [])).
Proof.
  split; [reflexivity|]. split; intros H.
  - change (StronglySorted Z.lt [1; 1]) in H.
    inversion H as [|? ? _ Hall]; subst. inversion Hall; subst. lia.
  - change (NoDup [1; 1]) in H.
    inversion H as [|? ? Hin _]; subst. apply Hin; simpl; auto.
Qed.

(** ** Delete *)

Lemma remaining_absent {A : Type} (rid : A -> Z) (t : target) (l : list A) :
  ~ hits rid t l -> remaining rid t l = l.
Proof.
  destruct t as [|i]; simpl; intros H; [now destruct H|].
  apply filter_absent; intros x Hx E; apply H; eauto.
Qed.

Lemma remaining_in {A : Type} (rid : A -> Z) (i : Z) (l : list A) (x : A) :
  In x (remaining rid (ById i) l) <-> In x l /\ rid x <> i.
Proof.
  simpl; rewrite filter_In.
  destruct (Z.eqb_spec (rid x) i); simpl; intuition congruence.
Qed.

Lemma existsb_hits {A : Type} (rid : A -> Z) (i : Z) (l : list A) :
  existsb (fun x => rid x =? i) l = true <-> hits rid (ById i) l.
Proof.
  simpl; rewrite existsb_exists; split; intros (x & Hx & E); exists x;
    (split; [exact Hx|]); now apply Z.eqb_eq.
Qed.

Lemma saves_snoc_saved (tr : list event) (t : text) :
  saves (tr ++ [Saved t]) = S (saves tr).
Proof. rewrite saves_app; simpl; lia. Qed.

Lemma saves_snoc_printed (tr : list event) (m : message) :
  saves (tr ++ [Printed m]) = saves tr.
Proof. rewrite saves_app; simpl; lia. Qed.

(** C6, as the code has it.  Each delete method leaves the collection empty
    for ['ALL'] and without the records carrying the id otherwise, which is
    the collection itself when no record carries it; none raises.  The task,
    contact and finance managers rewrite the backing file on every call.  The
    note manager rewrites it for ['ALL'] and for an id it holds; for an id it
    does not hold it prints a message and leaves the file alone. *)
Theorem delete_rewrites_file_except_absent_note (t : target)
    (nm : NoteManager.t) (tm : TaskManager.t) (cm : ContactManager.t)
    (fm : FinanceManager.t) :
  (TaskManager.tasks (TaskManager.delete_task t tm)
   = remaining Task.id t (TaskManager.tasks tm)
   /\ TaskManager.storage_file (TaskManager.delete_task t tm)
      = Some (json_dump
                (JArr (map Task.to_dict
                         (remaining Task.id t (TaskManager.tasks tm)))))
   /\ saves (TaskManager.trace (TaskManager.delete_task t tm))
      = S (saves (TaskManager.trace tm)))
  /\ (ContactManager.contacts (ContactManager.delete_contact t cm)
      = remaining Contact.id t (ContactManager.contacts cm)
      /\ ContactManager.storage_file (ContactManager.delete_contact t cm)
         = Some (json_dump
                   (JArr (map Contact.to_dict
                            (remaining Contact.id t
                               (ContactManager.contacts cm)))))
      /\ saves (ContactManager.trace (ContactManager.delete_contact t cm))
         = S (saves (ContactManager.trace cm)))
  /\ (FinanceManager.records (FinanceManager.delete_record t fm)
      = remaining FinanceRecord.id t (FinanceManager.records fm)
      /\ FinanceManager.file_path (FinanceManager.delete_record t fm)
         = Some (json_dump
                   (JArr (map FinanceRecord.to_dict
                            (remaining FinanceRecord.id t
                               (FinanceManager.records fm)))))
      /\ saves (FinanceManager.trace (FinanceManager.delete_record t fm))
         = S (saves (FinanceManager.trace fm)))
  /\ (NoteManager.notes (NoteManager.delete_note t nm)
      = remaining Note.id t (NoteManager.notes nm)
      /\ (hits Note.id t (NoteManager.notes nm) ->
          NoteManager.storage_file (NoteManager.delete_note t nm)
          = Some (json_dump
                    (JArr (map Note.to_dict
                             (remaining Note.id t (NoteManager.notes nm)))))
          /\ saves (NoteManager.trace (NoteManager.delete_note t nm))
             = S (saves (NoteManager.trace nm)))
      /\ (~ hits Note.id t (NoteManager.notes nm) ->
          NoteManager.storage_file (NoteManager.delete_note t nm)
          = NoteManager.storage_file nm
          /\ saves (NoteManager.trace (NoteManager.delete_note t nm))
             = saves (NoteManager.trace nm)))
  /\ (forall (A : Type) (rid : A -> Z) (l : list A),
         (~ hits rid t l -> remaining rid t l = l)
         /\ remaining rid ALL l = []
         /\ forall i x, In x (remaining rid (ById i) l) <-> In x l /\ rid x <> i).
Proof.
  split; [|split; [|split; [|split]]].
  - destruct t; simpl; repeat split; apply saves_snoc_saved.
  - destruct t; simpl; repeat split; apply saves_snoc_saved.
  - destruct t; simpl; repeat split; apply saves_snoc_saved.
  - destruct t as [|i].
    + split; [reflexivity|]. split.
      * intros _; simpl; split; [reflexivity|apply saves_snoc_saved].
      * intros H; exfalso; apply H; exact I.
    + unfold NoteManager.delete_note.
      destruct (existsb (fun n => Note.id n =? i) (NoteManager.notes nm)) eqn:E.
      * split; [reflexivity|]. split.
        -- intros _; simpl; split; [reflexivity|].
           now rewrite saves_snoc_printed, saves_snoc_saved.
        -- intros H; exfalso; apply H. now apply existsb_hits.
      * assert (Hno : ~ hits Note.id (ById i) (NoteManager.notes nm)).
        { intros H; apply existsb_hits in H; congruence. }
        split; [simpl; symmetry; now apply (remaining_absent Note.id (ById i))|].
        split; [intros H; contradiction|].
        intros _; simpl; split; [reflexivity|apply saves_snoc_printed].
  - intros A rid l; split; [apply remaining_absent|].
    split; [reflexivity|]. intros i x; apply remaining_in.
Qed.

Lemma delete_rewrites_file_witness :
  hits Note.id (ById 1) [sample_note]
  /\ NoteManager.storage_file
       (NoteManager.delete_note (ById 1) (NoteManager.mk None [sample_note] []))
     = Some (json_dump (JArr []))
  /\ saves (NoteManager.trace
              (NoteManager.delete_note (ById 1)
                 (NoteManager.mk None [sample_note] [])))
     = 1%nat.
Proof.
  assert (H : hits Note.id (ById 1) [sample_note])
    by (exists sample_note; simpl; auto).
  split; [exact H|].
  exact (proj1 (proj2 (proj1 (proj2 (proj2 (proj2
           (delete_rewrites_file_except_absent_note (ById 1)
              (NoteManager.mk None [sample_note] [])
              (TaskManager.mk None [sample_task] [])
              (ContactManager.mk None [sample_contact] [])
              (FinanceManager.mk None [sample_record] []))))))) H).
Defined.

(** C6 as stated fails: deleting an id the note manager does not hold leaves
    the backing file missing and records no write, while the same call on the
    task manager writes the file. *)
Lemma delete_note_absent_does_not_save :
  NoteManager.storage_file
    (NoteManager.delete_note (ById 7) (NoteManager.mk None [sample_note] []))
  = None
  /\ saves (NoteManager.trace
              (NoteManager.delete_note (ById 7)
                 (NoteManager.mk None [sample_note] [])))
     = 0%nat
  /\ saves (TaskManager.trace
              (TaskManager.delete_task (ById 7)
                 (TaskManager.mk None [sample_task] [])))
     = 1%nat.
Proof. repeat split. Qed.

(** ** Edit with empty fields *)

Lemma keep_when_blank (a : option string) (old : string) :
  truthy_opt a = false ->
  match a with
  | Some s => if truthy s then s else old
  | None => old
  end = old.
Proof. destruct a as [s|]; simpl; intros H; [now rewrite H|reflexivity]. Qed.

Lemma keep_opt_when_blank (a old : option string) :
  truthy_opt a = false ->
  match a with
  | Some s => if truthy s then Some s else old
  | None => old
  end = old.
Proof. destruct a as [s|]; simpl; intros H; [now rewrite H|reflexivity]. Qed.

Lemma note_update_blank (now : string) (a1 a2 : option string) (n : Note.t) :
  truthy_opt a1 = false -> truthy_opt a2 = false ->
  Note.update now a1 a2 n
  = Note.mk (Note.id n) (Note.title n) (Note.content n) now.
Proof.
  intros H1 H2; unfold Note.update.
  now rewrite (keep_when_blank a1 _ H1), (keep_when_blank a2 _ H2).
Qed.

Lemma task_update_blank (a1 a2 a3 a4 : option string) (x : Task.t) :
  truthy_opt a1 = false -> truthy_opt a2 = false ->
  truthy_opt a3 = false -> truthy_opt a4 = false ->
  Task.update a1 a2 a3 a4 x = x.
Proof.
  intros H1 H2 H3 H4; unfold Task.update.
  rewrite (keep_when_blank a1 _ H1), (keep_when_blank a2 _ H2),
    (keep_when_blank a3 _ H3), (keep_opt_when_blank a4 _ H4).
  now destruct x.
Qed.

Lemma contact_update_blank (a1 a2 a3 : option string) (x : Contact.t) :
  truthy_opt a1 = false -> truthy_opt a2 = false -> truthy_opt a3 = false ->
  Contact.update a1 a2 a3 x = x.
Proof.
  intros H1 H2 H3; unfold Contact.update.
  rewrite (keep_when_blank a1 _ H1), (keep_opt_when_blank a2 _ H2),
    (keep_opt_when_blank a3 _ H3).
  now destruct x.
Qed.

(** The record an edit reaches is the first one with the id; the edit
    replaces it in place. *)
Lemma update_first_split {A : Type} (rid : A -> Z) (i : Z) (f : A -> A)
    (l : list A) :
  In i (map rid l) ->
  exists pre x post,
    l = pre ++ x :: post
    /\ ~ In i (map rid pre)
    /\ rid x = i
    /\ find (fun a => rid a =? i) l = Some x
    /\ NoteManager.update_first (fun a => rid a =? i) f l = pre ++ f x :: post.
Proof.
  induction l as [|a l IH]; simpl; intros H; [contradiction|].
  destruct (Z.eqb_spec (rid a) i) as [E|E].
  - exists [], a, l; simpl; auto.
  - destruct H as [H|H]; [contradiction|].
    destruct (IH H) as (pre & x & post & -> & Hpre & Hx & Hfind & Hupd).
    exists (a :: pre), x, post; simpl.
    rewrite Hupd. repeat split; auto. intros [|]; auto.
Qed.

Lemma update_first_id {A : Type} (p : A -> bool) (f : A -> A) (l : list A) :
  (forall a, f a = a) -> NoteManager.update_first p f l = l.
Proof.
  intros Hf; induction l as [|a l IH]; simpl; [reflexivity|].
  destruct (p a); [now rewrite Hf|now rewrite IH].
Qed.

(** C8. Editing a record that is present with every field empty or absent
    leaves a task and a contact exactly as they were, and changes of a note
    only the timestamp, which becomes the current time; the other records of
    the collection are untouched and keep their positions. *)
Theorem edit_with_empty_fields_keeps_record
    (now : string) (i : Z) (a1 a2 a3 a4 : option string)
    (nm : NoteManager.t) (tm : TaskManager.t) (cm : ContactManager.t)
    (H1 : truthy_opt a1 = false) (H2 : truthy_opt a2 = false)
    (H3 : truthy_opt a3 = false) (H4 : truthy_opt a4 = false)
    (Hn : In i (note_ids nm)) (Ht : In i (task_ids tm))
    (Hc : In i (contact_ids cm)) :
  (exists pre n post,
      NoteManager.notes nm = pre ++ n :: post
      /\ ~ In i (map Note.id pre)
      /\ Note.id n = i
      /\ fst (NoteManager.edit_note now i a1 a2 nm)
         = Some (Note.mk (Note.id n) (Note.title n) (Note.content n) now)
      /\ NoteManager.notes (snd (NoteManager.edit_note now i a1 a2 nm))
         = pre ++ Note.mk (Note.id n) (Note.title n) (Note.content n) now
                  :: post)
  /\ (exists task,
         In task (TaskManager.tasks tm)
         /\ Task.id task = i
         /\ fst (TaskManager.edit_task i a1 a2 a3 a4 tm) = Some task
         /\ TaskManager.tasks (snd (TaskManager.edit_task i a1 a2 a3 a4 tm))
            = TaskManager.tasks tm)
  /\ (exists contact,
         In contact (ContactManager.contacts cm)
         /\ Contact.id contact = i
         /\ fst (ContactManager.edit_contact i a1 a2 a3 cm) = Some contact
         /\ ContactManager.contacts
              (snd (ContactManager.edit_contact i a1 a2 a3 cm))
            = ContactManager.contacts cm).
Proof.
  split; [|split].
  - destruct (update_first_split Note.id i (Note.update now a1 a2) _ Hn)
      as (pre & n & post & Hl & Hpre & Hid & Hfind & Hupd).
    exists pre, n, post.
    unfold NoteManager.edit_note, NoteManager.view_note_details.
    rewrite Hfind; simpl. rewrite Hupd, (note_update_blank now a1 a2 n H1 H2).
    auto.
  - destruct (update_first_split Task.id i (Task.update a1 a2 a3 a4) _ Ht)
      as (pre & x & post & Hl & Hpre & Hid & Hfind & Hupd).
    exists x.
    unfold TaskManager.edit_task, TaskManager.view_task_details.
    rewrite Hfind; simpl.
    rewrite (task_update_blank a1 a2 a3 a4 x H1 H2 H3 H4).
    rewrite update_first_id
      by (intros a; now apply task_update_blank).
    repeat split; auto. rewrite Hl; apply in_elt.
  - destruct (update_first_split Contact.id i (Contact.update a1 a2 a3) _ Hc)
      as (pre & x & post & Hl & Hpre & Hid & Hfind & Hupd).
    exists x.
    unfold ContactManager.edit_contact, ContactManager.get_contact_by_id.
    rewrite Hfind; simpl.
    rewrite (contact_update_blank a1 a2 a3 x H1 H2 H3).
    rewrite update_first_id
      by (intros a; now apply contact_update_blank).
    repeat split; auto. rewrite Hl; apply in_elt.
Qed.

Lemma edit_with_empty_fields_witness :
  truthy_opt (Some "") = false
  /\ truthy_opt None = false
  /\ In 1 (note_ids (NoteManager.mk None [sample_note] []))
  /\ In 1 (task_ids (TaskManager.mk None [sample_task] []))
  /\ In 1 (contact_ids (ContactManager.mk None [sample_contact] []))
  /\ exists task,
       In task [sample_task]
       /\ Task.id task = 1
       /\ fst (TaskManager.edit_task 1 (Some "") None (Some "") None
                 (TaskManager.mk None [sample_task] []))
          = Some task
       /\ TaskManager.tasks
            (snd (TaskManager.edit_task 1 (Some "") None (Some "") None
                    (TaskManager.mk None [sample_task] [])))
          = [sample_task].
Proof.
  split; [reflexivity|]. split; [reflexivity|].
  split; [simpl; auto|]. split; [simpl; auto|]. split; [simpl; auto|].
  exact (proj1 (proj2 (edit_with_empty_fields_keeps_record
                  "05-03-2024 10:00:00" 1 (Some "") None (Some "") None
                  (NoteManager.mk None [sample_note] [])
                  (TaskManager.mk None [sample_task] [])
                  (ContactManager.mk None [sample_contact] [])
                  eq_refl eq_refl eq_refl eq_refl
                  (or_introl eq_refl) (or_introl eq_refl)
                  (or_introl eq_refl)))).
Defined.

(** ** Contact search *)

(** C9.  [search_contacts] lower-cases the query and the name of each contact
    but compares the phone as it is stored.  A contact whose phone is
    "8-800-CALL" is therefore found by no query that spells those letters:
    not by "call", not by "8-800-call", not even by the phone itself, every
    query being lower-cased first.  Its name is found in any letter case and
    the digits of its phone are found; the case-insensitive match on name or
    phone that the specification describes finds the contact each time. *)
Theorem search_contacts_phone_not_folded :
  ContactManager.search_contacts "8-800-CALL"
    (ContactManager.mk None [lettered_contact] [])
  = Ok []
  /\ ContactManager.search_contacts "call"
       (ContactManager.mk None [lettered_contact] [])
     = Ok []
  /\ ContactManager.search_contacts "8-800-call"
       (ContactManager.mk None [lettered_contact] [])
     = Ok []
  /\ ContactManager.search_contacts "TAXI"
       (ContactManager.mk None [lettered_contact] [])
     = Ok [lettered_contact]
  /\ ContactManager.search_contacts "8-800"
       (ContactManager.mk None [lettered_contact] [])
     = Ok [lettered_contact]
  /\ search_spec "8-800-CALL" [lettered_contact] = [lettered_contact]
  /\ search_spec "call" [lettered_contact] = [lettered_contact]
  /\ search_spec "8-800-call" [lettered_contact] = [lettered_contact].
Proof. repeat split. Qed.

(** ** CSV import *)

Lemma mapM_cons_ok {A B : Type} (f : A -> res B) (a : A) (l : list A)
    (ys : list B) :
  mapM f (a :: l) = Ok ys ->
  exists b bs, f a = Ok b /\ mapM f l = Ok bs /\ ys = b :: bs.
Proof.
  simpl; destruct (f a) as [b|e]; simpl; [|discriminate].
  destruct (mapM f l) as [bs|e]; simpl; [|discriminate].
  intros [= <-]; eauto.
Qed.

Lemma mapM_length {A B : Type} (f : A -> res B) (l : list A) :
  forall ys, mapM f l = Ok ys -> List.length ys = List.length l.
Proof.
  induction l as [|a l IH]; intros ys H.
  - now injection H as <-.
  - apply mapM_cons_ok in H as (b & bs & _ & Hbs & ->).
    simpl; f_equal; now apply IH.
Qed.

Lemma mapM_in {A B : Type} (f : A -> res B) (l : list A) :
  forall ys a b, mapM f l = Ok ys -> In a l -> f a = Ok b -> In b ys.
Proof.
  induction l as [|x l IH]; intros ys a b H Ha Hb; [contradiction|].
  apply mapM_cons_ok in H as (y & bs & Hy & Hbs & ->).
  destruct Ha as [->|Ha].
  - left; congruence.
  - right; eapply IH; eauto.
Qed.

(** The contact import only appends, and what it appends carries ids that are
    new to the collection and distinct from one another. *)
Lemma contact_import_rows_appends (rows : list csv_row) :
  forall l, exists added,
    snd (ContactManager.import_rows rows l) = l ++ added
    /\ NoDup (map Contact.id added)
    /\ forall c, In c added ->
                 ~ In (Contact.id c) (map Contact.id l)
                 /\ exists row, In row rows /\ ContactManager.of_row row = Ok c.
Proof.
  induction rows as [|row rows IH]; intros l; simpl.
  - exists []; rewrite app_nil_r.
    split; [reflexivity|]. split; [constructor|]. intros c [].
  - destruct (ContactManager.of_row row) as [c|e] eqn:Hrow; simpl.
    2:{ exists []; rewrite app_nil_r.
        split; [reflexivity|]. split; [constructor|]. intros c []. }
    destruct (existsb (fun x => Contact.id x =? Contact.id c) l) eqn:Hex.
    + destruct (IH l) as (added & Heq & Hnd & Hall).
      exists added. split; [exact Heq|]. split; [exact Hnd|].
      intros c0 H0; destruct (Hall c0 H0) as (Hout & r & Hr & Hok); eauto.
    + destruct (IH (l ++ [c])) as (added & Heq & Hnd & Hall).
      exists (c :: added); rewrite Heq, <- app_assoc; simpl.
      assert (Hnew : ~ In (Contact.id c) (map Contact.id l)).
      { intros Hin; apply in_map_iff in Hin as (x & Hx & Hin).
        assert (existsb (fun x => Contact.id x =? Contact.id c) l = true)
          by (apply existsb_exists; exists x; split; [auto|now apply Z.eqb_eq]).
        congruence. }
      split; [reflexivity|]. split.
      * constructor; [|exact Hnd].
        intros Hin; apply in_map_iff in Hin as (x & Hx & Hin).
        destruct (Hall x Hin) as (Hout & _); apply Hout.
        rewrite map_app, in_app_iff; right; simpl; auto.
      * intros c0 [<-|H0]; [split; [exact Hnew|eauto]|].
        destruct (Hall c0 H0) as (Hout & r & Hr & Hok). split; [|eauto].
        intros Hin; apply Hout. rewrite map_app, in_app_iff; auto.
Qed.

(** When every row converts, the contact import runs to the end and the id of
    every row is in the collection afterwards. *)
Lemma contact_import_rows_total (rows : list csv_row) :
  forall parsed l,
    mapM ContactManager.of_row rows = Ok parsed ->
    fst (ContactManager.import_rows rows l) = Ok tt
    /\ forall c, In c parsed ->
                 In (Contact.id c)
                    (map Contact.id (snd (ContactManager.import_rows rows l))).
Proof.
  induction rows as [|row rows IH]; intros parsed l H.
  - injection H as <-; simpl; split; [reflexivity|contradiction].
  - apply mapM_cons_ok in H as (c & ps & Hc & Hps & ->).
    simpl; rewrite Hc.
    set (l' := if existsb (fun x => Contact.id x =? Contact.id c) l
               then l else l ++ [c]).
    assert (Hc' : In (Contact.id c) (map Contact.id l')).
    { subst l'.
      destruct (existsb (fun x => Contact.id x =? Contact.id c) l) eqn:Hex.
      - apply existsb_exists in Hex as (x & Hx & E). apply Z.eqb_eq in E.
        rewrite <- E; now apply in_map.
      - rewrite map_app, in_app_iff; right; simpl; auto. }
    destruct (IH ps l' Hps) as (Hok & Hin). split; [exact Hok|].
    intros c0 [<-|H0]; [|now apply Hin].
    destruct (contact_import_rows_appends rows l') as (added & -> & _).
    rewrite map_app, in_app_iff; auto.
Qed.

(** Ids and cells of the notes an import mints. *)
Lemma minted_length (now : string) (cs : list (string * string * string)) :
  forall k, List.length (minted now k cs) = List.length cs.
Proof.
  induction cs as [|[[ti c] ts] cs IH]; intros k; simpl; [reflexivity|].
  now rewrite IH.
Qed.

Lemma minted_ids_range (now : string) (cs : list (string * string * string)) :
  forall k b, In b (minted now k cs) ->
              k <= Note.id b < k + Z.of_nat (List.length cs).
Proof.
  induction cs as [|[[ti c] ts] cs IH]; intros k b; simpl; [contradiction|].
  intros [<-|H]; simpl; [lia|].
  apply IH in H; lia.
Qed.

Lemma minted_cells (now now' : string) (cs : list (string * string * string)) :
  forall k k',
    map (fun x => (Note.title x, Note.content x)) (minted now k cs)
    = map (fun x => (Note.title x, Note.content x)) (minted now' k' cs).
Proof.
  induction cs as [|[[ti c] ts] cs IH]; intros k k'; simpl; [reflexivity|].
  f_equal; apply IH.
Qed.

Lemma max_default_minted (now : string) (cs : list (string * string * string)) :
  forall ids,
    max_default (ids ++ map Note.id (minted now (max_default ids + 1) cs))
    = max_default ids + Z.of_nat (List.length cs).
Proof.
  induction cs as [|[[ti c] ts] cs IH]; intros ids.
  - simpl; rewrite app_nil_r; lia.
  - cbn [minted map Note.init Note.id].
    change (ids ++ (max_default ids + 1)
                :: map Note.id (minted now (max_default ids + 1 + 1) cs))
      with (ids ++ [max_default ids + 1]
                ++ map Note.id (minted now (max_default ids + 1 + 1) cs)).
    rewrite app_assoc.
    pose proof (IH (ids ++ [max_default ids + 1])) as H.
    rewrite max_default_next in H. rewrite H.
    cbn [List.length]; lia.
Qed.

Lemma note_import_rows_minted (now : string) (rows : list csv_row) :
  forall cs last l,
    mapM NoteManager.cells rows = Ok cs ->
    exists r,
      NoteManager.import_rows now rows last l
      = (Ok r, l ++ minted now (max_default (map Note.id l) + 1) cs)
      /\ (r = None -> rows = []).
Proof.
  induction rows as [|row rows IH]; intros cs last l H.
  - injection H as <-; simpl; rewrite app_nil_r.
    exists last; split; auto.
  - apply mapM_cons_ok in H as ([[ti c] ts] & cs' & Hrow & Hcs & ->).
    simpl; rewrite Hrow.
    destruct (IH cs' (Some row)
                 (l ++ [Note.init now (max_default (map Note.id l) + 1) ti c
                          (Some ts)]) Hcs) as (r & Heq & Hr).
    rewrite map_app in Heq; cbn [map Note.init Note.id] in Heq.
    rewrite max_default_next, <- app_assoc in Heq.
    exists r; split; [exact Heq|].
    intros ->.
    destruct rows as [|row' rows']; [|specialize (Hr eq_refl); discriminate].
    simpl in Heq; congruence.
Qed.

Lemma note_import_appends (now : string) (rows : list csv_row)
    (cs : list (string * string * string)) (nm : NoteManager.t) :
  mapM NoteManager.cells rows = Ok cs ->
  rows <> [] ->
  fst (NoteManager.import_from_csv now (Some rows) nm) = Ok tt
  /\ NoteManager.notes (snd (NoteManager.import_from_csv now (Some rows) nm))
     = NoteManager.notes nm ++ minted now (max_default (note_ids nm) + 1) cs.
Proof.
  intros Hcs Hne; unfold NoteManager.import_from_csv.
  destruct (note_import_rows_minted now rows cs None (NoteManager.notes nm) Hcs)
    as (r & -> & Hr).
  destruct r as [row|]; [split; reflexivity|].
  now specialize (Hr eq_refl).
Qed.

(** What a converted row says of its record. *)
Lemma mapM_Forall2 {A B : Type} (f : A -> res B) (R : A -> B -> Prop)
    (l : list A) :
  (forall a b, f a = Ok b -> R a b) ->
  forall ys, mapM f l = Ok ys -> Forall2 R l ys.
Proof.
  intros HR; induction l as [|a l IH]; intros ys H.
  - injection H as <-; constructor.
  - apply mapM_cons_ok in H as (b & bs & Hb & Hbs & ->). constructor; auto.
Qed.

Lemma contact_of_row_columns (row : csv_row) (c : Contact.t) :
  ContactManager.of_row row = Ok c -> contact_columns row c.
Proof.
  unfold ContactManager.of_row, contact_columns, getitem.
  destruct (lookup "id" row) as [i|]; simpl; [|discriminate].
  destruct (py_int i) as [i'|e] eqn:Hint; simpl; [|discriminate].
  destruct (lookup "name" row) as [na|]; simpl; [|discriminate].
  intros [= <-]; simpl. repeat split; eauto.
Qed.

Lemma note_cells_columns (row : csv_row) (p : string * string * string) :
  NoteManager.cells row = Ok p -> note_columns row p.
Proof.
  unfold NoteManager.cells, note_columns, getitem.
  destruct (lookup "title" row) as [ti|]; simpl; [|discriminate].
  destruct (lookup "content" row) as [c|]; simpl; [|discriminate].
  destruct (lookup "timestamp" row) as [ts|]; simpl; [|discriminate].
  intros [= <-]; simpl. repeat split.
Qed.

(** The notes the import mints are the notes of the rows, field by field. *)
Lemma minted_row_notes (now : string) (cs : list (string * string * string)) :
  forall k, minted now k cs = row_notes now k cs.
Proof.
  induction cs as [|[[ti c] ts] cs IH]; intros k; [reflexivity|].
  cbn [minted row_notes]. rewrite IH. reflexivity.
Qed.

Lemma row_notes_nth (now : string) (cs : list (string * string * string)) :
  forall k i ti c ts,
    nth_error cs i = Some (ti, c, ts) ->
    nth_error (row_notes now k cs) i
    = Some (Note.mk (k + Z.of_nat i) ti c (if truthy ts then ts else now)).
Proof.
  induction cs as [|[[ti' c'] ts'] cs IH]; intros k [|i] ti c ts H;
    try discriminate H.
  - injection H as -> -> ->. cbn [row_notes nth_error Z.of_nat].
    now rewrite Z.add_0_r.
  - cbn [row_notes nth_error] in *. rewrite (IH (k + 1) i ti c ts H).
    do 2 f_equal. lia.
Qed.

(** [first_new] keeps, of the elements carrying an id that is not in [seen],
    the first one for each id. *)
Lemma existsb_eqb_in (z : Z) (seen : list Z) :
  existsb (Z.eqb z) seen = true <-> In z seen.
Proof.
  rewrite existsb_exists; split.
  - intros (y & Hy & E). apply Z.eqb_eq in E. now subst.
  - intros H; exists z; split; [exact H|apply Z.eqb_refl].
Qed.

Lemma first_new_spec {A : Type} (rid : A -> Z) (xs : list A) :
  forall seen c,
    In c (first_new rid seen xs)
    <-> exists pre post,
          xs = pre ++ c :: post
          /\ ~ In (rid c) seen /\ ~ In (rid c) (map rid pre).
Proof.
  induction xs as [|x xs IH]; intros seen c; cbn [first_new].
  - split; [contradiction|]. intros (pre & post & H & _).
    destruct pre; discriminate H.
  - destruct (existsb (Z.eqb (rid x)) seen) eqn:E.
    + apply existsb_eqb_in in E. rewrite IH. split.
      * intros (pre & post & -> & Hs & Hp).
        exists (x :: pre), post. split; [reflexivity|]. split; [exact Hs|].
        cbn [map]. intros [H|H]; [|now apply Hp].
        apply Hs. now rewrite <- H.
      * intros (pre & post & H & Hs & Hp).
        destruct pre as [|y pre]; cbn [app] in H; injection H as -> ->.
        -- now elim Hs.
        -- exists pre, post. split; [reflexivity|]. split; [exact Hs|].
           intros Hin; apply Hp; cbn [map]; now right.
    + assert (Hx : ~ In (rid x) seen).
      { intros H; apply existsb_eqb_in in H; congruence. }
      cbn [In]. rewrite IH. split.
      * intros [<-|(pre & post & -> & Hs & Hp)].
        -- exists [], xs. split; [reflexivity|]. split; [exact Hx|].
           intros [].
        -- exists (x :: pre), post. split; [reflexivity|]. split.
           ++ intros H; apply Hs; now right.
           ++ cbn [map]. intros [H|H]; [|now apply Hp].
              apply Hs; now left.
      * intros (pre & post & H & Hs & Hp).
        destruct pre as [|y pre]; cbn [app] in H; injection H as -> ->.
        -- now left.
        -- right. exists pre, post. split; [reflexivity|]. split.
           ++ intros [H|H]; [|now apply Hs].
              apply Hp; cbn [map]; now left.
           ++ intros Hin; apply Hp; cbn [map]; now right.
Qed.

Lemma first_new_NoDup {A : Type} (rid : A -> Z) (xs : list A) :
  forall seen, NoDup (map rid (first_new rid seen xs)).
Proof.
  induction xs as [|x xs IH]; intros seen; cbn [first_new]; [constructor|].
  destruct (existsb (Z.eqb (rid x)) seen); [apply IH|].
  cbn [map]. constructor; [|apply IH].
  intros H; apply in_map_iff in H as (y & Hy & H).
  apply first_new_spec in H as (pre & post & _ & Hs & _).
  apply Hs; now left.
Qed.

(** The contact import appends the first row of every new id. *)
Lemma contact_import_rows_first (rows : list csv_row) :
  forall parsed l seen,
    mapM ContactManager.of_row rows = Ok parsed ->
    (forall z, In z seen <-> In z (map Contact.id l)) ->
    ContactManager.import_rows rows l
    = (Ok tt, l ++ first_new Contact.id seen parsed).
Proof.
  induction rows as [|row rows IH]; intros parsed l seen H Hseen.
  - injection H as <-; simpl; now rewrite app_nil_r.
  - apply mapM_cons_ok in H as (c & ps & Hc & Hps & ->).
    cbn [ContactManager.import_rows first_new]; rewrite Hc.
    assert (E : existsb (fun x => Contact.id x =? Contact.id c) l
                = existsb (Z.eqb (Contact.id c)) seen).
    { apply Bool.eq_iff_eq_true. rewrite existsb_eqb_in, Hseen, in_map_iff.
      rewrite existsb_exists. split.
      - intros (x & Hx & E). apply Z.eqb_eq in E. eauto.
      - intros (x & E & Hx). exists x; split; [exact Hx|now apply Z.eqb_eq]. }
    rewrite E. destruct (existsb (Z.eqb (Contact.id c)) seen).
    + now apply IH.
    + rewrite (IH ps (l ++ [c]) (Contact.id c :: seen) Hps).
      * now rewrite <- app_assoc.
      * intros z. rewrite map_app, in_app_iff, <- Hseen. cbn [map In].
        tauto.
Qed.

(** C7.  A contact import converts every row to the contact its cells spell
    and appends, in file order, the first row of every id the collection
    does not hold yet: a row whose id is already held, or is carried by an
    earlier row of the file, is skipped, so the import creates no duplicate
    id.  A note import appends one note per row, with the title and content
    of the row, its timestamp (the time of the import when that cell is
    empty), and ids counted up from the highest id held plus one; the id
    column is not read.  Importing the same file twice therefore appends two
    full copies of its rows, the second under ids above all ids of the
    first. *)
Theorem import_contacts_dedup_notes_duplicate
    (rows : list csv_row) (parsed : list Contact.t) (cm : ContactManager.t)
    (now1 now2 : string) (nrows : list csv_row)
    (cs : list (string * string * string)) (nm : NoteManager.t)
    (Hparsed : mapM ContactManager.of_row rows = Ok parsed)
    (Hcells : mapM NoteManager.cells nrows = Ok cs)
    (Hrows : nrows <> []) :
  (let after := ContactManager.import_from_csv (Some rows) cm in
   let added := first_new Contact.id (contact_ids cm) parsed in
   fst after = Ok tt
   /\ Forall2 contact_columns rows parsed
   /\ ContactManager.contacts (snd after) = ContactManager.contacts cm ++ added
   /\ NoDup (map Contact.id added)
   /\ (forall c,
          In c added
          <-> exists pre post,
                parsed = pre ++ c :: post
                /\ ~ In (Contact.id c) (contact_ids cm)
                /\ ~ In (Contact.id c) (map Contact.id pre))
   /\ (forall c, In c parsed ->
                 In (Contact.id c) (contact_ids cm ++ map Contact.id added))
   /\ (NoDup (contact_ids cm) -> NoDup (contact_ids (snd after))))
  /\ (let k := max_default (note_ids nm) + 1 in
      let n := Z.of_nat (List.length nrows) in
      let first := NoteManager.import_from_csv now1 (Some nrows) nm in
      let second := NoteManager.import_from_csv now2 (Some nrows) (snd first) in
      fst first = Ok tt
      /\ fst second = Ok tt
      /\ Forall2 note_columns nrows cs
      /\ NoteManager.notes (snd first)
         = NoteManager.notes nm ++ row_notes now1 k cs
      /\ NoteManager.notes (snd second)
         = NoteManager.notes nm ++ row_notes now1 k cs
           ++ row_notes now2 (k + n) cs
      /\ List.length (row_notes now1 k cs) = List.length nrows
      /\ List.length (row_notes now2 (k + n) cs) = List.length nrows
      /\ (forall i ti c ts,
             nth_error cs i = Some (ti, c, ts) ->
             nth_error (row_notes now1 k cs) i
             = Some (Note.mk (k + Z.of_nat i) ti c
                       (if truthy ts then ts else now1))
             /\ nth_error (row_notes now2 (k + n) cs) i
                = Some (Note.mk (k + n + Z.of_nat i) ti c
                          (if truthy ts then ts else now2)))
      /\ (forall a b,
             In a (NoteManager.notes nm ++ row_notes now1 k cs) ->
             In b (row_notes now2 (k + n) cs) ->
             Note.id a < Note.id b)).
Proof.
  split.
  - intros after added.
    assert (Hrun : ContactManager.import_rows rows (ContactManager.contacts cm)
                   = (Ok tt, ContactManager.contacts cm ++ added)).
    { apply contact_import_rows_first; [exact Hparsed|]. intros z; reflexivity. }
    assert (Hafter : fst after = Ok tt
                     /\ ContactManager.contacts (snd after)
                        = ContactManager.contacts cm ++ added).
    { subst after; unfold ContactManager.import_from_csv. rewrite Hrun.
      split; reflexivity. }
    destruct Hafter as (Hok & Heq).
    assert (Hfresh : forall c, In c added ->
                               ~ In (Contact.id c) (contact_ids cm)).
    { intros c Hc. apply first_new_spec in Hc as (pre & post & _ & Hs & _).
      exact Hs. }
    split; [exact Hok|]. split.
    { eapply mapM_Forall2; [|exact Hparsed]. apply contact_of_row_columns. }
    split; [exact Heq|]. split; [apply first_new_NoDup|]. split.
    { intros c; apply first_new_spec. }
    split.
    + intros c Hc.
      destruct (contact_import_rows_total rows parsed
                  (ContactManager.contacts cm) Hparsed) as (_ & Hin).
      specialize (Hin c Hc). rewrite Hrun in Hin; cbn [snd] in Hin.
      now rewrite map_app in Hin.
    + intros Hnd. unfold contact_ids at 1. rewrite Heq, map_app.
      apply NoDup_app; [exact Hnd|apply first_new_NoDup|].
      intros z Hz Hz'. apply in_map_iff in Hz' as (c & <- & Hc).
      now apply (Hfresh c Hc).
  - intros k n first second.
    assert (Hlen : List.length cs = List.length nrows)
      by (eapply mapM_length; eauto).
    destruct (note_import_appends now1 nrows cs nm Hcells Hrows) as (Hf & Hn1).
    fold first in Hf, Hn1; fold k in Hn1.
    destruct (note_import_appends now2 nrows cs (snd first) Hcells Hrows)
      as (Hs & Hn2).
    fold second in Hs, Hn2.
    assert (Hk2 : max_default (note_ids (snd first)) + 1 = k + n).
    { unfold note_ids; rewrite Hn1, map_app.
      subst k; unfold note_ids. rewrite max_default_minted. subst n; lia. }
    rewrite Hk2, Hn1, <- app_assoc in Hn2.
    assert (Hmint : forall now j, minted now j cs = row_notes now j cs).
    { intros now. clear.
      induction cs as [|[[ti c] ts] cs IH]; intros j; [reflexivity|].
      cbn [minted row_notes]. rewrite IH.
      unfold Note.init, truthy_opt. reflexivity. }
    rewrite !Hmint in Hn1, Hn2.
    assert (Hrange : forall now j b,
               In b (row_notes now j cs) ->
               j <= Note.id b < j + Z.of_nat (List.length cs)).
    { intros now j b Hb. rewrite <- Hmint in Hb.
      now apply minted_ids_range in Hb. }
    split; [exact Hf|]. split; [exact Hs|]. split.
    { eapply mapM_Forall2; [|exact Hcells]. apply note_cells_columns. }
    split; [exact Hn1|]. split; [exact Hn2|]. split.
    { now rewrite <- Hmint, minted_length. }
    split.
    { now rewrite <- Hmint, minted_length. }
    split.
    + intros i ti c ts Hi. split; now apply row_notes_nth.
    + intros a b Ha Hb. apply Hrange in Hb.
      apply in_app_iff in Ha as [Ha|Ha].
      * assert (Note.id a <= max_default (note_ids nm))
          by (apply max_default_ge; unfold note_ids; now apply in_map).
        subst k; lia.
      * apply Hrange in Ha. subst n; lia.
Qed.

Lemma import_contacts_dedup_witness :
  mapM ContactManager.of_row contact_rows
  = Ok [Contact.mk 1 "Robert" (Some "") (Some "");
        Contact.mk 4 "Dana" (Some "123-45-67") (Some "");
        Contact.mk 4 "Dan" (Some "") (Some "")]
  /\ mapM NoteManager.cells note_rows
     = Ok [("Shopping", "milk", "04-03-2024 09:30:00");
           ("Call", "", "04-03-2024 09:31:00")]
  /\ note_rows <> []
  /\ ContactManager.contacts
       (snd (ContactManager.import_from_csv (Some contact_rows)
               (ContactManager.mk None [sample_contact] [])))
     = [sample_contact; Contact.mk 4 "Dana" (Some "123-45-67") (Some "")]
  /\ NoteManager.notes
       (snd (NoteManager.import_from_csv "05-03-2024 10:05:00" (Some note_rows)
               (snd (NoteManager.import_from_csv "05-03-2024 10:00:00"
                       (Some note_rows)
                       (NoteManager.mk None [sample_note] [])))))
     = [sample_note;
        Note.mk 2 "Shopping" "milk" "04-03-2024 09:30:00";
        Note.mk 3 "Call" "" "04-03-2024 09:31:00";
        Note.mk 4 "Shopping" "milk" "04-03-2024 09:30:00";
        Note.mk 5 "Call" "" "04-03-2024 09:31:00"].
Proof.
  split; [reflexivity|]. split; [reflexivity|]. split; [discriminate|].
  refine (let T := import_contacts_dedup_notes_duplicate
                     contact_rows _
                     (ContactManager.mk None [sample_contact] [])
                     "05-03-2024 10:00:00" "05-03-2024 10:05:00" note_rows _
                     (NoteManager.mk None [sample_note] [])
                     eq_refl eq_refl
                     (fun H : note_rows = [] =>
                        eq_ind note_rows
                          (fun l => match l with [] => False | _ => True end)
                          I [] H) in _).
  split.
  - exact (proj1 (proj2 (proj2 (proj1 T)))).
  - exact (proj1 (proj2 (proj2 (proj2 (proj2 (proj2 T)))))).
Defined.

(** The two imports on the sample files, evaluated. *)
Example import_contacts_sample :
  map Contact.id
    (ContactManager.contacts
       (snd (ContactManager.import_from_csv (Some contact_rows)
               (ContactManager.mk None [sample_contact] []))))
  = [1; 4].
Proof. reflexivity. Qed.

(** Of the two rows carrying id 4 the first one is kept. *)
Example import_contacts_first_row_kept :
  map Contact.name
    (ContactManager.contacts
       (snd (ContactManager.import_from_csv (Some contact_rows)
               (ContactManager.mk None [sample_contact] []))))
  = ["Bob"; "Dana"].
Proof. reflexivity. Qed.

Example import_notes_twice_sample :
  map Note.id
    (NoteManager.notes
       (snd (NoteManager.import_from_csv "05-03-2024 10:05:00" (Some note_rows)
               (snd (NoteManager.import_from_csv "05-03-2024 10:00:00"
                       (Some note_rows)
                       (NoteManager.mk None [sample_note] []))))))
  = [1; 2; 3; 4; 5].
Proof. reflexivity. Qed.

(** * Further properties of the managers *)

(** ** Distinct ids *)

Lemma NoDup_snoc_next (ids : list Z) :
  NoDup ids -> NoDup (ids ++ [max_default ids + 1]).
Proof.
  intros H. apply NoDup_app; [exact H|repeat constructor; simpl; tauto|].
  intros x Hx [<-|[]]. apply max_default_ge in Hx; lia.
Qed.

Lemma map_remaining {A : Type} (rid : A -> Z) (t : target) (l : list A) :
  map rid (remaining rid t l) = remaining (fun z => z) t (map rid l).
Proof.
  destruct t as [|i]; simpl; [reflexivity|].
  induction l as [|a l IH]; simpl; [reflexivity|].
  destruct (rid a =? i); simpl; now rewrite IH.
Qed.

Lemma NoDup_remaining {A : Type} (rid : A -> Z) (t : target) (l : list A) :
  NoDup (map rid l) -> NoDup (map rid (remaining rid t l)).
Proof.
  intros H; rewrite map_remaining. destruct t as [|i]; simpl.
  - constructor.
  - now apply NoDup_filter.
Qed.

Lemma map_update_first {A : Type} (rid : A -> Z) (p : A -> bool) (f : A -> A)
    (l : list A) :
  (forall a, rid (f a) = rid a) ->
  map rid (NoteManager.update_first p f l) = map rid l.
Proof.
  intros Hf; induction l as [|a l IH]; simpl; [reflexivity|].
  destruct (p a); simpl; [now rewrite Hf|now rewrite IH].
Qed.

Lemma NoDup_minted (now : string) (cs : list (string * string * string)) :
  forall ids,
    NoDup ids ->
    NoDup (ids ++ map Note.id (minted now (max_default ids + 1) cs)).
Proof.
  induction cs as [|[[ti c] ts] cs IH]; intros ids H.
  - simpl; now rewrite app_nil_r.
  - cbn [minted map Note.init Note.id].
    change (ids ++ (max_default ids + 1)
                :: map Note.id (minted now (max_default ids + 1 + 1) cs))
      with (ids ++ [max_default ids + 1]
                ++ map Note.id (minted now (max_default ids + 1 + 1) cs)).
    rewrite app_assoc.
    pose proof (IH (ids ++ [max_default ids + 1]) (NoDup_snoc_next ids H)) as H'.
    now rewrite max_default_next in H'.
Qed.

(** Whatever the rows, the note import leaves the collection extended by
    notes numbered upwards from the first free id (those of the rows read
    before a row lacking a column, if any). *)
Lemma note_import_rows_prefix (now : string) (rows : list csv_row) :
  forall last l, exists cs,
    snd (NoteManager.import_rows now rows last l)
    = l ++ minted now (max_default (map Note.id l) + 1) cs
    /\ (List.length cs <= List.length rows)%nat.
Proof.
  induction rows as [|row rows IH]; intros last l; simpl.
  - exists []; simpl; rewrite app_nil_r; auto.
  - destruct (NoteManager.cells row) as [[[ti c] ts]|e].
    + destruct (IH (Some row)
                   (l ++ [Note.init now (max_default (map Note.id l) + 1) ti c
                            (Some ts)])) as (cs & Heq & Hlen).
      rewrite map_app in Heq; cbn [map Note.init Note.id] in Heq.
      rewrite max_default_next, <- app_assoc in Heq.
      exists ((ti, c, ts) :: cs); split; [exact Heq|simpl; lia].
    + exists []; simpl; rewrite app_nil_r; split; [reflexivity|lia].
Qed.

Lemma note_import_notes (now : string) (csv : option (list csv_row))
    (nm : NoteManager.t) :
  exists cs,
    NoteManager.notes (snd (NoteManager.import_from_csv now csv nm))
    = NoteManager.notes nm ++ minted now (max_default (note_ids nm) + 1) cs.
Proof.
  destruct csv as [rows|]; simpl.
  - destruct (note_import_rows_prefix now rows None (NoteManager.notes nm))
      as (cs & Heq & _).
    exists cs.
    destruct (NoteManager.import_rows now rows None (NoteManager.notes nm))
      as [[[row|]|e] l]; simpl in *; exact Heq.
  - exists []; simpl; now rewrite app_nil_r.
Qed.

Lemma delete_note_notes (t : target) (nm : NoteManager.t) :
  NoteManager.notes (NoteManager.delete_note t nm)
  = remaining Note.id t (NoteManager.notes nm).
Proof.
  destruct t as [|i]; [reflexivity|]. unfold NoteManager.delete_note.
  destruct (existsb (fun n => Note.id n =? i) (NoteManager.notes nm)) eqn:E;
    [reflexivity|].
  simpl; symmetry; apply filter_absent. intros x Hx Hid.
  assert (existsb (fun n => Note.id n =? i) (NoteManager.notes nm) = true)
    by (apply existsb_exists; exists x; split; [auto|now apply Z.eqb_eq]).
  congruence.
Qed.

(** X1. Distinct ids are an invariant of the note manager: creating, editing,
    deleting and importing (also an import that stops on a bad row) keep the
    ids of the collection pairwise distinct; editing keeps the ids as they
    are. *)
Theorem note_manager_keeps_ids_distinct (now : string) (nm : NoteManager.t)
    (Hdistinct : NoDup (note_ids nm)) :
  (forall ti c, NoDup (note_ids (snd (NoteManager.create_note now ti c nm))))
  /\ (forall i a1 a2,
         note_ids (snd (NoteManager.edit_note now i a1 a2 nm)) = note_ids nm)
  /\ (forall t, NoDup (note_ids (NoteManager.delete_note t nm)))
  /\ (forall csv, NoDup (note_ids (snd (NoteManager.import_from_csv now csv nm)))).
Proof.
  split; [|split; [|split]].
  - intros ti c; unfold note_ids; simpl. rewrite map_app; simpl.
    now apply NoDup_snoc_next.
  - intros i a1 a2; unfold note_ids, NoteManager.edit_note.
    destruct (NoteManager.view_note_details i nm); simpl; [|reflexivity].
    now apply map_update_first.
  - intros t. unfold note_ids; rewrite delete_note_notes.
    now apply NoDup_remaining.
  - intros csv. destruct (note_import_notes now csv nm) as (cs & Heq).
    unfold note_ids; rewrite Heq, map_app. now apply NoDup_minted.
Qed.

Lemma task_import_rows_merge (rows : list csv_row) :
  forall l, TaskManager.import_rows rows l
            = merge_rows Task.id TaskManager.of_row rows l.
Proof.
  induction rows as [|row rows IH]; intros l; simpl; [reflexivity|].
  destruct (TaskManager.of_row row); [apply IH|reflexivity].
Qed.

Lemma contact_import_rows_merge (rows : list csv_row) :
  forall l, ContactManager.import_rows rows l
            = merge_rows Contact.id ContactManager.of_row rows l.
Proof.
  induction rows as [|row rows IH]; intros l; simpl; [reflexivity|].
  destruct (ContactManager.of_row row); [apply IH|reflexivity].
Qed.

Section Merge.

Context {A : Type}.
Variable rid : A -> Z.
Variable of_row : csv_row -> res A.

Lemma existsb_id_false (x : A) (l : list A) :
  existsb (fun y => rid y =? rid x) l = false -> ~ In (rid x) (map rid l).
Proof.
  intros Hex Hin; apply in_map_iff in Hin as (y & Hy & Hin).
  assert (existsb (fun y => rid y =? rid x) l = true)
    by (apply existsb_exists; exists y; split; [auto|now apply Z.eqb_eq]).
  congruence.
Qed.

Lemma existsb_id_true (x : A) (l : list A) :
  existsb (fun y => rid y =? rid x) l = true -> In (rid x) (map rid l).
Proof.
  intros Hex; apply existsb_exists in Hex as (y & Hy & E).
  apply Z.eqb_eq in E; rewrite <- E; now apply in_map.
Qed.

Lemma merge_rows_appends (rows : list csv_row) :
  forall l, exists added,
    snd (merge_rows rid of_row rows l) = l ++ added
    /\ NoDup (map rid added)
    /\ forall x, In x added ->
                 ~ In (rid x) (map rid l)
                 /\ exists row, In row rows /\ of_row row = Ok x.
Proof.
  induction rows as [|row rows IH]; intros l; simpl.
  - exists []; rewrite app_nil_r.
    split; [reflexivity|]. split; [constructor|]. intros x [].
  - destruct (of_row row) as [x|e] eqn:Hrow; simpl.
    2:{ exists []; rewrite app_nil_r.
        split; [reflexivity|]. split; [constructor|]. intros x []. }
    destruct (existsb (fun y => rid y =? rid x) l) eqn:Hex.
    + destruct (IH l) as (added & Heq & Hnd & Hall).
      exists added. split; [exact Heq|]. split; [exact Hnd|].
      intros y Hy; destruct (Hall y Hy) as (Hout & r & Hr & Hok); eauto.
    + destruct (IH (l ++ [x])) as (added & Heq & Hnd & Hall).
      exists (x :: added); rewrite Heq, <- app_assoc; simpl.
      split; [reflexivity|]. split.
      * constructor; [|exact Hnd].
        intros Hin; apply in_map_iff in Hin as (y & Hy & Hin).
        destruct (Hall y Hin) as (Hout & _); apply Hout.
        rewrite map_app, in_app_iff; right; simpl; auto.
      * intros y [<-|Hy].
        -- split; [now apply existsb_id_false|eauto].
        -- destruct (Hall y Hy) as (Hout & r & Hr & Hok). split; [|eauto].
           intros Hin; apply Hout. rewrite map_app, in_app_iff; auto.
Qed.

Lemma merge_rows_distinct (rows : list csv_row) (l : list A) :
  NoDup (map rid l) -> NoDup (map rid (snd (merge_rows rid of_row rows l))).
Proof.
  intros H. destruct (merge_rows_appends rows l) as (added & -> & Hnd & Hall).
  rewrite map_app. apply NoDup_app; auto.
  intros z Hz Hz'. apply in_map_iff in Hz' as (y & <- & Hy).
  now destruct (Hall y Hy).
Qed.

Lemma merge_rows_total (rows : list csv_row) :
  forall parsed l,
    mapM of_row rows = Ok parsed ->
    fst (merge_rows rid of_row rows l) = Ok tt
    /\ forall x, In x parsed ->
                 In (rid x) (map rid (snd (merge_rows rid of_row rows l))).
Proof.
  induction rows as [|row rows IH]; intros parsed l H.
  - injection H as <-; simpl; split; [reflexivity|contradiction].
  - apply mapM_cons_ok in H as (x & ps & Hx & Hps & ->).
    simpl; rewrite Hx.
    set (l' := if existsb (fun y => rid y =? rid x) l then l else l ++ [x]).
    assert (Hx' : In (rid x) (map rid l')).
    { subst l'. destruct (existsb (fun y => rid y =? rid x) l) eqn:Hex.
      - now apply existsb_id_true.
      - rewrite map_app, in_app_iff; right; simpl; auto. }
    destruct (IH ps l' Hps) as (Hok & Hin). split; [exact Hok|].
    intros y [<-|Hy]; [|now apply Hin].
    destruct (merge_rows_appends rows l') as (added & -> & _).
    rewrite map_app, in_app_iff; auto.
Qed.

End Merge.

Lemma task_import_tasks (csv : option (list csv_row)) (tm : TaskManager.t) :
  TaskManager.tasks (snd (TaskManager.import_from_csv csv tm))
  = match csv with
    | Some rows =>
        snd (merge_rows Task.id TaskManager.of_row rows (TaskManager.tasks tm))
    | None => TaskManager.tasks tm
    end.
Proof.
  destruct csv as [rows|]; simpl; [|reflexivity].
  rewrite task_import_rows_merge.
  now destruct (merge_rows Task.id TaskManager.of_row rows (TaskManager.tasks tm))
    as [[u|e] l].
Qed.

Lemma contact_import_contacts (csv : option (list csv_row))
    (cm : ContactManager.t) :
  ContactManager.contacts (snd (ContactManager.import_from_csv csv cm))
  = match csv with
    | Some rows =>
        snd (merge_rows Contact.id ContactManager.of_row rows
               (ContactManager.contacts cm))
    | None => ContactManager.contacts cm
    end.
Proof.
  destruct csv as [rows|]; simpl; [|reflexivity].
  rewrite contact_import_rows_merge.
  now destruct (merge_rows Contact.id ContactManager.of_row rows
                  (ContactManager.contacts cm)) as [[u|e] l].
Qed.

Lemma finance_import_rows_distinct (rows : list csv_row) :
  forall fm, NoDup (finance_ids fm) ->
             NoDup (finance_ids (snd (FinanceManager.import_rows rows fm))).
Proof.
  induction rows as [|row rows IH]; intros fm H; simpl; [exact H|].
  destruct (FinanceManager.row_record row) as [[[[am ca] da] de]|e]; [|exact H].
  apply IH. unfold finance_ids; simpl. rewrite map_app; simpl.
  now apply NoDup_snoc_next.
Qed.

(** X2. Distinct ids are an invariant of the task, contact and finance
    managers: add, edit, mark-done, delete and import keep the ids of the
    collection pairwise distinct, and the edits keep the ids as they are. *)
Theorem managers_keep_ids_distinct
    (tm : TaskManager.t) (cm : ContactManager.t) (fm : FinanceManager.t)
    (Ht : NoDup (task_ids tm)) (Hc : NoDup (contact_ids cm))
    (Hf : NoDup (finance_ids fm)) :
  ((forall ti de pr du,
       NoDup (task_ids (snd (TaskManager.add_task ti de pr du tm))))
   /\ (forall i a1 a2 a3 a4,
          task_ids (snd (TaskManager.edit_task i a1 a2 a3 a4 tm)) = task_ids tm)
   /\ (forall i, task_ids (snd (TaskManager.mark_task_done i tm)) = task_ids tm)
   /\ (forall t, NoDup (task_ids (TaskManager.delete_task t tm)))
   /\ (forall csv, NoDup (task_ids (snd (TaskManager.import_from_csv csv tm)))))
  /\ ((forall na ph em,
          NoDup (contact_ids (snd (ContactManager.add_contact na ph em cm))))
      /\ (forall i a1 a2 a3,
             contact_ids (snd (ContactManager.edit_contact i a1 a2 a3 cm))
             = contact_ids cm)
      /\ (forall t, NoDup (contact_ids (ContactManager.delete_contact t cm)))
      /\ (forall csv,
             NoDup (contact_ids (snd (ContactManager.import_from_csv csv cm)))))
  /\ ((forall am ca da de,
          NoDup (finance_ids (FinanceManager.add_record am ca da de fm)))
      /\ (forall t, NoDup (finance_ids (FinanceManager.delete_record t fm)))
      /\ (forall csv,
             NoDup (finance_ids (snd (FinanceManager.import_from_csv csv fm))))).
Proof.
  split; [|split].
  - split; [|split; [|split; [|split]]].
    + intros; unfold task_ids; simpl. rewrite map_app; simpl.
      now apply NoDup_snoc_next.
    + intros i a1 a2 a3 a4; unfold task_ids, TaskManager.edit_task.
      destruct (TaskManager.view_task_details i tm); simpl; [|reflexivity].
      now apply map_update_first.
    + intros i; unfold task_ids, TaskManager.mark_task_done.
      destruct (TaskManager.view_task_details i tm); simpl; [|reflexivity].
      now apply map_update_first.
    + intros t; unfold task_ids. destruct t; simpl; [constructor|].
      now apply (NoDup_remaining Task.id (ById i)).
    + intros csv; unfold task_ids; rewrite task_import_tasks.
      destruct csv; [now apply merge_rows_distinct|exact Ht].
  - split; [|split; [|split]].
    + intros; unfold contact_ids; simpl. rewrite map_app; simpl.
      now apply NoDup_snoc_next.
    + intros i a1 a2 a3; unfold contact_ids, ContactManager.edit_contact.
      destruct (ContactManager.get_contact_by_id i cm); simpl; [|reflexivity].
      now apply map_update_first.
    + intros t; unfold contact_ids. destruct t; simpl; [constructor|].
      now apply (NoDup_remaining Contact.id (ById i)).
    + intros csv; unfold contact_ids; rewrite contact_import_contacts.
      destruct csv; [now apply merge_rows_distinct|exact Hc].
  - split; [|split].
    + intros; unfold finance_ids; simpl. rewrite map_app; simpl.
      now apply NoDup_snoc_next.
    + intros t; unfold finance_ids. destruct t; simpl; [constructor|].
      now apply (NoDup_remaining FinanceRecord.id (ById i)).
    + intros [rows|]; simpl; [now apply finance_import_rows_distinct|exact Hf].
Qed.

Lemma note_manager_keeps_ids_distinct_witness :
  NoDup (note_ids (NoteManager.mk None [sample_note] []))
  /\ NoDup (note_ids
              (snd (NoteManager.import_from_csv "05-03-2024 10:00:00"
                      (Some note_rows)
                      (NoteManager.mk None [sample_note] [])))).
Proof.
  assert (H : NoDup (note_ids (NoteManager.mk None [sample_note] [])))
    by (repeat constructor; simpl; tauto).
  split; [exact H|].
  exact (proj2 (proj2 (proj2 (note_manager_keeps_ids_distinct
                                "05-03-2024 10:00:00"
                                (NoteManager.mk None [sample_note] []) H)))
           (Some note_rows)).
Defined.

Lemma managers_keep_ids_distinct_witness :
  NoDup (task_ids (TaskManager.mk None [sample_task] []))
  /\ NoDup (contact_ids (ContactManager.mk None [sample_contact] []))
  /\ NoDup (finance_ids (FinanceManager.mk None [sample_record] []))
  /\ NoDup (contact_ids
              (snd (ContactManager.import_from_csv (Some contact_rows)
                      (ContactManager.mk None [sample_contact] [])))).
Proof.
  assert (Ht : NoDup (task_ids (TaskManager.mk None [sample_task] [])))
    by (repeat constructor; simpl; tauto).
  assert (Hc : NoDup (contact_ids (ContactManager.mk None [sample_contact] [])))
    by (repeat constructor; simpl; tauto).
  assert (Hf : NoDup (finance_ids (FinanceManager.mk None [sample_record] [])))
    by (repeat constructor; simpl; tauto).
  split; [exact Ht|]. split; [exact Hc|]. split; [exact Hf|].
  exact (proj2 (proj2 (proj2 (proj1 (proj2
           (managers_keep_ids_distinct _ _ _ Ht Hc Hf)))))
           (Some contact_rows)).
Defined.

(** ** The backing file follows the collection *)

Lemma note_import_outcome (now : string) (rows : list csv_row)
    (nm : NoteManager.t) :
  (fst (NoteManager.import_from_csv now (Some rows) nm) = Ok tt
   /\ note_synced (snd (NoteManager.import_from_csv now (Some rows) nm)))
  \/ (exists e,
         fst (NoteManager.import_from_csv now (Some rows) nm) = Raise e
         /\ NoteManager.storage_file
              (snd (NoteManager.import_from_csv now (Some rows) nm))
            = NoteManager.storage_file nm
         /\ NoteManager.trace
              (snd (NoteManager.import_from_csv now (Some rows) nm))
            = NoteManager.trace nm).
Proof.
  unfold NoteManager.import_from_csv.
  destruct (NoteManager.import_rows now rows None (NoteManager.notes nm))
    as [[[row|]|e] l]; simpl.
  - left; split; reflexivity.
  - right; exists NameError; auto.
  - right; exists e; auto.
Qed.

(** X3. The note manager keeps its backing file in step with the collection:
    after create, edit, delete and a completed import the file holds the
    serialisation of the in-memory list (given it did before, for the calls
    that find nothing to change).  An import that raises writes nothing:
    file and trace stay as they were, whatever it appended in memory. *)
Theorem note_manager_file_in_step (now : string) (nm : NoteManager.t)
    (Hsync : note_synced nm) :
  (forall ti c, note_synced (snd (NoteManager.create_note now ti c nm)))
  /\ (forall i a1 a2, note_synced (snd (NoteManager.edit_note now i a1 a2 nm)))
  /\ (forall t, note_synced (NoteManager.delete_note t nm))
  /\ (forall csv,
         fst (NoteManager.import_from_csv now csv nm) = Ok tt ->
         note_synced (snd (NoteManager.import_from_csv now csv nm)))
  /\ (forall csv e,
         fst (NoteManager.import_from_csv now csv nm) = Raise e ->
         NoteManager.storage_file (snd (NoteManager.import_from_csv now csv nm))
         = NoteManager.storage_file nm
         /\ NoteManager.trace (snd (NoteManager.import_from_csv now csv nm))
            = NoteManager.trace nm).
Proof.
  split; [|split; [|split; [|split]]].
  - intros; reflexivity.
  - intros i a1 a2; unfold NoteManager.edit_note.
    destruct (NoteManager.view_note_details i nm); [reflexivity|exact Hsync].
  - intros [|i]; [reflexivity|]. unfold NoteManager.delete_note.
    destruct (existsb (fun n => Note.id n =? i) (NoteManager.notes nm));
      [reflexivity|exact Hsync].
  - intros [rows|] H; [|discriminate].
    destruct (note_import_outcome now rows nm) as [[_ Hs]|(e & He & _)];
      [exact Hs|congruence].
  - intros [rows|] e H; [|split; reflexivity].
    destruct (note_import_outcome now rows nm) as [[Hok _]|(e' & _ & Hf & Ht)];
      [congruence|auto].
Qed.

Lemma note_manager_file_in_step_witness :
  note_synced (NoteManager.save_notes (NoteManager.mk None [sample_note] []))
  /\ note_synced
       (NoteManager.delete_note (ById 9)
          (NoteManager.save_notes (NoteManager.mk None [sample_note] []))).
Proof.
  split; [reflexivity|].
  exact (proj1 (proj2 (proj2 (note_manager_file_in_step "05-03-2024 10:00:00"
                  (NoteManager.save_notes (NoteManager.mk None [sample_note] []))
                  eq_refl))) (ById 9)).
Defined.

Lemma finance_import_rows_synced (rows : list csv_row) :
  forall fm, finance_synced fm ->
             finance_synced (snd (FinanceManager.import_rows rows fm)).
Proof.
  induction rows as [|row rows IH]; intros fm H; simpl; [exact H|].
  destruct (FinanceManager.row_record row) as [[[[am ca] da] de]|e]; [|exact H].
  apply IH; reflexivity.
Qed.

Lemma task_reload (tm : TaskManager.t) :
  task_synced tm ->
  TaskManager.init (TaskManager.storage_file tm)
  = Ok (TaskManager.mk (TaskManager.storage_file tm) (TaskManager.tasks tm) []).
Proof.
  intros H; unfold task_synced in H; rewrite H; unfold TaskManager.init; simpl.
  rewrite (mapM_map_id Task.to_dict Task.from_dict (fun _ => True))
    by (auto using task_from_to_dict, Forall_trivial).
  reflexivity.
Qed.

Lemma contact_reload (cm : ContactManager.t) :
  contact_synced cm ->
  ContactManager.init (ContactManager.storage_file cm)
  = Ok (ContactManager.mk (ContactManager.storage_file cm)
          (ContactManager.contacts cm) []).
Proof.
  intros H; unfold contact_synced in H; rewrite H; unfold ContactManager.init; simpl.
  rewrite (mapM_map_id Contact.to_dict Contact.from_dict (fun _ => True))
    by (auto using contact_from_to_dict, Forall_trivial).
  reflexivity.
Qed.

Lemma finance_reload (fm : FinanceManager.t) :
  finance_synced fm ->
  FinanceManager.init (FinanceManager.file_path fm)
  = Ok (FinanceManager.mk (FinanceManager.file_path fm)
          (FinanceManager.records fm) []).
Proof.
  intros H; unfold finance_synced in H; rewrite H; unfold FinanceManager.init; simpl.
  rewrite (mapM_map_id FinanceRecord.to_dict FinanceRecord.from_dict
             (fun _ => True))
    by (auto using finance_from_to_dict, Forall_trivial).
  reflexivity.
Qed.

(** X4. The task, contact and finance managers keep the backing file in step
    with the collection across add, edit, mark-done, delete and a completed
    import, so a manager constructed afterwards over that file holds the same
    collection.  A task or contact import that raises leaves the file as it
    was; the finance import saves row by row and stays in step even when a
    later row raises. *)
Theorem managers_file_in_step
    (tm : TaskManager.t) (cm : ContactManager.t) (fm : FinanceManager.t)
    (Ht : task_synced tm) (Hc : contact_synced cm) (Hf : finance_synced fm) :
  ((forall ti de pr du, task_synced (snd (TaskManager.add_task ti de pr du tm)))
   /\ (forall i a1 a2 a3 a4,
          task_synced (snd (TaskManager.edit_task i a1 a2 a3 a4 tm)))
   /\ (forall i, task_synced (snd (TaskManager.mark_task_done i tm)))
   /\ (forall t, task_synced (TaskManager.delete_task t tm))
   /\ (forall csv,
          fst (TaskManager.import_from_csv csv tm) = Ok tt ->
          task_synced (snd (TaskManager.import_from_csv csv tm)))
   /\ (forall csv e,
          fst (TaskManager.import_from_csv csv tm) = Raise e ->
          TaskManager.storage_file (snd (TaskManager.import_from_csv csv tm))
          = TaskManager.storage_file tm)
   /\ (forall tm', task_synced tm' ->
                   TaskManager.init (TaskManager.storage_file tm')
                   = Ok (TaskManager.mk (TaskManager.storage_file tm')
                           (TaskManager.tasks tm') [])))
  /\ ((forall na ph em,
          contact_synced (snd (ContactManager.add_contact na ph em cm)))
      /\ (forall i a1 a2 a3,
             contact_synced (snd (ContactManager.edit_contact i a1 a2 a3 cm)))
      /\ (forall t, contact_synced (ContactManager.delete_contact t cm))
      /\ (forall csv,
             fst (ContactManager.import_from_csv csv cm) = Ok tt ->
             contact_synced (snd (ContactManager.import_from_csv csv cm)))
      /\ (forall csv e,
             fst (ContactManager.import_from_csv csv cm) = Raise e ->
             ContactManager.storage_file
               (snd (ContactManager.import_from_csv csv cm))
             = ContactManager.storage_file cm)
      /\ (forall cm', contact_synced cm' ->
                      ContactManager.init (ContactManager.storage_file cm')
                      = Ok (ContactManager.mk (ContactManager.storage_file cm')
                              (ContactManager.contacts cm') [])))
  /\ ((forall am ca da de,
          finance_synced (FinanceManager.add_record am ca da de fm))
      /\ (forall t, finance_synced (FinanceManager.delete_record t fm))
      /\ (forall csv,
             finance_synced (snd (FinanceManager.import_from_csv csv fm)))
      /\ (forall fm', finance_synced fm' ->
                      FinanceManager.init (FinanceManager.file_path fm')
                      = Ok (FinanceManager.mk (FinanceManager.file_path fm')
                              (FinanceManager.records fm') []))).
Proof.
  split; [|split].
  - split; [|split; [|split; [|split; [|split; [|split]]]]].
    + intros; reflexivity.
    + intros i a1 a2 a3 a4; unfold TaskManager.edit_task.
      destruct (TaskManager.view_task_details i tm); [reflexivity|exact Ht].
    + intros i; unfold TaskManager.mark_task_done.
      destruct (TaskManager.view_task_details i tm); [reflexivity|exact Ht].
    + intros [|i]; reflexivity.
    + intros [rows|]; simpl; [|discriminate].
      destruct (TaskManager.import_rows rows (TaskManager.tasks tm))
        as [[u|e] l]; simpl; [reflexivity|discriminate].
    + intros [rows|] e; simpl; [|reflexivity].
      destruct (TaskManager.import_rows rows (TaskManager.tasks tm))
        as [[u|e'] l]; simpl; [discriminate|reflexivity].
    + exact task_reload.
  - split; [|split; [|split; [|split; [|split]]]].
    + intros; reflexivity.
    + intros i a1 a2 a3; unfold ContactManager.edit_contact.
      destruct (ContactManager.get_contact_by_id i cm); [reflexivity|exact Hc].
    + intros [|i]; reflexivity.
    + intros [rows|]; simpl; [|intros _; exact Hc].
      destruct (ContactManager.import_rows rows (ContactManager.contacts cm))
        as [[u|e] l]; simpl; [reflexivity|discriminate].
    + intros [rows|] e; simpl; [|reflexivity].
      destruct (ContactManager.import_rows rows (ContactManager.contacts cm))
        as [[u|e'] l]; simpl; [discriminate|reflexivity].
    + exact contact_reload.
  - split; [|split; [|split]].
    + intros; reflexivity.
    + intros [|i]; reflexivity.
    + intros [rows|]; simpl; [now apply finance_import_rows_synced|exact Hf].
    + exact finance_reload.
Qed.

Lemma managers_file_in_step_witness :
  task_synced (TaskManager.save_tasks (TaskManager.mk None [sample_task] []))
  /\ contact_synced
       (ContactManager.save_contacts
          (ContactManager.mk None [sample_contact] []))
  /\ finance_synced
       (FinanceManager.save_records
          (FinanceManager.mk None [sample_record] []))
  /\ task_synced
       (snd (TaskManager.mark_task_done 1
               (TaskManager.save_tasks (TaskManager.mk None [sample_task] [])))).
Proof.
  split; [reflexivity|]. split; [reflexivity|]. split; [reflexivity|].
  exact (proj1 (proj2 (proj2 (proj1
           (managers_file_in_step
              (TaskManager.save_tasks (TaskManager.mk None [sample_task] []))
              (ContactManager.save_contacts
                 (ContactManager.mk None [sample_contact] []))
              (FinanceManager.save_records
                 (FinanceManager.mk None [sample_record] []))
              eq_refl eq_refl eq_refl)))) 1).
Defined.

(** ** Looking records up *)

Lemma find_snoc_new {A : Type} (rid : A -> Z) (k : Z) (l : list A) (r : A) :
  (forall x, In x l -> rid x < k) -> rid r = k ->
  find (fun x => rid x =? k) (l ++ [r]) = Some r.
Proof.
  intros Hl Hr; induction l as [|a l IH]; simpl.
  - now rewrite Hr, Z.eqb_refl.
  - destruct (Z.eqb_spec (rid a) k) as [E|E].
    + specialize (Hl a (or_introl eq_refl)); lia.
    + apply IH; intros x Hx; apply Hl; simpl; auto.
Qed.

Lemma below_next {A : Type} (rid : A -> Z) (l : list A) (x : A) :
  In x l -> rid x < max_default (map rid l) + 1.
Proof.
  intros H. assert (rid x <= max_default (map rid l))
    by (apply max_default_ge; now apply in_map).
  lia.
Qed.

Lemma find_remaining {A : Type} (rid : A -> Z) (i j : Z) (l : list A) :
  find (fun x => rid x =? j) (remaining rid (ById i) l)
  = if j =? i then None else find (fun x => rid x =? j) l.
Proof.
  cbn [remaining].
  induction l as [|a l IH]; simpl; [now destruct (j =? i)|].
  destruct (Z.eqb_spec (rid a) i) as [E|E]; simpl.
  - rewrite IH. destruct (Z.eqb_spec j i) as [F|F]; [reflexivity|].
    destruct (Z.eqb_spec (rid a) j); [congruence|reflexivity].
  - destruct (Z.eqb_spec (rid a) j) as [F|F]; [|exact IH].
    destruct (Z.eqb_spec j i); [congruence|reflexivity].
Qed.

Lemma find_id_none {A : Type} (rid : A -> Z) (i : Z) (l : list A) :
  ~ In i (map rid l) -> find (fun x => rid x =? i) l = None.
Proof.
  intros H; induction l as [|a l IH]; simpl; [reflexivity|].
  destruct (Z.eqb_spec (rid a) i) as [E|E].
  - exfalso; apply H; simpl; auto.
  - apply IH; intros Hin; apply H; simpl; auto.
Qed.

(** X5. A record can be looked up right after it was added: the lookup by
    the id just assigned returns the new record, for the four managers. *)
Theorem lookup_finds_added_record :
  (forall now ti c nm,
      NoteManager.view_note_details
        (Note.id (fst (NoteManager.create_note now ti c nm)))
        (snd (NoteManager.create_note now ti c nm))
      = Some (fst (NoteManager.create_note now ti c nm)))
  /\ (forall ti de pr du tm,
         TaskManager.view_task_details
           (Task.id (fst (TaskManager.add_task ti de pr du tm)))
           (snd (TaskManager.add_task ti de pr du tm))
         = Some (fst (TaskManager.add_task ti de pr du tm)))
  /\ (forall na ph em cm,
         ContactManager.get_contact_by_id
           (Contact.id (fst (ContactManager.add_contact na ph em cm)))
           (snd (ContactManager.add_contact na ph em cm))
         = Some (fst (ContactManager.add_contact na ph em cm)))
  /\ (forall am ca da de fm,
         FinanceManager.get_record_by_id
           (max_default (finance_ids fm) + 1)
           (FinanceManager.add_record am ca da de fm)
         = Some (FinanceRecord.mk (max_default (finance_ids fm) + 1)
                   am ca da de)).
Proof.
  split; [|split; [|split]]; intros.
  - unfold NoteManager.view_note_details; simpl.
    apply find_snoc_new; [|reflexivity]. intros x; apply below_next.
  - unfold TaskManager.view_task_details; simpl.
    apply find_snoc_new; [|reflexivity]. intros x; apply below_next.
  - unfold ContactManager.get_contact_by_id; simpl.
    apply find_snoc_new; [|reflexivity]. intros x; apply below_next.
  - unfold FinanceManager.get_record_by_id, finance_ids; simpl.
    apply find_snoc_new; [|reflexivity]. intros x; apply below_next.
Qed.

(** X6. After a delete by id the lookup of that id finds nothing and the
    lookup of any other id answers as before; after ['ALL'] every lookup
    finds nothing.  This holds for the four managers. *)
Theorem lookup_after_delete (i j : Z) (nm : NoteManager.t) (tm : TaskManager.t)
    (cm : ContactManager.t) (fm : FinanceManager.t) :
  (NoteManager.view_note_details j (NoteManager.delete_note (ById i) nm)
   = (if j =? i then None else NoteManager.view_note_details j nm)
   /\ NoteManager.view_note_details j (NoteManager.delete_note ALL nm) = None)
  /\ (TaskManager.view_task_details j (TaskManager.delete_task (ById i) tm)
      = (if j =? i then None else TaskManager.view_task_details j tm)
      /\ TaskManager.view_task_details j (TaskManager.delete_task ALL tm) = None)
  /\ (ContactManager.get_contact_by_id j
        (ContactManager.delete_contact (ById i) cm)
      = (if j =? i then None else ContactManager.get_contact_by_id j cm)
      /\ ContactManager.get_contact_by_id j
           (ContactManager.delete_contact ALL cm) = None)
  /\ (FinanceManager.get_record_by_id j
        (FinanceManager.delete_record (ById i) fm)
      = (if j =? i then None else FinanceManager.get_record_by_id j fm)
      /\ FinanceManager.get_record_by_id j
           (FinanceManager.delete_record ALL fm) = None).
Proof.
  split; [|split; [|split]]; (split; [|reflexivity]).
  - unfold NoteManager.view_note_details. rewrite delete_note_notes.
    apply find_remaining.
  - apply (find_remaining Task.id).
  - apply (find_remaining Contact.id).
  - apply (find_remaining FinanceRecord.id).
Qed.

(** ** Editing *)

Lemma truthy_set (a : option string) (old : string) :
  truthy (match a with
          | Some s => if truthy s then s else old
          | None => old
          end)
  = (truthy_opt a || truthy old)%bool.
Proof.
  destruct a as [s|]; simpl; [|reflexivity].
  destruct (truthy s) eqn:E; [exact E|reflexivity].
Qed.

Lemma truthy_opt_set (a old : option string) :
  truthy_opt (match a with
              | Some s => if truthy s then Some s else old
              | None => old
              end)
  = (truthy_opt a || truthy_opt old)%bool.
Proof.
  destruct a as [s|]; simpl; [|reflexivity].
  destruct (truthy s) eqn:E; [exact E|reflexivity].
Qed.

(** X7. An edit cannot clear a field.  After [update] a text field is
    non-empty exactly when a non-empty value was passed for it or it was
    non-empty before; the id never changes, [Task.update] leaves the done
    flag alone, and [Note.update] always stamps the current time. *)
Theorem update_never_clears (now : string) (a1 a2 a3 a4 : option string)
    (n : Note.t) (x : Task.t) (c : Contact.t) :
  (Note.id (Note.update now a1 a2 n) = Note.id n
   /\ truthy (Note.title (Note.update now a1 a2 n))
      = (truthy_opt a1 || truthy (Note.title n))%bool
   /\ truthy (Note.content (Note.update now a1 a2 n))
      = (truthy_opt a2 || truthy (Note.content n))%bool
   /\ Note.timestamp (Note.update now a1 a2 n) = now)
  /\ (Task.id (Task.update a1 a2 a3 a4 x) = Task.id x
      /\ Task.done (Task.update a1 a2 a3 a4 x) = Task.done x
      /\ truthy (Task.title (Task.update a1 a2 a3 a4 x))
         = (truthy_opt a1 || truthy (Task.title x))%bool
      /\ truthy (Task.description (Task.update a1 a2 a3 a4 x))
         = (truthy_opt a2 || truthy (Task.description x))%bool
      /\ truthy (Task.priority (Task.update a1 a2 a3 a4 x))
         = (truthy_opt a3 || truthy (Task.priority x))%bool
      /\ truthy_opt (Task.due_date (Task.update a1 a2 a3 a4 x))
         = (truthy_opt a4 || truthy_opt (Task.due_date x))%bool)
  /\ (Contact.id (Contact.update a1 a2 a3 c) = Contact.id c
      /\ truthy (Contact.name (Contact.update a1 a2 a3 c))
         = (truthy_opt a1 || truthy (Contact.name c))%bool
      /\ truthy_opt (Contact.phone (Contact.update a1 a2 a3 c))
         = (truthy_opt a2 || truthy_opt (Contact.phone c))%bool
      /\ truthy_opt (Contact.email (Contact.update a1 a2 a3 c))
         = (truthy_opt a3 || truthy_opt (Contact.email c))%bool).
Proof.
  repeat split; simpl; auto using truthy_set, truthy_opt_set.
Qed.

(** X8. Editing or completing an id the collection does not hold returns
    nothing and leaves the manager exactly as it was: no field changes, no
    write to the backing file, nothing printed. *)
Theorem edit_absent_id_changes_nothing
    (now : string) (i : Z) (a1 a2 a3 a4 : option string)
    (nm : NoteManager.t) (tm : TaskManager.t) (cm : ContactManager.t)
    (Hn : ~ In i (note_ids nm)) (Ht : ~ In i (task_ids tm))
    (Hc : ~ In i (contact_ids cm)) :
  NoteManager.edit_note now i a1 a2 nm = (None, nm)
  /\ TaskManager.edit_task i a1 a2 a3 a4 tm = (None, tm)
  /\ TaskManager.mark_task_done i tm = (None, tm)
  /\ ContactManager.edit_contact i a1 a2 a3 cm = (None, cm).
Proof.
  repeat split.
  - unfold NoteManager.edit_note, NoteManager.view_note_details.
    now rewrite (find_id_none Note.id i _ Hn).
  - unfold TaskManager.edit_task, TaskManager.view_task_details.
    now rewrite (find_id_none Task.id i _ Ht).
  - unfold TaskManager.mark_task_done, TaskManager.view_task_details.
    now rewrite (find_id_none Task.id i _ Ht).
  - unfold ContactManager.edit_contact, ContactManager.get_contact_by_id.
    now rewrite (find_id_none Contact.id i _ Hc).
Qed.

Lemma edit_absent_id_witness :
  ~ In 9 (note_ids (NoteManager.mk None [sample_note] []))
  /\ ~ In 9 (task_ids (TaskManager.mk None [sample_task] []))
  /\ ~ In 9 (contact_ids (ContactManager.mk None [sample_contact] []))
  /\ TaskManager.mark_task_done 9 (TaskManager.mk None [sample_task] [])
     = (None, TaskManager.mk None [sample_task] []).
Proof.
  assert (Hn : ~ In 9 (note_ids (NoteManager.mk None [sample_note] [])))
    by (simpl; intros [H|[]]; discriminate).
  assert (Ht : ~ In 9 (task_ids (TaskManager.mk None [sample_task] [])))
    by (simpl; intros [H|[]]; discriminate).
  assert (Hc : ~ In 9 (contact_ids (ContactManager.mk None [sample_contact] [])))
    by (simpl; intros [H|[]]; discriminate).
  split; [exact Hn|]. split; [exact Ht|]. split; [exact Hc|].
  exact (proj1 (proj2 (proj2
           (edit_absent_id_changes_nothing "05-03-2024 10:00:00" 9
              None None None None _ _ _ Hn Ht Hc)))).
Defined.

Lemma update_first_idem {A : Type} (p : A -> bool) (f : A -> A) (l : list A) :
  (forall a, p (f a) = p a) -> (forall a, f (f a) = f a) ->
  NoteManager.update_first p f (NoteManager.update_first p f l)
  = NoteManager.update_first p f l.
Proof.
  intros Hp Hf; induction l as [|a l IH]; simpl; [reflexivity|].
  destruct (p a) eqn:E; simpl.
  - now rewrite Hp, E, Hf.
  - now rewrite E, IH.
Qed.

Lemma update_first_unmatched {A : Type} (p : A -> bool) (f : A -> A)
    (l : list A) :
  find p l = None -> NoteManager.update_first p f l = l.
Proof.
  induction l as [|a l IH]; simpl; [reflexivity|].
  destruct (p a); [discriminate|]. intros H; now rewrite IH.
Qed.

(** X9. Completing a task that is present sets the done flag of the first
    task carrying the id and changes nothing else: no other field, no other
    task, no position.  Completing it again changes nothing more. *)
Theorem mark_task_done_sets_flag_only (i : Z) (tm : TaskManager.t)
    (Hpresent : In i (task_ids tm)) :
  (exists pre x post,
      TaskManager.tasks tm = pre ++ x :: post
      /\ ~ In i (map Task.id pre)
      /\ Task.id x = i
      /\ fst (TaskManager.mark_task_done i tm)
         = Some (Task.mk (Task.id x) (Task.title x) (Task.description x) true
                   (Task.priority x) (Task.due_date x))
      /\ TaskManager.tasks (snd (TaskManager.mark_task_done i tm))
         = pre ++ Task.mk (Task.id x) (Task.title x) (Task.description x) true
                    (Task.priority x) (Task.due_date x) :: post)
  /\ TaskManager.tasks
       (snd (TaskManager.mark_task_done i (snd (TaskManager.mark_task_done i tm))))
     = TaskManager.tasks (snd (TaskManager.mark_task_done i tm)).
Proof.
  split.
  - destruct (update_first_split Task.id i Task.mark_done _ Hpresent)
      as (pre & x & post & Hl & Hpre & Hid & Hfind & Hupd).
    exists pre, x, post.
    unfold TaskManager.mark_task_done, TaskManager.view_task_details.
    rewrite Hfind; simpl. rewrite Hupd. auto.
  - unfold TaskManager.mark_task_done at 1.
    destruct (TaskManager.view_task_details i
                (snd (TaskManager.mark_task_done i tm))); [|reflexivity].
    simpl. unfold TaskManager.mark_task_done.
    destruct (TaskManager.view_task_details i tm) eqn:Hview; simpl.
    + now apply update_first_idem.
    + now apply update_first_unmatched.
Qed.

Lemma mark_task_done_witness :
  In 1 (task_ids (TaskManager.mk None [sample_task; april_task] []))
  /\ TaskManager.tasks
       (snd (TaskManager.mark_task_done 1
               (snd (TaskManager.mark_task_done 1
                       (TaskManager.mk None [sample_task; april_task] [])))))
     = TaskManager.tasks
         (snd (TaskManager.mark_task_done 1
                 (TaskManager.mk None [sample_task; april_task] []))).
Proof.
  assert (H : In 1 (task_ids (TaskManager.mk None [sample_task; april_task] [])))
    by (simpl; auto).
  split; [exact H|].
  exact (proj2 (mark_task_done_sets_flag_only 1 _ H)).
Defined.

(** ** Task filters, for every argument *)

(** X10. For every combination of arguments [list_tasks] returns, in the
    order of the collection, exactly the tasks that meet the filters it
    heeds; it heeds a status only when it is [True], a priority collection
    only when it is non-empty and a date only when it is a non-empty string,
    and treats every other value as no filter. *)
Theorem list_tasks_heeds_truthy_filters (status : option bool)
    (priorities : option (list string)) (due_before : option string)
    (m : TaskManager.t) :
  TaskManager.list_tasks status priorities due_before m
  = list_tasks_spec (heeded_status status) (heeded_priorities priorities)
      (heeded_due due_before) (TaskManager.tasks m).
Proof.
  transitivity (TaskManager.list_tasks (heeded_status status)
                  (heeded_priorities priorities) (heeded_due due_before) m).
  - destruct status as [[|]|], priorities as [[|p ps]|],
      due_before as [[|c d]|]; reflexivity.
  - apply list_tasks_meets_filters. repeat split.
    + destruct status as [[|]|]; discriminate.
    + destruct priorities as [[|p ps]|]; discriminate.
    + destruct due_before as [[|c d]|]; discriminate.
Qed.

Lemma compare_lt_append (a : string) :
  forall b x y,
    String.length a = String.length b ->
    String.compare a b = Lt ->
    String.compare (a ++ x) (b ++ y) = Lt.
Proof.
  induction a as [|c a IH]; intros [|d b] x y Hlen Hlt; simpl in *;
    try discriminate.
  destruct (Ascii.compare c d); [|reflexivity|discriminate].
  apply IH; [now injection Hlen|exact Hlt].
Qed.

Lemma compare_gt_append (a : string) :
  forall b x y,
    String.length a = String.length b ->
    String.compare a b = Gt ->
    String.compare (a ++ x) (b ++ y) = Gt.
Proof.
  induction a as [|c a IH]; intros [|d b] x y Hlen Hgt; simpl in *;
    try discriminate.
  destruct (Ascii.compare c d); [|discriminate|reflexivity].
  apply IH; [now injection Hlen|exact Hgt].
Qed.

(** X11. The due-date filter compares the date strings character by
    character, so the leading day digits decide whenever they differ: a task
    whose day part is smaller than the filter's passes and one whose day part
    is larger is dropped, whatever the months and years that follow. *)
Theorem due_filter_decided_by_day_digits
    (task : Task.t) (day_task day_filter rest_task rest_filter : string)
    (Hdue : Task.due_date task = Some (day_task ++ rest_task)%string)
    (Hlen : String.length day_task = String.length day_filter) :
  (String.compare day_task day_filter = Lt ->
   TaskManager.due_by (day_filter ++ rest_filter) task = true)
  /\ (String.compare day_task day_filter = Gt ->
      TaskManager.due_by (day_filter ++ rest_filter) task = false).
Proof.
  unfold TaskManager.due_by; rewrite Hdue; unfold String.leb; split; intros H.
  - rewrite (compare_lt_append _ _ rest_task rest_filter Hlen H).
    destruct day_task; [destruct day_filter; discriminate|reflexivity].
  - rewrite (compare_gt_append _ _ rest_task rest_filter Hlen H).
    apply andb_false_r.
Qed.

Lemma due_filter_day_digits_witness :
  Task.due_date april_task = Some ("05" ++ "-04-2024")%string
  /\ String.length "05" = String.length "30"
  /\ String.compare "05" "30" = Lt
  /\ TaskManager.due_by ("30" ++ "-03-2024") april_task = true.
Proof.
  split; [reflexivity|]. split; [reflexivity|]. split; [reflexivity|].
  exact (proj1 (due_filter_decided_by_day_digits april_task "05" "30"
                  "-04-2024" "-03-2024" eq_refl eq_refl) eq_refl).
Defined.

(** ** Finance: balance and report *)

Lemma sum_app (l l' : list Z) :
  FinanceManager.sum (l ++ l') = FinanceManager.sum l + FinanceManager.sum l'.
Proof.
  unfold FinanceManager.sum. induction l as [|a l IH]; simpl; [reflexivity|].
  rewrite IH; lia.
Qed.

Lemma sum_split (p : FinanceRecord.t -> bool) (l : list FinanceRecord.t) :
  FinanceManager.sum (map FinanceRecord.amount l)
  = FinanceManager.sum (map FinanceRecord.amount (filter p l))
    + FinanceManager.sum
        (map FinanceRecord.amount (filter (fun r => negb (p r)) l)).
Proof.
  unfold FinanceManager.sum. induction l as [|a l IH]; simpl; [reflexivity|].
  destruct (p a); simpl; rewrite IH; lia.
Qed.

Lemma fold_left_add (l : list Z) :
  forall a, fold_left Z.add l a = a + FinanceManager.sum l.
Proof.
  unfold FinanceManager.sum.
  induction l as [|x l IH]; intros a; simpl; [lia|]. rewrite IH; lia.
Qed.

Lemma calculate_balance_sum (fm : FinanceManager.t) :
  FinanceManager.calculate_balance fm
  = FinanceManager.sum (map FinanceRecord.amount (FinanceManager.records fm)).
Proof. unfold FinanceManager.calculate_balance. now rewrite fold_left_add. Qed.

(** X12. The balance follows the collection, for amounts on which float
    addition is exact (integers whose magnitudes, the new amount included,
    add up to at most 2^52): adding a record raises the balance by the
    record's amount, deleting by id lowers it by the amounts of the records
    carrying that id, and deleting everything brings it to zero. *)
Theorem balance_follows_add_and_delete (am : Z) (ca da de : string) (i : Z)
    (fm : FinanceManager.t)
    (Hexact : float_exact
                (am :: map FinanceRecord.amount (FinanceManager.records fm))) :
  FinanceManager.calculate_balance (FinanceManager.add_record am ca da de fm)
  = FinanceManager.calculate_balance fm + am
  /\ FinanceManager.calculate_balance fm
     = FinanceManager.calculate_balance
         (FinanceManager.delete_record (ById i) fm)
       + FinanceManager.sum
           (map FinanceRecord.amount
                (filter (fun r => FinanceRecord.id r =? i)
                        (FinanceManager.records fm)))
  /\ FinanceManager.calculate_balance (FinanceManager.delete_record ALL fm) = 0.
Proof.
  rewrite !calculate_balance_sum. split; [|split; [|reflexivity]].
  - cbn [FinanceManager.add_record FinanceManager.save_records
         FinanceManager.set_records FinanceManager.records].
    rewrite map_app, sum_app. unfold FinanceManager.sum; simpl; lia.
  - cbn [FinanceManager.delete_record FinanceManager.save_records
         FinanceManager.set_records FinanceManager.records].
    pose proof (sum_split (fun r => FinanceRecord.id r =? i)
                  (FinanceManager.records fm)) as H.
    unfold FinanceManager.sum in *. lia.
Qed.

Lemma balance_follows_add_and_delete_witness :
  float_exact (50 :: map FinanceRecord.amount scenario)
  /\ FinanceManager.calculate_balance
       (FinanceManager.add_record 50 "Gift" "02-02-2024" ""
          (FinanceManager.mk None scenario []))
     = FinanceManager.calculate_balance (FinanceManager.mk None scenario [])
       + 50.
Proof.
  assert (H : float_exact (50 :: map FinanceRecord.amount scenario))
    by (unfold float_exact; simpl; lia).
  split; [exact H|].
  exact (proj1 (balance_follows_add_and_delete 50 "Gift" "02-02-2024" "" 1
                  (FinanceManager.mk None scenario []) H)).
Defined.

Lemma costs_nonpositive (l : list FinanceRecord.t) :
  FinanceManager.sum
    (map FinanceRecord.amount (filter (fun i => FinanceRecord.amount i <? 0) l))
  <= 0.
Proof.
  unfold FinanceManager.sum. induction l as [|a l IH]; simpl; [lia|].
  destruct (Z.ltb_spec (FinanceRecord.amount a) 0); simpl; lia.
Qed.

(** X13. The figures of a report over amounts on which float addition is
    exact (integers whose magnitudes add up to at most 2^52).  Expenses are
    never positive, the balance is gains plus expenses, and the line labelled
    total income shows [profit + costs], which is gains plus twice the
    expenses: it equals the sum of the incoming amounts only when the period
    has no expenses. *)
Theorem report_figures_relate (start_date end_date : string)
    (l : list FinanceRecord.t)
    (Hexact : float_exact (map FinanceRecord.amount l)) :
  FinanceManager.costs (FinanceManager.figures start_date end_date l) <= 0
  /\ FinanceManager.balance (FinanceManager.figures start_date end_date l)
     = gains l + FinanceManager.costs (FinanceManager.figures start_date end_date l)
  /\ FinanceManager.income (FinanceManager.figures start_date end_date l)
     = gains l
       + 2 * FinanceManager.costs (FinanceManager.figures start_date end_date l)
  /\ (FinanceManager.income (FinanceManager.figures start_date end_date l)
      = gains l
      <-> FinanceManager.costs (FinanceManager.figures start_date end_date l)
          = 0).
Proof.
  pose proof (costs_nonpositive l) as Hc.
  pose proof (sum_split (fun i => FinanceRecord.amount i <? 0) l) as Hs.
  unfold gains, FinanceManager.figures.
  cbn [FinanceManager.costs FinanceManager.balance FinanceManager.income].
  set (c := FinanceManager.sum
              (map FinanceRecord.amount
                   (filter (fun i => FinanceRecord.amount i <? 0) l))) in *.
  set (g := FinanceManager.sum
              (map FinanceRecord.amount
                   (filter (fun i => negb (FinanceRecord.amount i <? 0)) l)))
    in *.
  set (p := FinanceManager.sum (map FinanceRecord.amount l)) in *.
  repeat split; lia.
Qed.

Lemma report_figures_relate_witness :
  float_exact (map FinanceRecord.amount scenario)
  /\ FinanceManager.income
       (FinanceManager.figures "01-01-2024" "01-02-2024" scenario)
     = gains scenario
       + 2 * FinanceManager.costs
               (FinanceManager.figures "01-01-2024" "01-02-2024" scenario).
Proof.
  assert (H : float_exact (map FinanceRecord.amount scenario))
    by (unfold float_exact; simpl; lia).
  split; [exact H|].
  exact (proj1 (proj2 (proj2 (report_figures_relate "01-01-2024" "01-02-2024"
                                scenario H)))).
Defined.


Lemma in_range_bad_date (start end_ : date) (l : list FinanceRecord.t) :
  Exists (fun r => forall d, strptime (FinanceRecord.date r) <> Ok d) l ->
  exists e, FinanceManager.in_range start end_ l = Raise e.
Proof.
  intros H; induction H as [r l Hr|r l _ (e & IH)]; simpl.
  - destruct (strptime (FinanceRecord.date r)) as [d|e]; [now elim (Hr d)|].
    exists e; reflexivity.
  - destruct (strptime (FinanceRecord.date r)) as [d|e']; simpl.
    + rewrite IH; simpl; eauto.
    + eauto.
Qed.



Lemma strptime_ascii (s : string) :
  all_chars is_ascii s = true ->
  (exists d, strptime s = Ok d) \/ strptime s = Raise ValueError.
Proof.
  intros H; unfold strptime; rewrite H; cbn [negb].
  destruct (split_dash s) as [[ds rest]|]; [|now right].
  destruct (split_dash rest) as [[ms ys]|]; [|now right].
  destruct (parse_day ds) as [d|], (parse_month ms) as [m|],
    (parse_year ys) as [y|]; try now right.
  destruct ((1 <=? y) && (d <=? days_in_month y m))%bool;
    [left; eauto|now right].
Qed.

Lemma in_range_value_error (start end_ : date) (l : list FinanceRecord.t) :
  Forall (fun r => all_chars is_ascii (FinanceRecord.date r) = true) l ->
  Exists (fun r => forall d, strptime (FinanceRecord.date r) <> Ok d) l ->
  FinanceManager.in_range start end_ l = Raise ValueError.
Proof.
  intros Ha He.
  induction He as [r l Hr|r l _ IH]; inversion Ha as [|? ? Hra Hla]; subst;
    simpl.
  - destruct (strptime_ascii _ Hra) as [(d & Hd)|Hd]; [now elim (Hr d)|].
    now rewrite Hd.
  - destruct (strptime_ascii _ Hra) as [(d & Hd)|Hd]; rewrite Hd; simpl;
      [|reflexivity].
    now rewrite (IH Hla).
Qed.

(** X15. A report never changes the collection and never saves it, and the
    only file it writes is the report file [report_<start>_<end>.csv].  A
    call that raises leaves the manager as it was.  On ASCII dates it raises
    [ValueError] when a bound does not parse or when any stored record has a
    date that does not parse, be that record inside the period or not. *)
Theorem generate_report_reads_only (start_date end_date : string)
    (fm : FinanceManager.t) :
  (FinanceManager.records
     (snd (FinanceManager.generate_report start_date end_date fm))
   = FinanceManager.records fm
   /\ saves (FinanceManager.trace
               (snd (FinanceManager.generate_report start_date end_date fm)))
      = saves (FinanceManager.trace fm)
   /\ (forall p written,
          In (WroteCsv p written)
             (FinanceManager.trace
                (snd (FinanceManager.generate_report start_date end_date fm))) ->
          In (WroteCsv p written) (FinanceManager.trace fm)
          \/ p = ("report_" ++ start_date ++ "_" ++ end_date ++ ".csv")%string))
  /\ (forall e,
         fst (FinanceManager.generate_report start_date end_date fm) = Raise e ->
         snd (FinanceManager.generate_report start_date end_date fm) = fm)
  /\ (all_chars is_ascii start_date = true ->
      all_chars is_ascii end_date = true ->
      Forall (fun r => all_chars is_ascii (FinanceRecord.date r) = true)
        (FinanceManager.records fm) ->
      (forall d, strptime start_date <> Ok d)
      \/ (forall d, strptime end_date <> Ok d)
      \/ Exists (fun r => forall d, strptime (FinanceRecord.date r) <> Ok d)
           (FinanceManager.records fm) ->
      FinanceManager.generate_report start_date end_date fm
      = (Raise ValueError, fm)).
Proof.
  unfold FinanceManager.generate_report.
  split; [|split].
  - destruct (start <- strptime start_date;; end_ <- strptime end_date;;
              FinanceManager.in_range start end_ (FinanceManager.records fm))
      as [[|r rs]|e]; cbn [snd FinanceManager.emit FinanceManager.records
                           FinanceManager.trace].
    + split; [reflexivity|]. split; [rewrite saves_app; simpl; lia|].
      intros p written H. apply in_app_iff in H as [H|[H|[]]];
        [now left|discriminate H].
    + split; [reflexivity|]. split; [rewrite !saves_app; simpl; lia|].
      intros p written H.
      apply in_app_iff in H as [H|[H|[]]]; [|discriminate H].
      apply in_app_iff in H as [H|[H|[]]]; [|injection H as <- _; now right].
      apply in_app_iff in H as [H|[H|[]]]; [now left|discriminate H].
    + split; [reflexivity|]. split; [reflexivity|]. intros p written H; now left.
  - intros e.
    destruct (start <- strptime start_date;; end_ <- strptime end_date;;
              FinanceManager.in_range start end_ (FinanceManager.records fm))
      as [[|r rs]|e']; simpl; [discriminate|discriminate|reflexivity].
  - intros Hs He Hr [H|[H|H]].
    + destruct (strptime_ascii _ Hs) as [(d & Hd)|Hd]; [now elim (H d)|].
      now rewrite Hd.
    + destruct (strptime_ascii _ Hs) as [(d & Hd)|Hd]; rewrite Hd; simpl;
        [|reflexivity].
      destruct (strptime_ascii _ He) as [(d' & Hd')|Hd']; [now elim (H d')|].
      now rewrite Hd'.
    + destruct (strptime_ascii _ Hs) as [(d & Hd)|Hd]; rewrite Hd; simpl;
        [|reflexivity].
      destruct (strptime_ascii _ He) as [(d' & Hd')|Hd']; rewrite Hd'; simpl;
        [|reflexivity].
      now rewrite (in_range_value_error d d' _ Hr H).
Qed.

(** ** Finance: listing by category *)

Lemma lower_char_idem (c : ascii) : lower_char (lower_char c) = lower_char c.
Proof.
  destruct c as [[] [] [] [] [] [] [] []]; reflexivity.
Qed.

Lemma lower_idem (s : string) : lower (lower s) = lower s.
Proof.
  induction s as [|c s IH]; simpl; [reflexivity|].
  now rewrite lower_char_idem, IH.
Qed.

Lemma in_categories_filter (cats : list string) (l : list FinanceRecord.t) :
  Forall (fun r => all_chars is_ascii (FinanceRecord.category r) = true) l ->
  FinanceManager.in_categories cats l
  = Ok (filter (fun r =>
                  existsb (String.eqb (lower (FinanceRecord.category r))) cats)
               l).
Proof.
  intros H; induction H as [|r l Hr _ IH]; [reflexivity|].
  cbn [FinanceManager.in_categories filter]. unfold py_lower.
  rewrite Hr; cbn [bind]. rewrite IH; cbn [bind]. reflexivity.
Qed.

(** X16. [list_records] compares the lower-cased category of each record
    with the filter words as given (categories in ASCII; others take
    Unicode case tables).  A word selects the records whose category equals
    it up to letter case only if the word itself is lower case: a filter
    made only of words with an upper-case letter returns nothing.  No
    filter, or an empty one, returns the whole collection. *)
Theorem list_records_wants_lower_case (cats : list string)
    (fm : FinanceManager.t)
    (Hascii : Forall (fun r => all_chars is_ascii (FinanceRecord.category r)
                               = true)
                (FinanceManager.records fm))
    (Hcased : Forall (fun w => lower w <> w) cats)
    (Hsome : cats <> []) :
  FinanceManager.list_records (Some cats) fm = Ok []
  /\ FinanceManager.list_records None fm = Ok (FinanceManager.records fm)
  /\ FinanceManager.list_records (Some []) fm = Ok (FinanceManager.records fm)
  /\ (forall ws, exists found,
         FinanceManager.list_records (Some ws) fm = Ok found
         /\ forall r,
              In r found
              <-> In r (FinanceManager.records fm)
                  /\ (ws = [] \/ In (lower (FinanceRecord.category r)) ws)).
Proof.
  split; [|split; [reflexivity|split; [reflexivity|]]].
  - unfold FinanceManager.list_records.
    destruct cats as [|w ws]; [congruence|]. cbn [List.length Nat.eqb negb].
    rewrite (in_categories_filter _ _ Hascii). f_equal. clear Hascii.
    induction (FinanceManager.records fm) as [|r l IH]; [reflexivity|].
    cbn [filter].
    destruct (existsb (String.eqb (lower (FinanceRecord.category r))) (w :: ws))
      eqn:E; [|exact IH].
    apply existsb_exists in E as (v & Hv & E). apply String.eqb_eq in E.
    rewrite Forall_forall in Hcased. elim (Hcased v Hv).
    rewrite <- E. apply lower_idem.
  - intros ws; unfold FinanceManager.list_records.
    destruct ws as [|w ws]; cbn [List.length Nat.eqb negb].
    + eexists; split; [reflexivity|]. intros r; tauto.
    + rewrite (in_categories_filter _ _ Hascii).
      eexists; split; [reflexivity|]. intros r.
      rewrite filter_In, existsb_exists. split.
      * intros (Hin & v & Hv & E). apply String.eqb_eq in E.
        split; [exact Hin|right]. now rewrite E.
      * intros (Hin & [H|H]); [discriminate H|].
        split; [exact Hin|]. eexists; split; [exact H|apply String.eqb_refl].
Qed.

Lemma list_records_wants_lower_case_witness :
  Forall (fun r => all_chars is_ascii (FinanceRecord.category r) = true)
    [sample_record]
  /\ Forall (fun w => lower w <> w) ["Food"]
  /\ ["Food"] <> []
  /\ FinanceManager.list_records (Some ["Food"])
       (FinanceManager.mk None [sample_record] [])
     = Ok [].
Proof.
  assert (H0 : Forall (fun r => all_chars is_ascii (FinanceRecord.category r)
                               = true) [sample_record])
    by (repeat constructor).
  assert (H : Forall (fun w => lower w <> w) ["Food"])
    by (repeat constructor; discriminate).
  assert (H' : ["Food"] <> []) by discriminate.
  split; [exact H0|]. split; [exact H|]. split; [exact H'|].
  exact (proj1 (list_records_wants_lower_case ["Food"]
                  (FinanceManager.mk None [sample_record] []) H0 H H')).
Defined.

(** ** More on CSV import *)

(** X17. The task import merges by id like the contact import: when every
    row converts it completes, appends only tasks whose id the collection
    does not hold yet, each id once, taken from the rows, and afterwards the
    id of every row is in the collection. *)
Theorem import_tasks_skips_known_ids (rows : list csv_row)
    (parsed : list Task.t) (tm : TaskManager.t)
    (Hparsed : mapM TaskManager.of_row rows = Ok parsed) :
  fst (TaskManager.import_from_csv (Some rows) tm) = Ok tt
  /\ exists added,
       TaskManager.tasks (snd (TaskManager.import_from_csv (Some rows) tm))
       = TaskManager.tasks tm ++ added
       /\ NoDup (map Task.id added)
       /\ (forall x, In x added -> In x parsed /\ ~ In (Task.id x) (task_ids tm))
       /\ (forall x, In x parsed ->
                     In (Task.id x) (task_ids tm ++ map Task.id added)).
Proof.
  destruct (merge_rows_total Task.id TaskManager.of_row rows parsed
              (TaskManager.tasks tm) Hparsed) as (Hok & Hin).
  destruct (merge_rows_appends Task.id TaskManager.of_row rows
              (TaskManager.tasks tm)) as (added & Heq & Hnd & Hall).
  unfold TaskManager.import_from_csv. rewrite task_import_rows_merge.
  destruct (merge_rows Task.id TaskManager.of_row rows (TaskManager.tasks tm))
    as [r l]; simpl in Hok, Hin, Heq; subst r l.
  split; [reflexivity|]. exists added; simpl.
  split; [reflexivity|]. split; [exact Hnd|]. split.
  - intros x Hx; destruct (Hall x Hx) as (Hout & row & Hrow & Hx').
    split; [|exact Hout]. eapply mapM_in; eauto.
  - intros x Hx; specialize (Hin x Hx). now rewrite map_app in Hin.
Qed.

Lemma import_tasks_skips_known_ids_witness :
  mapM TaskManager.of_row task_rows
  = Ok [Task.mk 1 "Rent" "" false "High" (Some "");
        Task.mk 2 "Buy milk" "" true "Low" (Some "15-03-2024")]
  /\ fst (TaskManager.import_from_csv (Some task_rows)
            (TaskManager.mk None [sample_task] []))
     = Ok tt.
Proof.
  split; [reflexivity|].
  exact (proj1 (import_tasks_skips_known_ids task_rows _
                  (TaskManager.mk None [sample_task] []) eq_refl)).
Defined.

Lemma lookup_columns {V : Type} (key : string) (d : list (string * V)) :
  existsb (String.eqb key) (map fst d)
  = match lookup key d with Some _ => true | None => false end.
Proof.
  induction d as [|[k v] d IH]; simpl; [reflexivity|].
  rewrite (String.eqb_sym key k). destruct (k =? key)%string; simpl; auto.
Qed.

(** What the note import reads from a row is decided by the header. *)
Lemma cells_by_header (header : list string) (row : csv_row) :
  map fst row = header ->
  match missing_column header with
  | Some k => NoteManager.cells row = Raise (KeyError k)
  | None => exists p, NoteManager.cells row = Ok p
  end.
Proof.
  intros <-. unfold missing_column, NoteManager.cells, getitem. cbn [find].
  rewrite !lookup_columns.
  destruct (lookup "title" row); cbn; [|reflexivity].
  destruct (lookup "content" row); cbn; [|reflexivity].
  destruct (lookup "timestamp" row); cbn; [|reflexivity]. eauto.
Qed.

Lemma cells_all_rows (header : list string) (rows : list csv_row) :
  same_columns header rows ->
  missing_column header = None ->
  exists cs, mapM NoteManager.cells rows = Ok cs.
Proof.
  intros H Hm; induction H as [|row rows Hrow _ (cs & IH)].
  - exists []; reflexivity.
  - pose proof (cells_by_header header row Hrow) as Hc. rewrite Hm in Hc.
    destruct Hc as (p & Hp). exists (p :: cs). simpl. now rewrite Hp, IH.
Qed.

(** X18. Where the note import fails.  A file without data rows makes it
    raise [NameError] at [print(row)], with nothing saved or printed.  The
    rows of a file all have the columns of its header (column names
    distinct, lines as wide as the header): when the header lacks one of the
    columns title, content and timestamp, the import raises [KeyError] for
    the first one lacking at the first row and leaves the manager as it
    was, nothing appended, saved or printed; when the header has the three
    columns, the import completes, appends one note per row and saves
    once. *)
Theorem note_import_failure_saves_nothing (now : string)
    (header : list string) (rows : list csv_row) (nm : NoteManager.t)
    (Hnames : NoDup header)
    (Hcols : same_columns header rows) (Hrows : rows <> []) :
  (fst (NoteManager.import_from_csv now (Some []) nm) = Raise NameError
   /\ NoteManager.notes (snd (NoteManager.import_from_csv now (Some []) nm))
      = NoteManager.notes nm
   /\ NoteManager.storage_file
        (snd (NoteManager.import_from_csv now (Some []) nm))
      = NoteManager.storage_file nm
   /\ NoteManager.trace (snd (NoteManager.import_from_csv now (Some []) nm))
      = NoteManager.trace nm)
  /\ (forall k,
         missing_column header = Some k ->
         NoteManager.import_from_csv now (Some rows) nm
         = (Raise (KeyError k), nm))
  /\ (missing_column header = None ->
      exists cs,
        Forall2 note_columns rows cs
        /\ fst (NoteManager.import_from_csv now (Some rows) nm) = Ok tt
        /\ NoteManager.notes
             (snd (NoteManager.import_from_csv now (Some rows) nm))
           = NoteManager.notes nm
             ++ row_notes now (max_default (note_ids nm) + 1) cs
        /\ saves (NoteManager.trace
                    (snd (NoteManager.import_from_csv now (Some rows) nm)))
           = S (saves (NoteManager.trace nm))).
Proof.
  split; [repeat split|]. split.
  - intros k Hk. destruct rows as [|row rows]; [congruence|].
    inversion Hcols as [|? ? Hrow _]; subst.
    pose proof (cells_by_header _ row eq_refl) as Hc. rewrite Hk in Hc.
    unfold NoteManager.import_from_csv; cbn [NoteManager.import_rows].
    rewrite Hc. destruct nm; reflexivity.
  - intros Hm. destruct (cells_all_rows header rows Hcols Hm) as (cs & Hcs).
    exists cs. split.
    { eapply mapM_Forall2; [|exact Hcs]. apply note_cells_columns. }
    destruct (note_import_appends now rows cs nm Hcs Hrows) as (Hok & Hn).
    split; [exact Hok|]. split.
    { rewrite Hn. apply f_equal. generalize (max_default (note_ids nm) + 1).
      clear. induction cs as [|[[ti c] ts] cs IH]; intros j; [reflexivity|].
      cbn [minted row_notes]. rewrite IH.
      unfold Note.init, truthy_opt. reflexivity. }
    revert Hok. unfold NoteManager.import_from_csv.
    destruct (NoteManager.import_rows now rows None (NoteManager.notes nm))
      as [[[row|]|e] l]; cbn [fst snd]; try discriminate.
    intros _. cbn [NoteManager.save_notes NoteManager.emit
                   NoteManager.set_notes NoteManager.trace].
    rewrite !saves_app; simpl; lia.
Qed.

Lemma note_import_failure_witness :
  NoDup ["title"; "content"]
  /\ same_columns ["title"; "content"] untimed_note_rows
  /\ untimed_note_rows <> []
  /\ NoteManager.import_from_csv "05-03-2024 10:00:00"
       (Some untimed_note_rows) (NoteManager.mk None [sample_note] [])
     = (Raise (KeyError "timestamp"), NoteManager.mk None [sample_note] []).
Proof.
  assert (H0 : NoDup ["title"; "content"])
    by (repeat constructor; simpl; intuition discriminate).
  assert (H : same_columns ["title"; "content"] untimed_note_rows)
    by (repeat constructor).
  assert (H' : untimed_note_rows <> []) by discriminate.
  split; [exact H0|]. split; [exact H|]. split; [exact H'|].
  exact (proj1 (proj2 (note_import_failure_saves_nothing "05-03-2024 10:00:00"
                         ["title"; "content"] untimed_note_rows
                         (NoteManager.mk None [sample_note] []) H0 H H'))
           "timestamp" eq_refl).
Defined.

Lemma finance_import_rows_booked (rows : list csv_row) :
  forall ps fm,
    mapM FinanceManager.row_record rows = Ok ps ->
    fst (FinanceManager.import_rows rows fm) = Ok tt
    /\ FinanceManager.records (snd (FinanceManager.import_rows rows fm))
       = FinanceManager.records fm
         ++ booked (max_default (finance_ids fm) + 1) ps
    /\ saves (FinanceManager.trace (snd (FinanceManager.import_rows rows fm)))
       = (saves (FinanceManager.trace fm) + List.length rows)%nat.
Proof.
  induction rows as [|row rows IH]; intros ps fm H.
  - injection H as <-; simpl. rewrite app_nil_r. repeat split; lia.
  - apply mapM_cons_ok in H as ([[[am ca] da] de] & ps' & Hrow & Hps & ->).
    simpl; rewrite Hrow.
    destruct (IH ps' (FinanceManager.add_record am ca da de fm) Hps)
      as (Hok & Hrec & Hsaves).
    split; [exact Hok|]. split.
    + rewrite Hrec. unfold finance_ids; simpl.
      rewrite map_app; simpl. rewrite max_default_next, <- app_assoc.
      reflexivity.
    + rewrite Hsaves; simpl. rewrite saves_snoc_saved. lia.
Qed.

Lemma py_float_exact (s : string) (n : Z) :
  py_float s = Ok n -> Z.abs n <= float_integer_bound.
Proof.
  unfold py_float. destruct (split_point s) as [whole zeros].
  destruct (parse_signed whole) as [m|]; [|discriminate].
  destruct (all_chars (Ascii.eqb "0") zeros
            && (Z.abs m <=? float_integer_bound)
            && negb ((m =? 0) && prefix "-" s))%bool eqn:E; [|discriminate].
  intros [= <-]. apply andb_prop in E as [E _]. apply andb_prop in E as [_ E].
  now apply Z.leb_le.
Qed.

Lemma row_record_exact (row : csv_row) (p : Z * string * string * string) :
  FinanceManager.row_record row = Ok p ->
  Z.abs (fst (fst (fst p))) <= float_integer_bound.
Proof.
  unfold FinanceManager.row_record, getitem.
  destruct (lookup "amount" row) as [am|]; simpl; [|discriminate].
  destruct (py_float am) as [n|e] eqn:Hn; simpl; [|discriminate].
  destruct (lookup "category" row); simpl; [|discriminate].
  destruct (lookup "date" row); simpl; [|discriminate].
  destruct (lookup "description" row); simpl; [|discriminate].
  intros [= <-]; simpl. now apply py_float_exact in Hn.
Qed.

(** X19. The finance import books every row as a new record, ignoring the id
    column: ids are counted up from the highest id held plus one, so
    importing a file twice doubles its records.  It rewrites the backing file
    once per row.  The amounts are those the cells spell, for cells that are
    plain literals of integers up to 2^53 in magnitude, with or without a
    point and zeros as the export prints them. *)
Theorem finance_import_books_every_row (rows : list csv_row)
    (ps : list (Z * string * string * string)) (fm : FinanceManager.t)
    (Hrows : mapM FinanceManager.row_record rows = Ok ps) :
  fst (FinanceManager.import_from_csv (Some rows) fm) = Ok tt
  /\ FinanceManager.records (snd (FinanceManager.import_from_csv (Some rows) fm))
     = FinanceManager.records fm ++ booked (max_default (finance_ids fm) + 1) ps
  /\ List.length (booked (max_default (finance_ids fm) + 1) ps)
     = List.length rows
  /\ saves (FinanceManager.trace
              (snd (FinanceManager.import_from_csv (Some rows) fm)))
     = (saves (FinanceManager.trace fm) + List.length rows)%nat
  /\ List.length
       (FinanceManager.records
          (snd (FinanceManager.import_from_csv (Some rows)
                  (snd (FinanceManager.import_from_csv (Some rows) fm)))))
     = (List.length (FinanceManager.records fm) + 2 * List.length rows)%nat
  /\ Forall (fun p => Z.abs (fst (fst (fst p))) <= float_integer_bound) ps.
Proof.
  assert (Hlen : forall k, List.length (booked k ps) = List.length rows).
  { intros k. rewrite <- (mapM_length _ _ _ Hrows). clear Hrows.
    revert k; induction ps as [|[[[am ca] da] de] ps IH]; intros k; simpl;
      [reflexivity|now rewrite IH]. }
  assert (Hexact : Forall (fun p => Z.abs (fst (fst (fst p)))
                                    <= float_integer_bound) ps).
  { apply Forall_forall; intros p Hp.
    assert (H2 : Forall2 (fun row q => Z.abs (fst (fst (fst q)))
                                       <= float_integer_bound) rows ps)
      by (eapply mapM_Forall2; [|exact Hrows]; apply row_record_exact).
    clear Hrows Hlen. induction H2 as [|row q rows' ps' Hq _ IH];
      [contradiction|].
    destruct Hp as [<-|Hp]; [exact Hq|now apply IH]. }
  simpl.
  destruct (finance_import_rows_booked rows ps fm Hrows) as (Hok & Hrec & Hs).
  repeat split; auto.
  destruct (finance_import_rows_booked rows ps
              (snd (FinanceManager.import_rows rows fm)) Hrows)
    as (_ & Hrec' & _).
  rewrite Hrec', Hrec, !length_app, !Hlen. lia.
Qed.

Lemma finance_import_books_every_row_witness :
  mapM FinanceManager.row_record exported_finance_rows
  = Ok [(1000, "Salary", "01-01-2024", ""); (-400, "Food", "15-01-2024", "")]
  /\ FinanceManager.records
       (snd (FinanceManager.import_from_csv (Some exported_finance_rows)
               (FinanceManager.mk None [sample_record] [])))
     = [sample_record;
        FinanceRecord.mk 2 1000 "Salary" "01-01-2024" "";
        FinanceRecord.mk 3 (-400) "Food" "15-01-2024" ""].
Proof.
  split; [reflexivity|].
  exact (proj1 (proj2 (finance_import_books_every_row exported_finance_rows _
                         (FinanceManager.mk None [sample_record] [])
                         eq_refl))).
Defined.

(** ** Loading *)

Lemma mapM_app_raise {A B : Type} (f : A -> res B) (good : list A) :
  forall ys bad rest e,
    mapM f good = Ok ys -> f bad = Raise e ->
    mapM f (good ++ bad :: rest) = Raise e.
Proof.
  induction good as [|a good IH]; intros ys bad rest e Hgood Hbad.
  - simpl; now rewrite Hbad.
  - apply mapM_cons_ok in Hgood as (b & bs & Hb & Hbs & ->).
    simpl; rewrite Hb; simpl. now rewrite (IH bs bad rest e Hbs Hbad).
Qed.

Lemma mapM_stamped (now : string) (items : list json) :
  now <> "" ->
  forall l, mapM (Note.from_dict now) items = Ok l -> Forall Note.stamped l.
Proof.
  intros Hnow; induction items as [|x items IH]; intros l H.
  - injection H as <-; constructor.
  - apply mapM_cons_ok in H as (n & ns & Hn & Hns & ->).
    constructor; [|now apply IH].
    unfold Note.from_dict in Hn.
    destruct (subscript x "id"); simpl in Hn; [|discriminate].
    destruct (subscript x "title"); simpl in Hn; [|discriminate].
    destruct (subscript x "content"); simpl in Hn; [|discriminate].
    destruct (subscript x "timestamp"); simpl in Hn; [|discriminate].
    destruct (as_int a); simpl in Hn; [|discriminate].
    destruct (as_str a0); simpl in Hn; [|discriminate].
    destruct (as_str a1); simpl in Hn; [|discriminate].
    destruct (as_opt_str a2); simpl in Hn; [|discriminate].
    injection Hn as <-. now apply note_init_stamped.
Qed.

Lemma Forall_minted_stamped (now : string) (cs : list (string * string * string)) :
  now <> "" -> forall k, Forall Note.stamped (minted now k cs).
Proof.
  intros Hnow; induction cs as [|[[ti c] ts] cs IH]; intros k; simpl;
    constructor; [now apply note_init_stamped|apply IH].
Qed.

Lemma Forall_update_first {A : Type} (P : A -> Prop) (p : A -> bool)
    (f : A -> A) (l : list A) :
  (forall a, P (f a)) -> Forall P l -> Forall P (NoteManager.update_first p f l).
Proof.
  intros Hf H; induction H as [|a l Ha Hl IH]; simpl; [constructor|].
  destruct (p a); constructor; auto.
Qed.

(** X20. Every note carries a non-empty timestamp.  Whatever the backing
    file contains, the notes a constructed manager holds all have one (an
    empty or null timestamp in the file is replaced by the current time while
    loading), and create, edit, delete and import keep it so. *)
Theorem notes_always_stamped (now : string) (Hclock : now <> "") :
  (forall file nm,
      NoteManager.init now file = Ok nm ->
      Forall Note.stamped (NoteManager.notes nm))
  /\ (forall nm,
         Forall Note.stamped (NoteManager.notes nm) ->
         (forall ti c,
             Forall Note.stamped
               (NoteManager.notes (snd (NoteManager.create_note now ti c nm))))
         /\ (forall i a1 a2,
                Forall Note.stamped
                  (NoteManager.notes (snd (NoteManager.edit_note now i a1 a2 nm))))
         /\ (forall t,
                Forall Note.stamped
                  (NoteManager.notes (NoteManager.delete_note t nm)))
         /\ (forall csv,
                Forall Note.stamped
                  (NoteManager.notes
                     (snd (NoteManager.import_from_csv now csv nm))))).
Proof.
  split.
  - intros file nm; unfold NoteManager.init, NoteManager.load_notes.
    destruct file as [[doc|]|]; simpl.
    + destruct (iterate doc) as [items|e]; simpl; [|discriminate].
      destruct (mapM (Note.from_dict now) items) as [l|e] eqn:E; simpl;
        [|discriminate].
      intros [= <-]; simpl. now apply (mapM_stamped now items).
    + intros [= <-]; constructor.
    + intros [= <-]; constructor.
  - intros nm H. split; [|split; [|split]].
    + intros ti c; simpl. apply Forall_app; split; [exact H|].
      constructor; [now apply note_init_stamped|constructor].
    + intros i a1 a2; unfold NoteManager.edit_note.
      destruct (NoteManager.view_note_details i nm); simpl; [|exact H].
      apply Forall_update_first; [intros a; exact Hclock|exact H].
    + intros t; rewrite delete_note_notes.
      destruct t as [|i]; simpl; [constructor|].
      rewrite Forall_forall in *. intros x Hx; apply filter_In in Hx as [Hx _].
      now apply H.
    + intros csv. destruct (note_import_notes now csv nm) as (cs & ->).
      apply Forall_app; split; [exact H|now apply Forall_minted_stamped].
Qed.

Lemma notes_always_stamped_witness :
  "05-03-2024 10:00:00" <> ""
  /\ forall file nm,
       NoteManager.init "05-03-2024 10:00:00" file = Ok nm ->
       Forall Note.stamped (NoteManager.notes nm).
Proof.
  assert (H : "05-03-2024 10:00:00" <> "") by discriminate.
  split; [exact H|].
  exact (proj1 (notes_always_stamped "05-03-2024 10:00:00" H)).
Defined.

(** X21. Only a file that is not JSON is forgiven.  When the file is a JSON
    array in which some element lacks the ["id"] key, every constructor
    raises [KeyError] and no manager is built, although the elements before
    it were well formed.  A contact element may lack ["phone"] and
    ["email"]: it loads with both absent. *)
Theorem load_element_without_id_raises (now : string)
    (notes : list Note.t) (tasks : list Task.t) (contacts : list Contact.t)
    (records : list FinanceRecord.t) (fields : list (string * json))
    (rest : list json) (i : Z) (name : string)
    (Hstamped : Forall Note.stamped notes)
    (Hnoid : lookup "id" fields = None) :
  NoteManager.init now
    (Some (JsonText (JArr (map Note.to_dict notes ++ JObj fields :: rest))))
  = Raise (KeyError "id")
  /\ TaskManager.init
       (Some (JsonText (JArr (map Task.to_dict tasks ++ JObj fields :: rest))))
     = Raise (KeyError "id")
  /\ ContactManager.init
       (Some (JsonText
                (JArr (map Contact.to_dict contacts ++ JObj fields :: rest))))
     = Raise (KeyError "id")
  /\ FinanceManager.init
       (Some (JsonText
                (JArr (map FinanceRecord.to_dict records ++ JObj fields :: rest))))
     = Raise (KeyError "id")
  /\ ContactManager.init
       (Some (JsonText (JArr [JObj [("id", JNum i); ("name", JStr name)]])))
     = Ok (ContactManager.mk
             (Some (JsonText (JArr [JObj [("id", JNum i); ("name", JStr name)]])))
             [Contact.mk i name None None] []).
Proof.
  split; [|split; [|split; [|split]]].
  - unfold NoteManager.init; simpl.
    rewrite (mapM_app_raise (Note.from_dict now) _ notes (JObj fields) rest
               (KeyError "id")); [reflexivity| |].
    + apply (mapM_map_id Note.to_dict (Note.from_dict now) Note.stamped);
        auto using note_from_to_dict.
    + unfold Note.from_dict, subscript, getitem. now rewrite Hnoid.
  - unfold TaskManager.init; simpl.
    rewrite (mapM_app_raise Task.from_dict _ tasks (JObj fields) rest
               (KeyError "id")); [reflexivity| |].
    + apply (mapM_map_id Task.to_dict Task.from_dict (fun _ => True));
        auto using task_from_to_dict, Forall_trivial.
    + unfold Task.from_dict, subscript, getitem. now rewrite Hnoid.
  - unfold ContactManager.init; simpl.
    rewrite (mapM_app_raise Contact.from_dict _ contacts (JObj fields) rest
               (KeyError "id")); [reflexivity| |].
    + apply (mapM_map_id Contact.to_dict Contact.from_dict (fun _ => True));
        auto using contact_from_to_dict, Forall_trivial.
    + unfold Contact.from_dict, subscript, getitem. now rewrite Hnoid.
  - unfold FinanceManager.init; simpl.
    rewrite (mapM_app_raise FinanceRecord.from_dict _ records (JObj fields)
               rest (KeyError "id")); [reflexivity| |].
    + apply (mapM_map_id FinanceRecord.to_dict FinanceRecord.from_dict
               (fun _ => True)); auto using finance_from_to_dict, Forall_trivial.
    + unfold FinanceRecord.from_dict, subscript, getitem. now rewrite Hnoid.
  - reflexivity.
Qed.

Lemma load_element_without_id_witness :
  Forall Note.stamped [sample_note]
  /\ lookup "id" [("title", JStr "x")] = None
  /\ TaskManager.init
       (Some (JsonText
                (JArr (map Task.to_dict [sample_task]
                       ++ JObj [("title", JStr "x")] :: []))))
     = Raise (KeyError "id").
Proof.
  assert (H : Forall Note.stamped [sample_note])
    by (repeat constructor; discriminate).
  split; [exact H|]. split; [reflexivity|].
  exact (proj1 (proj2 (load_element_without_id_raises "05-03-2024 10:00:00"
                  [sample_note] [sample_task] [sample_contact] [sample_record]
                  [("title", JStr "x")] [] 1 "Bob" H eq_refl))).
Defined.

(** ** Export and re-import *)

Lemma digit_char (m : Z) :
  0 <= m < 10 ->
  is_digit (ascii_of_N (Z.to_N (48 + m))) = true
  /\ digit_val (ascii_of_N (Z.to_N (48 + m))) = m.
Proof.
  intros H.
  assert (E : m = 0 \/ m = 1 \/ m = 2 \/ m = 3 \/ m = 4 \/ m = 5 \/ m = 6
              \/ m = 7 \/ m = 8 \/ m = 9) by lia.
  repeat (destruct E as [->|E]; [split; reflexivity|]).
  subst; split; reflexivity.
Qed.

Lemma digits_of_value (f : nat) :
  forall n acc,
    0 <= n < 2 ^ Z.of_nat (S f) ->
    exists k, 0 <= k /\ forall a,
      digits_from a (digits_of (S f) n acc) = digits_from (a * 10 ^ k + n) acc.
Proof.
  induction f as [|f IH]; intros n acc Hn.
  - assert (Hlt : n < 10) by (change (2 ^ Z.of_nat 1) with 2 in Hn; lia).
    exists 1; split; [lia|]; intros a. cbn [digits_of].
    apply Z.ltb_lt in Hlt; rewrite Hlt; cbn [digits_from].
    apply Z.ltb_lt in Hlt.
    rewrite Z.mod_small by lia.
    destruct (digit_char n) as (-> & ->); [lia|]. f_equal; lia.
  - cbn [digits_of]. destruct (Z.ltb_spec n 10) as [Hlt|Hge].
    + exists 1; split; [lia|]; intros a. cbn [digits_from].
      rewrite Z.mod_small by lia.
      destruct (digit_char n) as (-> & ->); [lia|]. f_equal; lia.
    + assert (Hq : 0 <= n / 10 < 2 ^ Z.of_nat (S f)).
      { split; [apply Z.div_pos; lia|].
        rewrite Nat2Z.inj_succ, Z.pow_succ_r in Hn by lia.
        apply Z.div_lt_upper_bound; lia. }
      destruct (IH (n / 10)
                  (String (ascii_of_N (Z.to_N (48 + n mod 10))) acc) Hq)
        as (k & Hk0 & Hk).
      exists (k + 1); split; [lia|]; intros a. rewrite Hk. cbn [digits_from].
      assert (Hm : 0 <= n mod 10 < 10) by (apply Z.mod_pos_bound; lia).
      destruct (digit_char (n mod 10) Hm) as (-> & ->). f_equal.
      rewrite Z.pow_add_r by lia.
      pose proof (Z.div_mod n 10). lia.
Qed.

Lemma digits_of_head (f : nat) :
  forall n acc, 0 <= n ->
    exists c s, digits_of (S f) n acc = String c s /\ is_digit c = true.
Proof.
  induction f as [|f IH]; intros n acc Hn; cbn [digits_of].
  - assert (Hm : 0 <= n mod 10 < 10) by (apply Z.mod_pos_bound; lia).
    destruct (n <? 10); eexists _, _; split; try reflexivity;
      now apply digit_char.
  - destruct (n <? 10).
    + assert (Hm : 0 <= n mod 10 < 10) by (apply Z.mod_pos_bound; lia).
      eexists _, _; split; [reflexivity|now apply digit_char].
    + apply IH. apply Z.div_pos; lia.
Qed.

Lemma log2_fuel (n : Z) : 0 <= n -> 0 <= n < 2 ^ Z.of_nat (S (Z.to_nat (Z.log2 n))).
Proof.
  intros Hn; split; [exact Hn|].
  rewrite Nat2Z.inj_succ, Z2Nat.id by apply Z.log2_nonneg.
  destruct (Z.eq_dec n 0) as [->|Hz]; [reflexivity|].
  apply Z.log2_spec; lia.
Qed.

Lemma parse_num_digits (n : Z) :
  0 <= n ->
  parse_num (digits_of (S (Z.to_nat (Z.log2 n))) n "") = Some n
  /\ parse_signed (digits_of (S (Z.to_nat (Z.log2 n))) n "") = Some n.
Proof.
  intros Hn.
  destruct (digits_of_head (Z.to_nat (Z.log2 n)) n "" Hn) as (c & s & Hs & Hc).
  destruct (digits_of_value (Z.to_nat (Z.log2 n)) n "" (log2_fuel n Hn))
    as (k & _ & Hk).
  assert (Hp : parse_num (digits_of (S (Z.to_nat (Z.log2 n))) n "") = Some n).
  { unfold parse_num. rewrite Hs, <- Hs, Hk. simpl. f_equal; lia. }
  split; [exact Hp|].
  unfold parse_signed. rewrite Hs in *.
  destruct c as [[] [] [] [] [] [] [] []]; try discriminate Hc; exact Hp.
Qed.

(** [int] reads back what [str] printed. *)
Lemma py_int_str (n : Z) : py_int (py_str_int n) = Ok n.
Proof.
  unfold py_int, py_str_int. destruct (Z.ltb_spec n 0) as [Hneg|Hpos].
  - cbn [parse_signed].
    destruct (parse_num_digits (- n)) as (-> & _); [lia|].
    simpl. f_equal; lia.
  - now destruct (parse_num_digits n Hpos) as (_ & ->).
Qed.

Lemma task_row_reread (x : Task.t) :
  task_csv_safe x = true ->
  exists row,
    cells_of [("id", JNum (Task.id x)); ("title", JStr (Task.title x));
              ("description", JStr (Task.description x));
              ("done", JBool (Task.done x));
              ("priority", JStr (Task.priority x));
              ("due_date", of_opt_str (Task.due_date x))]
    = Ok row
    /\ TaskManager.of_row row = Ok (task_reread x).
Proof.
  destruct x as [i ti de dn pr du]; unfold task_reread, task_csv_safe;
    cbn [Task.id Task.title Task.description Task.done Task.priority
         Task.due_date].
  intros H. apply andb_prop in H as [H Hdu]. apply andb_prop in H as [H Hpr].
  apply andb_prop in H as [Hti Hde].
  destruct dn, du as [d|]; cbn [ContactManager.or_empty] in Hdu;
    cbn [cells_of cell of_opt_str]; rewrite Hti, Hde, Hpr, ?Hdu; cbn [bind];
    (eexists; split; [reflexivity|]);
    unfold TaskManager.of_row; cbn [getitem lookup String.eqb Ascii.eqb
                                    Bool.eqb bind];
    rewrite py_int_str; reflexivity.
Qed.

Lemma contact_row_reread (c : Contact.t) :
  contact_csv_safe c = true ->
  exists row,
    cells_of [("id", JNum (Contact.id c)); ("name", JStr (Contact.name c));
              ("phone", of_opt_str (Contact.phone c));
              ("email", of_opt_str (Contact.email c))]
    = Ok row
    /\ ContactManager.of_row row = Ok (contact_reread c).
Proof.
  destruct c as [i na ph em]; unfold contact_reread, contact_csv_safe;
    cbn [Contact.id Contact.name Contact.phone Contact.email].
  intros H. apply andb_prop in H as [H Hem]. apply andb_prop in H as [Hna Hph].
  destruct ph as [p|], em as [e|]; cbn [ContactManager.or_empty] in Hph, Hem;
    cbn [cells_of cell of_opt_str]; rewrite Hna, ?Hph, ?Hem; cbn [bind];
    (eexists; split; [reflexivity|]);
    unfold ContactManager.of_row; cbn [getitem lookup String.eqb Ascii.eqb
                                       Bool.eqb bind];
    rewrite py_int_str; reflexivity.
Qed.

Lemma note_row_reread (n : Note.t) :
  note_csv_safe n = true ->
  exists row,
    cells_of [("id", JNum (Note.id n)); ("title", JStr (Note.title n));
              ("content", JStr (Note.content n));
              ("timestamp", JStr (Note.timestamp n))]
    = Ok row
    /\ NoteManager.cells row = Ok (note_reread n).
Proof.
  destruct n as [i ti c ts]; unfold note_csv_safe;
    cbn [Note.title Note.content Note.timestamp].
  intros H. apply andb_prop in H as [H Hts]. apply andb_prop in H as [Hti Hc].
  cbn [cells_of cell]; rewrite Hti, Hc, Hts; cbn [bind].
  eexists; split; reflexivity.
Qed.

(** Reading an export back and converting its rows gives the re-read
    records. *)
Lemma read_back_convert {A B : Type} (to_dict : A -> json)
    (of_row : csv_row -> res B) (reread : A -> B) (l : list A) :
  (forall a, In a l ->
             exists fields row,
               to_dict a = JObj fields /\ cells_of fields = Ok row
               /\ of_row row = Ok (reread a)) ->
  exists rows,
    read_back (map to_dict l) = Ok rows
    /\ mapM of_row rows = Ok (map reread l).
Proof.
  unfold read_back; induction l as [|a l IH]; intros H; simpl.
  - exists []; split; reflexivity.
  - destruct (H a (or_introl eq_refl)) as (fields & row & -> & Hc & Ho).
    destruct IH as (rows & Hr & Hm); [intros b Hb; apply H; now right|].
    exists (row :: rows). rewrite Hc, Hr; simpl. now rewrite Ho, Hm.
Qed.

Lemma merge_rows_all_known {A : Type} (rid : A -> Z)
    (of_row : csv_row -> res A) (rows : list csv_row) :
  forall xs l,
    mapM of_row rows = Ok xs ->
    (forall x, In x xs -> In (rid x) (map rid l)) ->
    merge_rows rid of_row rows l = (Ok tt, l).
Proof.
  induction rows as [|row rows IH]; intros xs l H Hin; [reflexivity|].
  apply mapM_cons_ok in H as (x & xs' & Hx & Hxs & ->).
  simpl; rewrite Hx.
  assert (E : existsb (fun y => rid y =? rid x) l = true).
  { specialize (Hin x (or_introl eq_refl)).
    apply in_map_iff in Hin as (y & Hy & Hin).
    apply existsb_exists; exists y; split; [auto|now apply Z.eqb_eq]. }
  rewrite E. apply (IH xs'); [exact Hxs|]. intros y Hy; apply Hin; simpl; auto.
Qed.

Lemma merge_rows_all_new {A : Type} (rid : A -> Z)
    (of_row : csv_row -> res A) (rows : list csv_row) :
  forall xs l,
    mapM of_row rows = Ok xs ->
    NoDup (map rid (l ++ xs)) ->
    merge_rows rid of_row rows l = (Ok tt, l ++ xs).
Proof.
  induction rows as [|row rows IH]; intros xs l H Hnd.
  - injection H as <-; simpl; now rewrite app_nil_r.
  - apply mapM_cons_ok in H as (x & xs' & Hx & Hxs & ->).
    simpl; rewrite Hx.
    assert (E : existsb (fun y => rid y =? rid x) l = false).
    { destruct (existsb (fun y => rid y =? rid x) l) eqn:E; [|reflexivity].
      apply existsb_id_true in E.
      rewrite map_app in Hnd; simpl in Hnd.
      apply NoDup_remove_2 in Hnd. elim Hnd. apply in_app_iff; auto. }
    rewrite E.
    rewrite (IH xs' (l ++ [x]) Hxs); rewrite <- app_assoc; [reflexivity|].
    exact Hnd.
Qed.

Lemma map_id_task_reread (l : list Task.t) :
  map Task.id (map task_reread l) = map Task.id l.
Proof. rewrite map_map; reflexivity. Qed.

Lemma map_id_contact_reread (l : list Contact.t) :
  map Contact.id (map contact_reread l) = map Contact.id l.
Proof. rewrite map_map; reflexivity. Qed.

(** X22. Tasks and contacts through CSV, for text the [csv] module takes
    through a file unharmed (no field above the reader's size limit, no
    NUL).  An export leaves the collection as it is.  Written to another
    path it leaves the backing file alone; written onto the manager's own
    backing file it replaces the JSON text, and the next manager constructed
    on that file starts empty with the decoding diagnostic.  Importing a
    manager's own export back into it completes and adds nothing, every id
    being known.  Importing it into an empty manager restores the records in
    order with their ids, except that an absent due date, phone or email
    comes back as the empty string and carriage returns in text come back as
    line feeds. *)
Theorem export_import_tasks_contacts (path : string) (onto_storage : bool)
    (tm : TaskManager.t) (cm : ContactManager.t)
    (Ht : NoDup (task_ids tm)) (Hc : NoDup (contact_ids cm))
    (Hts : forallb task_csv_safe (TaskManager.tasks tm) = true)
    (Hcs : forallb contact_csv_safe (ContactManager.contacts cm) = true) :
  (TaskManager.tasks (TaskManager.export_to_csv path onto_storage tm)
   = TaskManager.tasks tm
   /\ TaskManager.storage_file (TaskManager.export_to_csv path false tm)
      = TaskManager.storage_file tm
   /\ TaskManager.init
        (TaskManager.storage_file (TaskManager.export_to_csv path true tm))
      = Ok (TaskManager.mk (Some Unparseable) [] [Printed MsgJsonError])
   /\ TaskManager.trace (TaskManager.export_to_csv path onto_storage tm)
      = TaskManager.trace tm
        ++ [WroteCsv path (map Task.to_dict (TaskManager.tasks tm))]
   /\ exists rows,
        read_back (map Task.to_dict (TaskManager.tasks tm)) = Ok rows
        /\ mapM TaskManager.of_row rows
           = Ok (map task_reread (TaskManager.tasks tm))
        /\ fst (TaskManager.import_from_csv (Some rows) tm) = Ok tt
        /\ TaskManager.tasks (snd (TaskManager.import_from_csv (Some rows) tm))
           = TaskManager.tasks tm
        /\ TaskManager.tasks
             (snd (TaskManager.import_from_csv (Some rows)
                     (TaskManager.mk None [] [])))
           = map task_reread (TaskManager.tasks tm))
  /\ (ContactManager.contacts
        (ContactManager.export_to_csv path onto_storage cm)
      = ContactManager.contacts cm
      /\ ContactManager.storage_file
           (ContactManager.export_to_csv path false cm)
         = ContactManager.storage_file cm
      /\ ContactManager.init
           (ContactManager.storage_file
              (ContactManager.export_to_csv path true cm))
         = Ok (ContactManager.mk (Some Unparseable) [] [Printed MsgJsonError])
      /\ ContactManager.trace
           (ContactManager.export_to_csv path onto_storage cm)
         = ContactManager.trace cm
           ++ [WroteCsv path
                 (map Contact.to_dict (ContactManager.contacts cm))]
      /\ exists rows,
           read_back (map Contact.to_dict (ContactManager.contacts cm))
           = Ok rows
           /\ mapM ContactManager.of_row rows
              = Ok (map contact_reread (ContactManager.contacts cm))
           /\ fst (ContactManager.import_from_csv (Some rows) cm) = Ok tt
           /\ ContactManager.contacts
                (snd (ContactManager.import_from_csv (Some rows) cm))
              = ContactManager.contacts cm
           /\ ContactManager.contacts
                (snd (ContactManager.import_from_csv (Some rows)
                        (ContactManager.mk None [] [])))
              = map contact_reread (ContactManager.contacts cm)).
Proof.
  rewrite forallb_forall in Hts, Hcs.
  split; (split; [reflexivity|split; [reflexivity|split; [reflexivity|
          split; [reflexivity|]]]]).
  - assert (Hrow : forall x, In x (TaskManager.tasks tm) ->
                exists fields row,
                  Task.to_dict x = JObj fields /\ cells_of fields = Ok row
                  /\ TaskManager.of_row row = Ok (task_reread x)).
    { intros x Hx; destruct (task_row_reread x (Hts x Hx)) as (row & Hrow & Hx').
      eexists _, row; split; [reflexivity|auto]. }
    destruct (read_back_convert Task.to_dict TaskManager.of_row task_reread
                (TaskManager.tasks tm) Hrow) as (rows & Hrows & Hconv).
    exists rows; split; [exact Hrows|]. split; [exact Hconv|].
    unfold TaskManager.import_from_csv; rewrite !task_import_rows_merge.
    cbn [TaskManager.tasks].
    rewrite (merge_rows_all_known Task.id _ rows _ _ Hconv).
    2:{ intros x Hx. rewrite <- map_id_task_reread. now apply in_map. }
    rewrite (merge_rows_all_new Task.id _ rows _ [] Hconv).
    2:{ simpl. now rewrite map_id_task_reread. }
    repeat split.
  - assert (Hrow : forall x, In x (ContactManager.contacts cm) ->
                exists fields row,
                  Contact.to_dict x = JObj fields /\ cells_of fields = Ok row
                  /\ ContactManager.of_row row = Ok (contact_reread x)).
    { intros x Hx;
        destruct (contact_row_reread x (Hcs x Hx)) as (row & Hrow & Hx').
      eexists _, row; split; [reflexivity|auto]. }
    destruct (read_back_convert Contact.to_dict ContactManager.of_row
                contact_reread (ContactManager.contacts cm) Hrow)
      as (rows & Hrows & Hconv).
    exists rows; split; [exact Hrows|]. split; [exact Hconv|].
    unfold ContactManager.import_from_csv; rewrite !contact_import_rows_merge.
    cbn [ContactManager.contacts].
    rewrite (merge_rows_all_known Contact.id _ rows _ _ Hconv).
    2:{ intros x Hx. rewrite <- map_id_contact_reread. now apply in_map. }
    rewrite (merge_rows_all_new Contact.id _ rows _ [] Hconv).
    2:{ simpl. now rewrite map_id_contact_reread. }
    repeat split.
Qed.

Lemma export_import_tasks_contacts_witness :
  NoDup (task_ids (TaskManager.mk None [sample_task; april_task] []))
  /\ NoDup (contact_ids (ContactManager.mk None [sample_contact] []))
  /\ forallb task_csv_safe [sample_task; april_task] = true
  /\ forallb contact_csv_safe [sample_contact] = true
  /\ exists rows,
       read_back (map Contact.to_dict [sample_contact]) = Ok rows
       /\ mapM ContactManager.of_row rows
          = Ok (map contact_reread [sample_contact])
       /\ fst (ContactManager.import_from_csv (Some rows)
                 (ContactManager.mk None [sample_contact] []))
          = Ok tt
       /\ ContactManager.contacts
            (snd (ContactManager.import_from_csv (Some rows)
                    (ContactManager.mk None [sample_contact] [])))
          = [sample_contact]
       /\ ContactManager.contacts
            (snd (ContactManager.import_from_csv (Some rows)
                    (ContactManager.mk None [] [])))
          = map contact_reread [sample_contact].
Proof.
  assert (Ht : NoDup (task_ids (TaskManager.mk None [sample_task; april_task] [])))
    by (repeat constructor; simpl; intuition discriminate).
  assert (Hc : NoDup (contact_ids (ContactManager.mk None [sample_contact] [])))
    by (repeat constructor; simpl; tauto).
  split; [exact Ht|]. split; [exact Hc|].
  split; [reflexivity|]. split; [reflexivity|].
  exact (proj2 (proj2 (proj2 (proj2 (proj2
           (export_import_tasks_contacts "contacts.csv" false _ _ Ht Hc
              eq_refl eq_refl)))))).
Defined.

Lemma note_import_notes_cells (now : string) (rows : list csv_row)
    (cs : list (string * string * string)) (nm : NoteManager.t) :
  mapM NoteManager.cells rows = Ok cs ->
  NoteManager.notes (snd (NoteManager.import_from_csv now (Some rows) nm))
  = NoteManager.notes nm ++ minted now (max_default (note_ids nm) + 1) cs.
Proof.
  intros H; unfold NoteManager.import_from_csv.
  destruct (note_import_rows_minted now rows cs None (NoteManager.notes nm) H)
    as (r & -> & _).
  now destruct r.
Qed.

(** X23. Notes through CSV, for text the [csv] module takes through a file
    unharmed.  An export leaves the collection as it is; written to another
    path it leaves the backing file alone, written onto the manager's own
    backing file it replaces the JSON text, and the next manager constructed
    on that file starts empty with the decoding diagnostic.  The import does
    not read the id column: importing a manager's own export back into it
    appends a copy of every note under a fresh id, and importing it into an
    empty manager numbers the notes from 1 whatever their ids were.  Title,
    content and timestamp come back with carriage returns turned into line
    feeds. *)
Theorem export_import_notes (now path : string) (onto_storage : bool)
    (nm : NoteManager.t)
    (Hsafe : forallb note_csv_safe (NoteManager.notes nm) = true) :
  NoteManager.notes (NoteManager.export_to_csv path onto_storage nm)
  = NoteManager.notes nm
  /\ NoteManager.storage_file (NoteManager.export_to_csv path false nm)
     = NoteManager.storage_file nm
  /\ NoteManager.init now
       (NoteManager.storage_file (NoteManager.export_to_csv path true nm))
     = Ok (NoteManager.mk (Some Unparseable) [] [Printed MsgJsonError])
  /\ NoteManager.trace (NoteManager.export_to_csv path onto_storage nm)
     = NoteManager.trace nm
       ++ [WroteCsv path (map Note.to_dict (NoteManager.notes nm))]
  /\ exists rows,
       read_back (map Note.to_dict (NoteManager.notes nm)) = Ok rows
       /\ Forall2 note_columns rows (map note_reread (NoteManager.notes nm))
       /\ NoteManager.notes (snd (NoteManager.import_from_csv now (Some rows) nm))
          = NoteManager.notes nm
            ++ row_notes now (max_default (note_ids nm) + 1)
                 (map note_reread (NoteManager.notes nm))
       /\ NoteManager.notes
            (snd (NoteManager.import_from_csv now (Some rows)
                    (NoteManager.mk None [] [])))
          = row_notes now 1 (map note_reread (NoteManager.notes nm))
       /\ (NoteManager.notes nm <> [] ->
           fst (NoteManager.import_from_csv now (Some rows) nm) = Ok tt).
Proof.
  rewrite forallb_forall in Hsafe.
  split; [reflexivity|split; [reflexivity|split; [reflexivity|
          split; [reflexivity|]]]].
  assert (Hrow : forall x, In x (NoteManager.notes nm) ->
              exists fields row,
                Note.to_dict x = JObj fields /\ cells_of fields = Ok row
                /\ NoteManager.cells row = Ok (note_reread x)).
  { intros x Hx; destruct (note_row_reread x (Hsafe x Hx)) as (row & Hrow & Hx').
    eexists _, row; split; [reflexivity|auto]. }
  destruct (read_back_convert Note.to_dict NoteManager.cells note_reread
              (NoteManager.notes nm) Hrow) as (rows & Hrows & Hconv).
  exists rows; split; [exact Hrows|]. split.
  { eapply mapM_Forall2; [|exact Hconv]. apply note_cells_columns. }
  rewrite !(note_import_notes_cells now rows _ _ Hconv).
  assert (Hmint : forall j cs, minted now j cs = row_notes now j cs).
  { intros j cs; revert j.
    induction cs as [|[[ti c] ts] cs IH]; intros j; [reflexivity|].
    cbn [minted row_notes]. rewrite IH.
    unfold Note.init, truthy_opt. reflexivity. }
  rewrite !Hmint.
  split; [reflexivity|]. split; [reflexivity|].
  intros Hne. apply (note_import_appends now rows _ nm Hconv).
  intros ->. apply mapM_length in Hconv. rewrite length_map in Hconv.
  destruct (NoteManager.notes nm); [congruence|discriminate].
Qed.

Lemma export_import_notes_witness :
  forallb note_csv_safe [sample_note] = true
  /\ NoteManager.init "05-03-2024 10:00:00"
       (NoteManager.storage_file
          (NoteManager.export_to_csv "notes.json" true
             (NoteManager.mk (Some (json_dump (JArr [Note.to_dict sample_note])))
                [sample_note] [])))
     = Ok (NoteManager.mk (Some Unparseable) [] [Printed MsgJsonError]).
Proof.
  split; [reflexivity|].
  exact (proj1 (proj2 (proj2 (export_import_notes "05-03-2024 10:00:00"
                                "notes.json" true
                                (NoteManager.mk
                                   (Some (json_dump
                                            (JArr [Note.to_dict sample_note])))
                                   [sample_note] [])
                                eq_refl)))).
Defined.

(** ** The calculator's guard *)

Lemma all_chars_impl (p q : ascii -> bool) (s : string) :
  (forall c, p c = true -> q c = true) ->
  all_chars p s = true -> all_chars q s = true.
Proof.
  intros H; induction s as [|c s IH]; simpl; [reflexivity|].
  intros E; apply andb_prop in E as [Hc Hs]. now rewrite (H c Hc), IH.
Qed.

Lemma operator_is_ascii (c : ascii) : is_operator c = true -> is_ascii c = true.
Proof.
  destruct c as [[] [] [] [] [] [] [] []]; cbv; intros H;
    (discriminate H || reflexivity).
Qed.

Lemma space_is_ascii (c : ascii) : is_space c = true -> is_ascii c = true.
Proof.
  destruct c as [[] [] [] [] [] [] [] []]; cbv; intros H;
    (discriminate H || reflexivity).
Qed.

Lemma space_not_operator (c : ascii) : is_space c = true -> is_operator c = false.
Proof.
  destruct c as [[] [] [] [] [] [] [] []]; cbv; intros H;
    (discriminate H || reflexivity).
Qed.

Lemma no_words_in_operators (x : string) :
  all_chars (fun c => (is_operator c || is_space c)%bool) x = true ->
  word_lengths 0 (blank_operators x) = [].
Proof.
  induction x as [|c x IH]; simpl; [reflexivity|].
  intros E; apply andb_prop in E as [Hc Hx].
  destruct (is_operator c) eqn:Hop; simpl in *; [now apply IH|].
  rewrite Hc; now apply IH.
Qed.

(** X24. An expression without digits brings the calculator down.
    [check_values] takes [max] of the lengths of the numbers; on a string
    made of operators and white space (the empty string included) that has
    no ["**"] the list is empty and [max] raises [ValueError].  The loop
    calls [check_values] outside its [try], so a line such as ["+"], which
    passes the character test, ends the calculator with that exception. *)
Theorem operators_alone_raise_value_error (x s : string)
    (Hx : all_chars (fun c => (is_operator c || is_space c)%bool) x = true)
    (Hxpow : str_in "**" x = false)
    (Hs : all_chars is_operator s = true)
    (Hne : s <> "")
    (Hspow : str_in "**" s = false) :
  check_values x = Raise ValueError
  /\ calculator_step s = Raise ValueError.
Proof.
  assert (Hcv : forall y,
             all_chars (fun c => (is_operator c || is_space c)%bool) y = true ->
             str_in "**" y = false -> check_values y = Raise ValueError).
  { intros y Hy Hpow; unfold check_values. rewrite Hpow.
    assert (Hascii : all_chars is_ascii y = true).
    { apply (all_chars_impl _ is_ascii y) in Hy; [exact Hy|].
      intros c Hc; apply orb_prop in Hc as [Hc|Hc];
        [now apply operator_is_ascii|now apply space_is_ascii]. }
    rewrite Hascii; simpl. now rewrite no_words_in_operators. }
  split; [now apply Hcv|].
  unfold calculator_step. rewrite (truthy_true s Hne); simpl.
  assert (Hallowed : all_chars (fun i => (is_digit i || is_operator i)%bool) s
                     = true).
  { apply (all_chars_impl is_operator); [|exact Hs].
    intros c Hc; rewrite Hc; apply orb_true_r. }
  rewrite Hallowed; simpl.
  rewrite Hcv; [reflexivity| |exact Hspow].
  apply (all_chars_impl is_operator); [|exact Hs].
  intros c Hc; now rewrite Hc.
Qed.

Lemma operators_alone_witness :
  all_chars (fun c => (is_operator c || is_space c)%bool) "" = true
  /\ str_in "**" "" = false
  /\ all_chars is_operator "+" = true
  /\ "+" <> ""
  /\ str_in "**" "+" = false
  /\ calculator_step "+" = Raise ValueError.
Proof.
  assert (H : "+" <> "") by discriminate.
  repeat (split; [reflexivity || exact H|]).
  exact (proj2 (operators_alone_raise_value_error "" "+"
                  eq_refl eq_refl eq_refl H eq_refl)).
Defined.

Lemma no_power_in_dashes (n : nat) : str_in "**" (dashes n ++ "1") = false.
Proof. induction n as [|n IH]; [reflexivity|exact IH]. Qed.

Lemma one_word_after_dashes (n : nat) :
  word_lengths 0 (blank_operators (dashes n ++ "1")) = [1%nat].
Proof. induction n as [|n IH]; [reflexivity|exact IH]. Qed.

Lemma dashes_allowed (p : ascii -> bool) (n : nat) :
  p "-"%char = true -> p "1"%char = true ->
  all_chars p (dashes n ++ "1") = true.
Proof.
  intros Hd H1; induction n as [|n IH]; simpl; [now rewrite H1|].
  now rewrite Hd, IH.
Qed.

(** X25. What the calculator lets through to evaluation.  A line is
    evaluated exactly when it is non-empty, consists of digits and the four
    operator characters, has no ["**"], and holds between one and five
    numbers of at most nine digits each.  The number of operators is not
    bounded, whatever the message says: two numbers with any number of minus
    signs between them pass. *)
Theorem calculator_lets_through (s : string) :
  (calculator_step s = Ok (Evaluate s)
   <-> s <> ""
       /\ all_chars (fun i => (is_digit i || is_operator i)%bool) s = true
       /\ str_in "**" s = false
       /\ word_lengths 0 (blank_operators s) <> []
       /\ Forall (fun k => (k <= 9)%nat) (word_lengths 0 (blank_operators s))
       /\ (List.length (word_lengths 0 (blank_operators s)) <= 5)%nat)
  /\ (forall n,
         calculator_step (String "1" (dashes (S n) ++ "1"))
         = Ok (Evaluate (String "1" (dashes (S n) ++ "1")))).
Proof.
  split.
  - unfold calculator_step, check_values.
    destruct s as [|c s]; [simpl; split; [discriminate|intros (H & _); congruence]|].
    cbn [truthy String.eqb negb].
    set (x := String c s).
    destruct (all_chars (fun i => (is_digit i || is_operator i)%bool) x) eqn:Hal;
      cbn [negb]; [|split; [discriminate|intros (_ & H & _); discriminate]].
    assert (Hascii : all_chars is_ascii x = true).
    { apply (all_chars_impl _ is_ascii x) in Hal; [exact Hal|].
      intros a; destruct a as [[] [] [] [] [] [] [] []]; cbv; intros H;
        (discriminate H || reflexivity). }
    destruct (str_in "**" x) eqn:Hpow;
      [split; [discriminate|intros (_ & _ & H & _); discriminate]|].
    rewrite Hascii; cbn [negb].
    destruct (word_lengths 0 (blank_operators x)) as [|k ks] eqn:Hw;
      [split; [discriminate|intros (_ & _ & _ & H & _); congruence]|].
    destruct (Nat.ltb_spec 9 (list_max (k :: ks))) as [Hlong|Hshort].
    + split; [discriminate|]. intros (_ & _ & _ & _ & H & _).
      apply list_max_le in H. lia.
    + destruct (Nat.ltb_spec 5 (List.length (k :: ks))) as [Hmany|Hfew].
      * split; [discriminate|]. intros (_ & _ & _ & _ & _ & H). lia.
      * split; [|reflexivity]. intros _.
        repeat split; try discriminate; auto. now apply list_max_le.
  - intros n. unfold calculator_step, check_values.
    cbn [truthy String.eqb negb].
    assert (Hal : all_chars (fun i => (is_digit i || is_operator i)%bool)
                    (String "1" (dashes (S n) ++ "1")) = true)
      by (apply (dashes_allowed _ (S (S n)) eq_refl eq_refl) ||
          exact (dashes_allowed _ (S n) eq_refl eq_refl)).
    rewrite Hal; cbn [negb].
    assert (Hpow : str_in "**" (String "1" (dashes (S n) ++ "1")) = false)
      by exact (no_power_in_dashes (S n)).
    rewrite Hpow.
    assert (Hascii : all_chars is_ascii (String "1" (dashes (S n) ++ "1")) = true)
      by exact (dashes_allowed is_ascii (S n) eq_refl eq_refl).
    rewrite Hascii; cbn [negb].
    assert (Hw : word_lengths 0
                   (blank_operators (String "1" (dashes (S n) ++ "1")))
                 = [1%nat; 1%nat]).
    { change (1%nat :: word_lengths 0 (blank_operators (dashes n ++ "1"))
              = [1%nat; 1%nat]).
      now rewrite one_word_after_dashes. }
    rewrite Hw. reflexivity.
Qed.

(** ** Searching contacts: edge cases *)

Lemma prefix_refl (s : string) : prefix s s = true.
Proof.
  induction s as [|c s IH]; simpl; [reflexivity|].
  destruct (ascii_dec c c); [exact IH|congruence].
Qed.

Lemma str_in_empty (s : string) : str_in "" s = true.
Proof. destruct s; reflexivity. Qed.

Lemma str_in_self (s : string) : str_in s s = true.
Proof.
  destruct s as [|c s]; simpl; [reflexivity|].
  destruct (ascii_dec c c); [|congruence]. now rewrite prefix_refl.
Qed.

Lemma str_in_tail (q : string) (c : ascii) (s : string) :
  str_in q s = true -> str_in q (String c s) = true.
Proof.
  intros H. cbn [str_in]. destruct (prefix q (String c s)); [reflexivity|exact H].
Qed.

Lemma str_in_append (q a b : string) :
  str_in q b = true -> str_in q (a ++ b) = true.
Proof.
  intros H; induction a as [|c a IH]; [exact H|].
  simpl String.append. now apply str_in_tail.
Qed.

Lemma matching_filter (q : string) (l : list Contact.t) :
  Forall (fun c => all_chars is_ascii (Contact.name c) = true) l ->
  ContactManager.matching q l
  = Ok (filter (fun c =>
                  (str_in q (lower (Contact.name c))
                   || str_in q (ContactManager.or_empty (Contact.phone c)))%bool)
               l).
Proof.
  intros H; induction H as [|c l Hc _ IH]; [reflexivity|].
  cbn [ContactManager.matching filter]. unfold py_lower.
  rewrite Hc; cbn [bind]. rewrite IH; cbn [bind ContactManager.or_empty].
  reflexivity.
Qed.

(** X26. Searching with an ASCII query among contacts with ASCII names
    (other text takes Unicode case tables).  The search returns, in
    collection order, exactly the contacts whose lower-cased name or whose
    phone as stored contains the lower-cased query.  So the empty query
    finds every contact; a query that is a contact's whole name, in any
    letter case, finds that contact; and so does a query whose lower-cased
    form is the tail of its stored phone. *)
Theorem search_contacts_edge_cases (query : string) (cm : ContactManager.t)
    (Hquery : all_chars is_ascii query = true)
    (Hnames : Forall (fun c => all_chars is_ascii (Contact.name c) = true)
                (ContactManager.contacts cm)) :
  ContactManager.search_contacts "" cm = Ok (ContactManager.contacts cm)
  /\ exists found,
       ContactManager.search_contacts query cm = Ok found
       /\ found
          = filter (fun c =>
                      (str_in (lower query) (lower (Contact.name c))
                       || str_in (lower query)
                            (ContactManager.or_empty (Contact.phone c)))%bool)
                   (ContactManager.contacts cm)
       /\ (forall c,
              In c (ContactManager.contacts cm) ->
              lower query = lower (Contact.name c) ->
              In c found)
       /\ (forall c head,
              In c (ContactManager.contacts cm) ->
              Contact.phone c = Some (head ++ lower query)%string ->
              In c found).
Proof.
  unfold ContactManager.search_contacts, py_lower.
  rewrite Hquery; cbn [all_chars bind lower]. rewrite !(matching_filter _ _ Hnames).
  split.
  - f_equal. erewrite filter_ext; [apply filter_all|].
    intros c; now rewrite str_in_empty.
  - eexists; split; [reflexivity|]. split; [reflexivity|]. split.
    + intros c Hc Hq. apply filter_In; split; [exact Hc|].
      rewrite Hq, str_in_self. reflexivity.
    + intros c head Hc Hp. apply filter_In; split; [exact Hc|].
      rewrite Hp; cbn [ContactManager.or_empty].
      rewrite (str_in_append _ head _ (str_in_self _)). apply orb_true_r.
Qed.

Lemma search_contacts_edge_cases_witness :
  all_chars is_ascii "AN" = true
  /\ Forall (fun c => all_chars is_ascii (Contact.name c) = true)
       [sample_contact; plain_contact]
  /\ ContactManager.search_contacts ""
       (ContactManager.mk None [sample_contact; plain_contact] [])
     = Ok [sample_contact; plain_contact].
Proof.
  assert (H : Forall (fun c => all_chars is_ascii (Contact.name c) = true)
                [sample_contact; plain_contact])
    by (repeat constructor).
  split; [reflexivity|]. split; [exact H|].
  exact (proj1 (search_contacts_edge_cases "AN"
                  (ContactManager.mk None [sample_contact; plain_contact] [])
                  eq_refl H)).
Defined.

(** ** The validators *)

Lemma append_nil_inv (s t : string) :
  (s ++ t)%string = EmptyString -> s = EmptyString /\ t = EmptyString.
Proof. destruct s; simpl; [auto|discriminate]. Qed.

Lemma append_nil_r (s : string) : (s ++ "")%string = s.
Proof. induction s as [|c s IH]; simpl; [reflexivity|now rewrite IH]. Qed.

Lemma append_assoc (s t u : string) :
  ((s ++ t) ++ u)%string = (s ++ (t ++ u))%string.
Proof. induction s as [|c s IH]; simpl; [reflexivity|now rewrite IH]. Qed.

Lemma lang_nil_nullable (r : re) (s : string) :
  lang r s -> s = EmptyString -> nullable r = true.
Proof.
  induction 1; intros E; simpl; try reflexivity; try discriminate.
  - apply append_nil_inv in E as [-> ->]. now rewrite IHlang1, IHlang2.
  - now rewrite IHlang.
  - rewrite IHlang by assumption. apply orb_true_r.
Qed.

Lemma nullable_lang_nil (r : re) : nullable r = true -> lang r EmptyString.
Proof.
  induction r; simpl; intros H; try discriminate.
  - constructor.
  - apply andb_prop in H as [Ha Hb].
    change EmptyString with ("" ++ "")%string. constructor; auto.
  - apply orb_prop in H as [H|H]; [apply LAltL|apply LAltR]; auto.
  - constructor.
Qed.

Lemma derive_sound (r : re) :
  forall c s, lang (derive c r) s -> lang r (String c s).
Proof.
  induction r; intros c s H; simpl in H.
  - inversion H.
  - inversion H.
  - destruct (p c) eqn:E; inversion H; subst. now constructor.
  - destruct (nullable r1) eqn:N.
    + inversion H; subst.
      * match goal with
        | K : lang (Seq _ _) _ |- _ => inversion K; subst
        end.
        change (String c (s0 ++ t)) with (String c s0 ++ t)%string.
        constructor; auto.
      * change (String c s) with ("" ++ String c s)%string.
        constructor; [now apply nullable_lang_nil|auto].
    + inversion H; subst.
      change (String c (s0 ++ t)) with (String c s0 ++ t)%string.
      constructor; auto.
  - inversion H; subst; [apply LAltL|apply LAltR]; auto.
  - inversion H; subst.
    change (String c (s0 ++ t)) with (String c s0 ++ t)%string.
    constructor; auto.
Qed.

Lemma derive_complete (r : re) (w : string) :
  lang r w -> forall c s, w = String c s -> lang (derive c r) s.
Proof.
  induction 1; intros c0 s0 E; simpl.
  - discriminate.
  - injection E as Ec Es; subst c0 s0. rewrite H. constructor.
  - destruct s as [|c s].
    + simpl in E; subst t.
      rewrite (lang_nil_nullable a "" H eq_refl).
      apply LAltR. now apply IHlang2.
    + simpl in E; injection E as Ec Es; subst c0 s0.
      assert (K : lang (Seq (derive c a) b) (s ++ t))
        by (constructor; [now apply IHlang1|assumption]).
      destruct (nullable a); [now apply LAltL|exact K].
  - apply LAltL; auto.
  - apply LAltR; auto.
  - discriminate.
  - destruct s as [|c s].
    + simpl in E. now apply IHlang2.
    + simpl in E; injection E as Ec Es; subst c0 s0.
      constructor; [now apply IHlang1|assumption].
Qed.

(** The matcher decides membership. *)
Lemma matches_lang (s : string) : forall r, matches r s = true <-> lang r s.
Proof.
  induction s as [|c s IH]; intros r; simpl.
  - split; [apply nullable_lang_nil|intros H; now apply (lang_nil_nullable r "")].
  - rewrite IH. split; [apply derive_sound|].
    intros H; now apply (derive_complete r _ H).
Qed.

Lemma all_chars_append (p : ascii -> bool) (s t : string) :
  all_chars p (s ++ t) = (all_chars p s && all_chars p t)%bool.
Proof.
  induction s as [|c s IH]; simpl; [reflexivity|].
  now rewrite IH, andb_assoc.
Qed.

Lemma count_chars_append (p : ascii -> bool) (s t : string) :
  count_chars p (s ++ t) = (count_chars p s + count_chars p t)%nat.
Proof. induction s as [|c s IH]; simpl; [reflexivity|rewrite IH; lia]. Qed.

Lemma lang_cls (p : ascii -> bool) (s : string) :
  lang (Cls p) s <-> exists c, s = String c EmptyString /\ p c = true.
Proof.
  split.
  - intros H; inversion H; subst; eauto.
  - intros (c & -> & H). now constructor.
Qed.

Lemma lang_star_cls (p : ascii -> bool) (s : string) :
  lang (Star (Cls p)) s <-> all_chars p s = true.
Proof.
  split.
  - remember (Star (Cls p)) as r eqn:E. induction 1; try discriminate.
    + reflexivity.
    + injection E as ->. rewrite all_chars_append, IHlang2 by reflexivity.
      apply lang_cls in H as (c & -> & Hc). simpl. now rewrite Hc.
  - induction s as [|c s IH]; simpl; intros H; [constructor|].
    apply andb_prop in H as [Hc Hs].
    change (String c s) with (String c "" ++ s)%string.
    constructor; [now constructor|auto].
Qed.

Lemma lang_seq (a b : re) (s : string) :
  lang (Seq a b) s <-> exists u v, s = (u ++ v)%string /\ lang a u /\ lang b v.
Proof.
  split.
  - intros H; inversion H; subst; eauto.
  - intros (u & v & -> & Ha & Hb). now constructor.
Qed.

Lemma lang_plus_cls (p : ascii -> bool) (s : string) :
  lang (plus (Cls p)) s <-> s <> EmptyString /\ all_chars p s = true.
Proof.
  unfold plus; split.
  - intros H. apply lang_seq in H as (u & v & -> & Hu & Hv).
    apply lang_cls in Hu as (c & -> & Hc). apply lang_star_cls in Hv.
    simpl; split; [discriminate|]. now rewrite Hc, Hv.
  - intros [Hne H]. destruct s as [|c s]; [congruence|].
    simpl in H; apply andb_prop in H as [Hc Hs].
    change (String c s) with (String c "" ++ s)%string.
    constructor; [now constructor|now apply lang_star_cls].
Qed.

Lemma lang_lit (c : ascii) (s : string) :
  lang (lit c) s <-> s = String c EmptyString.
Proof.
  unfold lit; split.
  - intros H. apply lang_cls in H as (c' & -> & Hc).
    apply Ascii.eqb_eq in Hc. now subst.
  - intros ->. constructor. apply Ascii.eqb_refl.
Qed.


Lemma email_regex_shape (s : string) : lang email_regex s <-> email_shape s.
Proof.
  unfold email_regex, email_shape. split.
  - intros H.
    apply lang_seq in H as (loc & r1 & -> & Hloc & H).
    apply lang_seq in H as (at_ & r2 & -> & Hat & H).
    apply lang_seq in H as (dom & r3 & -> & Hdom & H).
    apply lang_seq in H as (dot & r4 & -> & Hdot & H).
    apply lang_seq in H as (l1 & l2 & -> & Hl1 & Hl2).
    apply lang_lit in Hat, Hdot; subst.
    apply lang_plus_cls in Hloc as [Hloc1 Hloc2], Hdom as [Hdom1 Hdom2],
      Hl2 as [Hl21 Hl22].
    apply lang_cls in Hl1 as (c & -> & Hc).
    exists loc, dom, (String c "" ++ l2)%string. simpl.
    repeat split; auto.
    + destruct l2; [congruence|simpl; lia].
    + now rewrite Hc, Hl22.
  - intros (loc & dom & tld & -> & Hloc1 & Hloc2 & Hdom1 & Hdom2 & Hlen & Htld).
    destruct tld as [|c [|c' tld]]; simpl in Hlen; try lia.
    simpl in Htld. apply andb_prop in Htld as [Hc Htld].
    constructor; [now apply lang_plus_cls|].
    change ("@" ++ dom ++ "." ++ String c (String c' tld))%string
      with ("@" ++ (dom ++ ("." ++ (String c "" ++ String c' tld))))%string.
    constructor; [now apply lang_lit|].
    constructor; [now apply lang_plus_cls|].
    constructor; [now apply lang_lit|].
    constructor; [now constructor|].
    apply lang_plus_cls; split; [discriminate|exact Htld].
Qed.

Lemma chomp_append (w : string) : chomp (w ++ String "010" "") = Some w.
Proof.
  induction w as [|a w IH]; [reflexivity|].
  simpl String.append.
  destruct (w ++ String "010" "")%string as [|c' s'] eqn:E.
  - destruct w; discriminate.
  - change (chomp (String a (String c' s')))
      with (option_map (String a) (chomp (String c' s'))).
    now rewrite IH.
Qed.

Lemma chomp_some (s : string) :
  forall w, chomp s = Some w -> s = (w ++ String "010" "")%string.
Proof.
  induction s as [|c s IH]; intros w H; [discriminate|].
  destruct s as [|c' s'].
  - cbn [chomp] in H. destruct (Ascii.eqb_spec c "010") as [->|Hc];
      [|discriminate].
    now injection H as <-.
  - change (chomp (String c (String c' s')))
      with (option_map (String c) (chomp (String c' s'))) in H.
    destruct (chomp (String c' s')) as [v|]; [|discriminate].
    injection H as <-. simpl. f_equal. now apply IH.
Qed.

Lemma chomp_spec (s w : string) :
  chomp s = Some w <-> s = (w ++ String "010" "")%string.
Proof.
  split; [apply chomp_some|intros ->; apply chomp_append].
Qed.

Lemma count_zero_outside (p q : ascii -> bool) (s : string) :
  (forall c, p c = true -> q c = false) ->
  all_chars p s = true -> count_chars q s = O.
Proof.
  intros H; induction s as [|c s IH]; simpl; [reflexivity|].
  intros E; apply andb_prop in E as [Hc Hs]. now rewrite (H c Hc), IH.
Qed.

Lemma no_at_in_class (p : ascii -> bool) :
  forallb (fun c => implb (p c) (negb (Ascii.eqb "@" c))) all_ascii = true ->
  forall c, p c = true -> Ascii.eqb "@" c = false.
Proof.
  intros H c Hc. destruct (Ascii.eqb_spec "@" c) as [<-|]; [|reflexivity].
  rewrite forallb_forall in H.
  assert (Hin : In "@"%char all_ascii).
  { unfold all_ascii. apply in_map_iff. exists 64%nat; split; [reflexivity|].
    apply in_seq; lia. }
  specialize (H _ Hin). now rewrite Hc in H.
Qed.

Lemma email_shape_one_at (s : string) :
  email_shape s -> count_chars (Ascii.eqb "@") s = 1%nat.
Proof.
  intros (loc & dom & tld & -> & _ & Hloc & _ & Hdom & _ & Htld).
  rewrite !count_chars_append.
  rewrite (count_zero_outside email_local_char (Ascii.eqb "@") loc
             (no_at_in_class email_local_char eq_refl) Hloc).
  rewrite (count_zero_outside email_domain_char (Ascii.eqb "@") dom
             (no_at_in_class email_domain_char eq_refl) Hdom).
  rewrite (count_zero_outside is_letter (Ascii.eqb "@") tld
             (no_at_in_class is_letter eq_refl) Htld).
  reflexivity.
Qed.

(** X27. What [validate_email] accepts: exactly the strings made of a
    non-empty local part over letters, digits and [._%+-], one ["@"], a
    non-empty domain part over letters, digits, dot and hyphen, a dot, and at
    least two letters, optionally followed by one line feed (before which
    [$] matches too).  An accepted address has exactly one ["@"]. *)
Theorem validate_email_accepts (email : string) :
  (validate_email email = true
   <-> email_shape email
       \/ exists w, email = (w ++ String "010" "")%string /\ email_shape w)
  /\ (validate_email email = true ->
      count_chars (Ascii.eqb "@") email = 1%nat).
Proof.
  assert (Hiff : validate_email email = true
                 <-> email_shape email
                     \/ exists w, email = (w ++ String "010" "")%string
                                  /\ email_shape w).
  { unfold validate_email, re_match. rewrite orb_true_iff, matches_lang.
    rewrite email_regex_shape. split; intros [H|H]; auto.
    - destruct (chomp email) as [w|] eqn:E; [|discriminate].
      right; exists w. split; [now apply chomp_spec|].
      now apply email_regex_shape, matches_lang.
    - destruct H as (w & Hw & Hs). right.
      apply chomp_spec in Hw; rewrite Hw.
      now apply matches_lang, email_regex_shape. }
  split; [exact Hiff|].
  intros H; apply Hiff in H as [H|(w & -> & H)].
  - now apply email_shape_one_at.
  - rewrite count_chars_append, (email_shape_one_at w H). reflexivity.
Qed.

Lemma all_ascii_complete (c : ascii) : In c all_ascii.
Proof.
  unfold all_ascii. apply in_map_iff. exists (nat_of_ascii c).
  split; [apply ascii_nat_embedding|].
  apply in_seq. pose proof (nat_ascii_bounded c). lia.
Qed.

Lemma classes_within_lang (q : ascii -> bool) (r : re) (s : string) :
  lang r s -> classes_within q r = true -> all_chars q s = true.
Proof.
  induction 1; cbn [classes_within all_chars]; intros Hq; try reflexivity.
  - rewrite forallb_forall in Hq. specialize (Hq c (all_ascii_complete c)).
    rewrite H in Hq; cbn [implb] in Hq. now rewrite Hq.
  - apply andb_prop in Hq as [Ha Hb].
    now rewrite all_chars_append, IHlang1, IHlang2.
  - apply andb_prop in Hq as [Ha Hb]. auto.
  - apply andb_prop in Hq as [Ha Hb]. auto.
  - rewrite all_chars_append, IHlang1, IHlang2; auto.
Qed.

Lemma digit_counts_lang (r : re) (s : string) :
  lang r s -> star_free r = true ->
  In (count_chars is_digit s) (digit_counts r).
Proof.
  induction 1; cbn [digit_counts star_free count_chars]; intros Hsf;
    try discriminate.
  - left; reflexivity.
  - apply in_app_iff. destruct (is_digit c) eqn:Hd.
    + right.
      assert (E : existsb (fun c => (p c && is_digit c)%bool) all_ascii = true).
      { apply existsb_exists; exists c; split; [apply all_ascii_complete|].
        now rewrite H, Hd. }
      rewrite E; left; reflexivity.
    + left.
      assert (E : existsb (fun c => (p c && negb (is_digit c))%bool) all_ascii
                  = true).
      { apply existsb_exists; exists c; split; [apply all_ascii_complete|].
        now rewrite H, Hd. }
      rewrite E; left; reflexivity.
  - apply andb_prop in Hsf as [Ha Hb].
    rewrite count_chars_append. apply nodup_In, in_flat_map.
    exists (count_chars is_digit s); split; [auto|].
    apply in_map; auto.
  - apply andb_prop in Hsf as [Ha Hb].
    apply nodup_In, in_app_iff; auto.
  - apply andb_prop in Hsf as [Ha Hb].
    apply nodup_In, in_app_iff; auto.
Qed.

(** X28. What [validate_phone] accepts, for phones typed in ASCII: only
    strings made of digits, white space, hyphens, ["+"] and parentheses,
    with 7, 8, 10 or 11 digits in all.  Parentheses need not be paired: the
    two are optional independently of each other. *)
Theorem validate_phone_accepts (phone : string)
    (Hok : validate_phone phone = Ok true) :
  all_chars phone_char phone = true
  /\ In (count_chars is_digit phone) [7; 8; 10; 11]%nat
  /\ validate_phone "8(9123456789" = Ok true
  /\ validate_phone "912)3456789" = Ok true.
Proof.
  assert (Hw : forall w, matches phone_regex w = true ->
                         all_chars phone_char w = true
                         /\ In (count_chars is_digit w) [7; 8; 10; 11]%nat).
  { intros w H; apply matches_lang in H. split.
    - apply (classes_within_lang phone_char phone_regex w H).
      vm_compute; reflexivity.
    - pose proof (digit_counts_lang phone_regex w H eq_refl) as Hc.
      assert (E : digit_counts phone_regex = [11; 8; 10; 7]%nat)
        by (vm_compute; reflexivity).
      rewrite E in Hc; simpl in *; intuition. }
  unfold validate_phone in Hok.
  destruct (all_chars is_ascii phone); [|discriminate].
  injection Hok as Hok. unfold re_match in Hok.
  apply orb_prop in Hok as [Hok|Hok].
  - destruct (Hw phone Hok) as [H1 H2].
    split; [exact H1|]. split; [exact H2|]. split; vm_compute; reflexivity.
  - destruct (chomp phone) as [w|] eqn:E; [|discriminate].
    apply chomp_spec in E; subst phone. destruct (Hw w Hok) as [H1 H2].
    split; [now rewrite all_chars_append, H1|].
    split; [rewrite count_chars_append; simpl; now rewrite Nat.add_0_r|].
    split; vm_compute; reflexivity.
Qed.

Lemma validate_phone_accepts_witness :
  validate_phone "+7 912 345-67-89" = Ok true
  /\ In (count_chars is_digit "+7 912 345-67-89") [7; 8; 10; 11]%nat.
Proof.
  assert (H : validate_phone "+7 912 345-67-89" = Ok true)
    by (vm_compute; reflexivity).
  split; [exact H|].
  exact (proj1 (proj2 (validate_phone_accepts "+7 912 345-67-89" H))).
Defined.

(** ** The task menu's filters *)

Lemma filter_none {A : Type} (l : list A) : filter (fun _ => false) l = [].
Proof. induction l as [|a l IH]; simpl; auto. Qed.

Lemma due_by_datetime_outcome (l : list Task.t) :
  due_by_datetime l
  = if existsb (fun task => truthy_opt (Task.due_date task)) l
    then Raise TypeError else Ok [].
Proof.
  induction l as [|x l IH]; simpl; [reflexivity|].
  destruct (truthy_opt (Task.due_date x)); simpl; [reflexivity|exact IH].
Qed.

(** X29. With the arguments [task_app] passes, the status and date filters
    of the task list never show a task.  A status of ["0"] or ["1"] is
    compared with the boolean done flag and matches nothing, so the result
    is empty.  A date filter is a [datetime] compared with the date strings:
    the call raises [TypeError] as soon as a task that passed the other
    filters has a due date, and returns nothing otherwise.  Only the
    priority filter works, and agrees with [list_tasks] on typed
    arguments. *)
Theorem menu_status_and_date_filters_show_nothing
    (priorities : list string) (status : string) (d : date)
    (tm : TaskManager.t) :
  (status <> "" ->
   list_tasks_from_menu priorities status None tm = Ok []
   /\ list_tasks_from_menu priorities status (Some d) tm = Ok [])
  /\ (list_tasks_from_menu priorities "" (Some d) tm
      = if existsb (fun task => truthy_opt (Task.due_date task))
             (TaskManager.list_tasks None (Some priorities) None tm)
        then Raise TypeError else Ok [])
  /\ list_tasks_from_menu priorities "" None tm
     = Ok (TaskManager.list_tasks None (Some priorities) None tm).
Proof.
  unfold list_tasks_from_menu, TaskManager.list_tasks.
  split; [|split].
  - intros Hs; rewrite (truthy_true status Hs), filter_none.
    destruct (negb (Nat.eqb (List.length priorities) 0)); split; reflexivity.
  - cbn [truthy String.eqb negb]. apply due_by_datetime_outcome.
  - reflexivity.
Qed.
